(** * Tor10: bonds, quantum-number sectors and the UniTensor container

    A shallow embedding of [Tor10/UniTensor.py] (the constructor, equality,
    [GetTotalQnums], [PutBlock], [GetBlock], [Contract], [CombineBonds] and
    the label, permutation and reshaping methods)
    together with the NumPy / PyTorch primitives it calls, and the properties
    of the block bookkeeping stated about them.

    Conventions.
    - A NumPy integer array is a [list Z] (labels, one quantum-number row) or a
      [list (list Z)] (the [dim x nsym] table of a bond); an index array is a
      [list nat].
    - A torch tensor is its shape and its elements in row-major order.  The
      element type is abstract: the code only moves elements around, except in
      [Contract], which multiplies and sums them.
    - [Reshape] goes through torch's [view], which depends on how the
      storage is laid out: the methods that read or change the layout carry
      the strides of the storage next to the tensor.
    - The labels are a NumPy array of 64-bit integers: storing a Python int
      outside that range raises [OverflowError].
    - [np.argsort] is NumPy's default sort, an introsort that is stable only
      up to 16 elements.
    - [Bond.combine] changes a bond object in place and a list of bonds may
      hold one object several times: [CombineBonds] takes the object standing
      at each position of the list.
    - Python exceptions are values of [error]; a method that mutates [self]
      returns the tensor as it is left behind together with its outcome. *)

From Stdlib Require Import List ZArith Lia Bool Arith Permutation Sorted.
Import ListNotations.

Set Implicit Arguments.

(** ** Errors *)

(** One constructor per [raise] site of [UniTensor.py], plus the exceptions
    that Python, NumPy and torch raise on their own in the modelled code. *)
Inductive error : Type :=
  (* UniTensor.__init__ *)
  | InitSparseFlags | InitBadNinbond | InitLabelCount | InitDupLabels
  | InitDiagRank | InitDiagNin | InitDiagSquare
  | InitBlockNoInOut | InitBlockNonSym | InitMixedBonds | InitNsymMismatch
  | InitNoValidBlock
  (* UniTensor.GetTotalQnums *)
  | TotalQnumsNonSym | TotalQnumsNoInOut
  (* UniTensor.PutBlock *)
  | PutBlockNonSym | PutBlockQnumLen | PutBlockDiag | PutBlockSizeMismatch
  | PutBlockSparseBlock | PutBlockBadType | PutBlockNoBlock | PutBlockNoInOut
  | PutBlockNoSectorIn | PutBlockNoSectorOut
  (* UniTensor.GetBlock *)
  | GetBlockDiag | GetBlockQnumLen | GetBlockNoBlock | GetBlockNoInOut
  | GetBlockNoSectorIn | GetBlockNoSectorOut
  (* Contract *)
  | ContractSymMix | ContractQnumMismatch
  (* CombineBonds, _CombineBonds *)
  | CombineTooFew | CombineDiag | CombineTooMany | CombineNoLabel
  | CombineDupLabel
  (* UniTensor.__eq__ *)
  | EqInvalid
  (* raised by the interpreter or the libraries *)
  | IndexError          (* subscript out of range *)
  | AttributeError      (* e.g. [.shape] of a list, [.qnums.T] of [None] *)
  | AmbiguousTruth      (* truth value of an array with several elements *)
  | OverflowError       (* a Python int too large for an int64 array *)
  | LexsortNoKeys       (* [np.lexsort] without keys *)
  | TorchRuntimeError   (* shape mismatch inside torch *)
  | SystemExit.         (* [exit(1)] of the unsupported block-form paths *)

Inductive result (A : Type) : Type :=
  | Ok (a : A)
  | Err (e : error).
Arguments Ok {A} a.
Arguments Err {A} e.

Definition bind {A B} (r : result A) (k : A -> result B) : result B :=
  match r with
  | Ok a => k a
  | Err e => Err e
  end.

Declare Scope py_scope.
Delimit Scope py_scope with py.
Notation "x <- e ;; k" := (bind e (fun x => k))
  (at level 61, e at next level, right associativity) : py_scope.
Notation "' p <- e ;; k" := (bind e (fun x => let p := x in k))
  (at level 61, p pattern, e at next level, right associativity) : py_scope.
Open Scope py_scope.

Definition guard (b : bool) (e : error) : result unit :=
  if b then Err e else Ok tt.

Definition is_ok {A} (r : result A) : bool :=
  match r with Ok _ => true | Err _ => false end.

Definition opt_err {A} (o : option A) (e : error) : result A :=
  match o with Some a => Ok a | None => Err e end.

(** ** Python sequences *)

Module Py.

(** [l[i]] with Python's negative subscripts. *)
Definition index {A} (l : list A) (i : Z) : result A :=
  let n := Z.of_nat (length l) in
  if ((0 <=? i) && (i <? n))%Z then opt_err (nth_error l (Z.to_nat i)) IndexError
  else if ((- n <=? i) && (i <? 0))%Z
       then opt_err (nth_error l (Z.to_nat (i + n))) IndexError
       else Err IndexError.

Definition clip (n i : Z) : nat :=
  Z.to_nat (if (i <? 0)%Z then Z.max 0 (i + n) else Z.min i n).

(** [l[lo:hi]] *)
Definition slice {A} (l : list A) (lo hi : Z) : list A :=
  let n := Z.of_nat (length l) in
  firstn (clip n hi - clip n lo) (skipn (clip n lo) l).

(** [l[lo:]] *)
Definition slice_from {A} (l : list A) (lo : Z) : list A :=
  skipn (clip (Z.of_nat (length l)) lo) l.

(** [l[:hi]] *)
Definition slice_to {A} (l : list A) (hi : Z) : list A :=
  firstn (clip (Z.of_nat (length l)) hi) l.

(** [[l[i] for i in idx]] for in-range [idx] (fancy indexing by an index
    array); an index past the end is an [IndexError]. *)
Fixpoint take {A} (l : list A) (idx : list nat) : result (list A) :=
  match idx with
  | [] => Ok []
  | i :: idx' =>
      x <- opt_err (nth_error l i) IndexError ;;
      xs <- take l idx' ;;
      Ok (x :: xs)
  end.

(** position of the first occurrence *)
Fixpoint index_of (eqb : nat -> nat -> bool) (x : nat) (l : list nat) : option nat :=
  match l with
  | [] => None
  | y :: l' => if eqb x y then Some 0
               else match index_of eqb x l' with
                    | Some k => Some (S k)
                    | None => None
                    end
  end.

Definition memZ (x : Z) (l : list Z) : bool := existsb (Z.eqb x) l.
Definition memN (x : nat) (l : list nat) : bool := existsb (Nat.eqb x) l.

Fixpoint first_index (x : Z) (l : list Z) : nat :=
  match l with
  | [] => 0
  | y :: l' => if (x =? y)%Z then 0 else S (first_index x l')
  end.

End Py.

(** [l[s] = x] *)
Fixpoint list_set {A} (l : list A) (s : nat) (x : A) : list A :=
  match l, s with
  | [], _ => []
  | _ :: l', 0 => x :: l'
  | y :: l', S s' => y :: list_set l' s' x
  end.

(** ** NumPy primitives *)

Module Np.

(** [np.prod] *)
Definition prod (l : list nat) : nat := fold_right Nat.mul 1 l.

(** Insertion of index [i] into a list of indices sorted by [key]: [i] goes
    in front of the first index whose key is not smaller, so an index that
    came earlier stays ahead of later ones with the same key. *)
Fixpoint insert_by {K} (lt : K -> K -> bool) (key : nat -> K) (i : nat)
    (l : list nat) : list nat :=
  match l with
  | [] => [i]
  | j :: l' => if lt (key j) (key i) then j :: insert_by lt key i l'
               else i :: l
  end.

(** Stable sort of a list of indices by key. *)
Definition sort_by {K} (lt : K -> K -> bool) (key : nat -> K) (l : list nat)
    : list nat :=
  fold_right (insert_by lt key) [] l.

Definition bool_lt (a b : bool) : bool := negb a && b.

(** *** The default sort of [np.argsort]

    [np.argsort(a)] sorts with [kind='quicksort'], NumPy's introsort on the
    array of indices: a stretch of more than 16 indices is split around the
    median of its first, middle and last key and the two parts are sorted in
    turn, a stretch whose depth allowance is used up is sorted by heapsort,
    and a stretch of at most 16 indices by insertion.  Only the insertion
    sort keeps equal keys in their original order. *)

Section Introsort.

Context {K : Type} (lt : K -> K -> bool) (key : nat -> K).

(** the key of the index stored at position [p] *)
Definition key_at (a : list nat) (p : nat) : K := key (nth p a 0).

(** exchange of the entries at two positions *)
Definition swap (a : list nat) (i j : nat) : list nat :=
  match nth_error a i, nth_error a j with
  | Some x, Some y => list_set (list_set a i y) j x
  | _, _ => a
  end.

(** Insertion of [x] behind a sorted stretch, held back to front: [x] moves
    towards the front past every entry whose key is larger. *)
Fixpoint insert_back (x : nat) (r : list nat) : list nat :=
  match r with
  | [] => [x]
  | y :: r' => if lt (key x) (key y) then y :: insert_back x r'
               else x :: r
  end.

Definition insertion_sort (seg : list nat) : list nat :=
  rev (fold_left (fun r x => insert_back x r) seg []).

(** [do ++pi; while (v[*pi] < vp)] *)
Fixpoint scan_up (fuel : nat) (a : list nat) (vp : K) (pi : nat) : nat :=
  match fuel with
  | 0 => pi
  | S f => if lt (key_at a (S pi)) vp then scan_up f a vp (S pi) else S pi
  end.

(** [do --pj; while (vp < v[*pj])] *)
Fixpoint scan_down (fuel : nat) (a : list nat) (vp : K) (pj : nat) : nat :=
  match fuel with
  | 0 => pj
  | S f => if lt vp (key_at a (pj - 1)) then scan_down f a vp (pj - 1)
           else pj - 1
  end.

(** the exchanges of the partition loop, until the two scans meet *)
Fixpoint exchange (fuel : nat) (a : list nat) (vp : K) (pi pj : nat)
    : list nat * nat :=
  match fuel with
  | 0 => (a, pi)
  | S f =>
      let pi' := scan_up (length a) a vp pi in
      let pj' := scan_down (length a) a vp pj in
      if pj' <=? pi' then (a, pi')
      else exchange f (swap a pi' pj') vp pi' pj'
  end.

(** The partition of a stretch [a] (positions [0] to [pr]): the median of
    the keys at [0], [pm] and [pr] is the pivot, parked at [pr - 1] during
    the exchanges and put at its place [pi] at the end. *)
Definition partition (a : list nat) : list nat * nat :=
  let pr := length a - 1 in
  let pm := Nat.div2 pr in
  let a := if lt (key_at a pm) (key_at a 0) then swap a pm 0 else a in
  let a := if lt (key_at a pr) (key_at a pm) then swap a pr pm else a in
  let a := if lt (key_at a pm) (key_at a 0) then swap a pm 0 else a in
  let vp := key_at a pm in
  let a := swap a pm (pr - 1) in
  let (a, pi) := exchange (length a) a vp 0 (pr - 1) in
  (swap a pi (pr - 1), pi).

(** Sifting the entry at position [i] (counted from 1) down the heap of the
    first [n] entries; the entry is carried along by exchanges. *)
Fixpoint sift (fuel : nat) (a : list nat) (i n : nat) : list nat :=
  match fuel with
  | 0 => a
  | S f =>
      let j := 2 * i in
      if n <? j then a
      else
        let j := if (j <? n) && lt (key_at a (j - 1)) (key_at a j)
                 then S j else j in
        if lt (key_at a (i - 1)) (key_at a (j - 1))
        then sift f (swap a (i - 1) (j - 1)) j n
        else a
  end.

(** [for (l = n >> 1; l > 0; --l)]: heap construction *)
Fixpoint heapify (l : nat) (a : list nat) (n : nat) : list nat :=
  match l with
  | 0 => a
  | S l' => heapify l' (sift n a l n) n
  end.

(** [for (; n > 1;)]: the largest entry goes to the end of the heap, which
    shrinks by one *)
Fixpoint extract (n : nat) (a : list nat) : list nat :=
  match n with
  | 0 => a
  | S n' => if n' =? 0 then a
            else extract n' (sift n' (swap a 0 n') 1 n')
  end.

Definition heapsort (seg : list nat) : list nat :=
  let n := length seg in
  extract n (heapify (Nat.div2 n) seg n).

(** The sort of one stretch.  [popped] tells whether the stretch was taken
    from the stack of pending stretches, where the depth allowance [cdepth]
    is looked at, or is the smaller part that the partition loop goes on
    with.  [fuel] bounds the nesting. *)
Fixpoint introsort (fuel : nat) (popped : bool) (cdepth : Z) (seg : list nat)
    : list nat :=
  match fuel with
  | 0 => seg
  | S f =>
      if popped && (cdepth <? 0)%Z then heapsort seg
      else if 15 <? length seg - 1 then
        let (a, pi) := partition seg in
        let left := firstn pi a in
        let pivot := firstn 1 (skipn pi a) in
        let right := skipn (S pi) a in
        let d := (cdepth - 1)%Z in
        if length left <? length right
        then introsort f false d left ++ pivot ++ introsort f true d right
        else introsort f true d left ++ pivot ++ introsort f false d right
      else insertion_sort seg
  end.

End Introsort.

(** [np.argsort] of a boolean array *)
Definition argsort (keys : list bool) : list nat :=
  let n := length keys in
  introsort bool_lt (fun i => nth i keys false) (S n) true
            (2 * Z.of_nat (Nat.log2 n)) (seq 0 n).

(** [np.lexsort(keys)]: a stable sort on each key in turn, so that the last
    key is the primary one.  NumPy rejects an empty sequence of keys. *)
Definition lexsort (keys : list (list Z)) : result (list nat) :=
  match keys with
  | [] => Err LexsortNoKeys
  | k0 :: _ =>
      Ok (fold_left (fun perm k => sort_by Z.ltb (fun i => nth i k 0%Z) perm)
                    keys (seq 0 (length k0)))
  end.

(** number of columns of a 2-D array given by its rows *)
Definition ncols (rows : list (list Z)) : nat :=
  match rows with
  | [] => 0
  | r :: _ => length r
  end.

(** column [c] of a 2-D array: [a[:,c]] *)
Definition column (rows : list (list Z)) (c : nat) : list Z :=
  map (fun r => nth c r 0%Z) rows.

(** [a.T] *)
Definition transpose (rows : list (list Z)) : list (list Z) :=
  map (column rows) (seq 0 (ncols rows)).

(** [a[y,:]] for an index array [y] produced from [a] itself *)
Definition rows_at (rows : list (list Z)) (y : list nat) : list (list Z) :=
  map (fun i => nth i rows []) y.

(** sorted insertion without repetition, for [np.unique] *)
Fixpoint insert_uniq (x : Z) (l : list Z) : list Z :=
  match l with
  | [] => [x]
  | y :: l' => if (x <? y)%Z then x :: l
               else if (x =? y)%Z then l
               else y :: insert_uniq x l'
  end.

(** [np.unique] of a 1-D integer array: its values, ascending, once each *)
Definition unique (l : list Z) : list Z := fold_right insert_uniq [] l.

(** [np.intersect1d(a, b, return_indices=True)]: the common values in
    ascending order and, for each, the index of its first occurrence in [a]
    and in [b]. *)
Definition intersect1d (a b : list Z) : list Z * list nat * list nat :=
  let same := filter (fun x => Py.memZ x b) (unique a) in
  (same, map (fun x => Py.first_index x a) same,
         map (fun x => Py.first_index x b) same).

(** [np.setdiff1d(np.arange(n), idx)]: [arange] is already ascending and
    without repetition *)
Definition setdiff1d_arange (n : nat) (idx : list nat) : list nat :=
  filter (fun x => negb (Py.memN x idx)) (seq 0 n).

(** [np.intersect1d] of two ascending index arrays without repetition, as
    produced by [np.argwhere(...).flatten()] *)
Definition intersect1d_idx (a b : list nat) : list nat :=
  filter (fun x => Py.memN x b) a.

(** [np.argwhere(a[:,c] == v).flatten()] *)
Definition argwhere_col (rows : list (list Z)) (c : nat) (v : Z) : list nat :=
  filter (fun r => (nth c (nth r rows []) 0 =? v)%Z) (seq 0 (length rows)).

(** row-wise comparison [(a == q).all(axis=1)] on one row, for [q] as wide
    as the rows of [a] *)
Fixpoint row_all_eq (r q : list Z) : bool :=
  match r, q with
  | [], [] => true
  | x :: r', y :: q' => (x =? y)%Z && row_all_eq r' q'
  | _, _ => false
  end.

(** [np.where((a == q).all(axis=1))[0]] *)
Definition where_rows (rows : list (list Z)) (q : list Z) : list nat :=
  filter (fun r => row_all_eq (nth r rows []) q) (seq 0 (length rows)).

(** Truth value of [x == y] for two 1-D arrays, as tested by [if]: the
    comparison is element-wise (a one-element array is broadcast, other
    unequal lengths compare as [False]); an array of one element has the truth
    value of that element, an empty one is false, and NumPy refuses to give a
    truth value to a longer one. *)
Definition array_eq (x y : list Z) : option (list bool) :=
  if length x =? length y
  then Some (map (fun p => (fst p =? snd p)%Z) (combine x y))
  else match x, y with
       | [a], _ => Some (map (Z.eqb a) y)
       | _, [b] => Some (map (fun a => (a =? b)%Z) x)
       | _, _ => None
       end.

Definition truth (v : option (list bool)) : result bool :=
  match v with
  | None => Ok false
  | Some [] => Ok false
  | Some [b] => Ok b
  | Some _ => Err AmbiguousTruth
  end.

(** a Python int that an array of 64-bit integers can hold *)
Definition fits_int64 (z : Z) : bool :=
  (-9223372036854775808 <=? z)%Z && (z <=? 9223372036854775807)%Z.

(** [a.all()] of an integer array: no entry is zero *)
Definition all_nonzero (rows : list (list Z)) : bool :=
  forallb (forallb (fun x => negb (x =? 0)%Z)) rows.

End Np.

(** ** Bonds

    [Tor10/Bond.py] is imported by [UniTensor.py]; the part of it the tensor
    code relies on is described in the specification (data model and bond
    algebra). *)

(** Modelled from the spec: a bond has a dimension [dim] and either no quantum
    numbers or an ordered sequence of [dim] quantum-number vectors, one per
    basis state, all of the same length [nsym]. *)
Record Bond : Type := mkBond {
  dim : nat;
  qnums : option (list (list Z))
}.

(** Modelled from the spec: [nsym], the common length of the quantum-number
    vectors of a bond (the second extent of its [qnums] table). *)
Definition nsym (b : Bond) : nat :=
  match qnums b with
  | None => 0
  | Some q => Np.ncols q
  end.

(** Modelled from the spec: [Bond(dim)], a fresh non-symmetric bond. *)
Definition Bond_new (d : nat) : Bond := mkBond d None.

(** channel-wise sum of two quantum-number vectors *)
Fixpoint qadd (x y : list Z) : list Z :=
  match x, y with
  | a :: x', b :: y' => (a + b)%Z :: qadd x' y'
  | _, _ => []
  end.

(** Modelled from the spec: [combine(A, B)], the bond of dimension
    [dimA * dimB] whose quantum-number vector at the combined index [(i, j)]
    is the channel-wise sum of [A.qnums[i]] and [B.qnums[j]], in row-major
    order with [i] varying slower.  For bonds without quantum numbers only the
    dimensions multiply. *)
Definition combine2 (a b : Bond) : Bond :=
  mkBond (dim a * dim b)
         (match qnums a, qnums b with
          | Some qa, Some qb =>
              Some (flat_map (fun ra => map (fun rb => qadd ra rb) qb) qa)
          | _, _ => None
          end).

(** Modelled from the spec: [A.combine(bonds)], combining with more than one
    bond is left-associative, repeated pairwise. *)
Definition Bond_combine (a : Bond) (bs : list Bond) : Bond :=
  fold_left combine2 bs a.

Definition Zlist_eq_dec : forall x y : list Z, {x = y} + {x <> y} :=
  list_eq_dec Z.eq_dec.

(** Modelled from the spec: [GetUniqueQnums()], the distinct quantum-number
    vectors of a bond, multiplicity discarded. *)
Definition GetUniqueQnums (b : Bond) : list (list Z) :=
  match qnums b with
  | None => []
  | Some q => nodup Zlist_eq_dec q
  end.

(** Modelled from the spec: [CommonRows(S, T)], here [_fx_GetCommRows], the
    intersection of two sets of quantum-number vectors. *)
Definition _fx_GetCommRows (S T : list (list Z)) : list (list Z) :=
  nodup Zlist_eq_dec (filter (fun q => if in_dec Zlist_eq_dec q T then true else false) S).

(** ** Torch tensors *)

Section Tor10.

Variable R : Type.
Variable zero : R.
Variables add mul : R -> R -> R.

(** A tensor: its shape and its elements in row-major (contiguous) order. *)
Record Tensor : Type := mkTensor {
  shape : list nat;
  data : list R
}.

(** [torch.zeros(shape)] *)
Definition zeros (sh : list nat) : Tensor :=
  mkTensor sh (repeat zero (Np.prod sh)).

(** row-major offset of a multi-index *)
Fixpoint ravel (sh idx : list nat) : nat :=
  match sh, idx with
  | _ :: sh', i :: idx' => i * Np.prod sh' + ravel sh' idx'
  | _, _ => 0
  end.

(** all multi-indices of a shape, in row-major order *)
Fixpoint all_indices (sh : list nat) : list (list nat) :=
  match sh with
  | [] => [[]]
  | d :: sh' => flat_map (fun i => map (cons i) (all_indices sh')) (seq 0 d)
  end.

(** [t[i0, i1, ...]] *)
Definition get (t : Tensor) (idx : list nat) : R :=
  nth (ravel (shape t) idx) (data t) zero.

(** The multi-index of the source of [t.permute] along [mapper] read at [idx']:
    axis [k] of the result is axis [mapper[k]] of [t]. *)
Definition unpermute (mapper : list nat) (idx' : list nat) : list nat :=
  map (fun p => match Py.index_of Nat.eqb p mapper with
                | Some k => nth k idx' 0
                | None => 0
                end)
      (seq 0 (length mapper)).

(** [t.permute] along [mapper], made contiguous *)
Definition permute (t : Tensor) (mapper : list nat) : Tensor :=
  let sh' := map (fun m => nth m (shape t) 0) mapper in
  mkTensor sh' (map (fun idx' => get t (unpermute mapper idx')) (all_indices sh')).

(** [t.reshape] / [t.view(sh)] of a contiguous tensor *)
Definition reshape (t : Tensor) (sh : list nat) : result Tensor :=
  if Np.prod sh =? length (data t) then Ok (mkTensor sh (data t))
  else Err TorchRuntimeError.

(** [t.reshape(rows, -1)] *)
Definition reshape_rows (t : Tensor) (rows : nat) : result Tensor :=
  if (rows =? 0) || negb (length (data t) mod rows =? 0)
  then Err TorchRuntimeError
  else Ok (mkTensor [rows; length (data t) / rows] (data t)).

(** [torch.tensordot(a, b, dims=0)]: the outer product *)
Definition outer (a b : Tensor) : Tensor :=
  mkTensor (shape a ++ shape b)
           (flat_map (fun x => map (mul x) (data b)) (data a)).

(** the multi-index of an operand of [tensordot] with free axes [fpos] at
    [fidx] and contracted axes [cpos] at [cidx] *)
Definition scatter (rank : nat) (fpos fidx cpos cidx : list nat) : list nat :=
  map (fun p => match Py.index_of Nat.eqb p cpos with
                | Some t => nth t cidx 0
                | None => match Py.index_of Nat.eqb p fpos with
                          | Some t => nth t fidx 0
                          | None => 0
                          end
                end)
      (seq 0 rank).

Definition shape_eqb (s1 s2 : list nat) : bool :=
  if list_eq_dec Nat.eq_dec s1 s2 then true else false.

(** [torch.tensordot(a, b, dims=(ia, ib))]: the free axes of [a] in their
    order, then those of [b]; each element sums the products over the
    contracted axes, which must have equal extents. *)
Definition tensordot (a b : Tensor) (ia ib : list nat) : result Tensor :=
  da <- Py.take (shape a) ia ;;
  db <- Py.take (shape b) ib ;;
  _ <- guard (negb (shape_eqb da db)) TorchRuntimeError ;;
  let ra := length (shape a) in
  let rb := length (shape b) in
  let fa := Np.setdiff1d_arange ra ia in
  let fb := Np.setdiff1d_arange rb ib in
  sa <- Py.take (shape a) fa ;;
  sb <- Py.take (shape b) fb ;;
  Ok (mkTensor (sa ++ sb)
        (flat_map (fun i =>
           map (fun j =>
                  fold_right (fun k acc =>
                                add (mul (get a (scatter ra fa i ia k))
                                         (get b (scatter rb fb j ib k))) acc)
                             zero (all_indices da))
               (all_indices sb))
           (all_indices sa))).

(** [torch.diag]: a vector becomes the square matrix with that diagonal, a
    matrix yields its diagonal. *)
Definition diag (t : Tensor) : result Tensor :=
  match shape t with
  | [n] =>
      Ok (mkTensor [n; n]
            (flat_map (fun i => map (fun j => if i =? j then nth i (data t) zero
                                              else zero) (seq 0 n)) (seq 0 n)))
  | [r; c] =>
      Ok (mkTensor [Nat.min r c]
            (map (fun i => nth (i * c + i) (data t) zero) (seq 0 (Nat.min r c))))
  | _ => Err TorchRuntimeError
  end.

Definition in_range (n : nat) (idx : list nat) : bool :=
  forallb (fun i => i <? n) idx.

(** [t[np.ix_(rows, cols)]] on a matrix: the sub-matrix at the Cartesian
    product of the two index sets *)
Definition ix_get (t : Tensor) (rows cols : list nat) : result Tensor :=
  match shape t with
  | [nr; nc] =>
      _ <- guard (negb (in_range nr rows && in_range nc cols)) IndexError ;;
      Ok (mkTensor [length rows; length cols]
            (flat_map (fun r => map (fun c => nth (r * nc + c) (data t) zero) cols)
                      rows))
  | _ => Err IndexError
  end.

(** leading extents 1 of an assigned value beyond two axes are dropped *)
Fixpoint strip_ones (sh : list nat) : list nat :=
  match sh with
  | 1 :: sh' => if 2 <=? length sh' then strip_ones sh' else sh
  | _ => sh
  end.

(** the value assigned to a selection of shape [(n, m)], broadcast to it *)
Definition broadcast2 (v : Tensor) (n m : nat) : result (nat -> nat -> R) :=
  match strip_ones (shape v) with
  | [] => Ok (fun _ _ => nth 0 (data v) zero)
  | [k] =>
      if (k =? m) || (k =? 1)
      then Ok (fun _ b => nth (if k =? 1 then 0 else b) (data v) zero)
      else Err TorchRuntimeError
  | [p; k] =>
      if ((p =? n) || (p =? 1)) && ((k =? m) || (k =? 1))
      then Ok (fun a b => nth ((if p =? 1 then 0 else a) * k
                               + (if k =? 1 then 0 else b)) (data v) zero)
      else Err TorchRuntimeError
  | _ => Err TorchRuntimeError
  end.

(** [t[np.ix_(rows, cols)] = v] on a matrix *)
Definition ix_put (t : Tensor) (rows cols : list nat) (v : Tensor)
    : result Tensor :=
  match shape t with
  | [nr; nc] =>
      _ <- guard (negb (in_range nr rows && in_range nc cols)) IndexError ;;
      f <- broadcast2 v (length rows) (length cols) ;;
      Ok (mkTensor [nr; nc]
            (map (fun p =>
                    match Py.index_of Nat.eqb (p / nc) rows,
                          Py.index_of Nat.eqb (p mod nc) cols with
                    | Some a, Some b => f a b
                    | _, _ => nth p (data t) zero
                    end)
                 (seq 0 (length (data t)))))
  | _ => Err IndexError
  end.

(** ** The UniTensor container *)

(** [self.Storage]: one torch tensor (dense; for a diagonal tensor the vector
    of diagonal entries), or in block form a Python list of matrices. *)
Inductive Storage_t : Type :=
  | Dense (t : Tensor)
  | BlockList (l : list Tensor).

Record UniTensor : Type := mkUniTensor {
  bonds : list Bond;
  N_inbond : Z;
  labels : list Z;              (* an array of 64-bit integers *)
  is_diag : bool;
  is_blockform : bool;
  Storage : Storage_t;
  _BlockMapper_in : option (list (list nat));
  _BlockMapper_out : option (list (list nat));
  _BlockQnums : option (list (list Z))
}.

Definition set_Storage (u : UniTensor) (s : Storage_t) : UniTensor :=
  mkUniTensor (bonds u) (N_inbond u) (labels u) (is_diag u) (is_blockform u) s
              (_BlockMapper_in u) (_BlockMapper_out u) (_BlockQnums u).

Definition is_none {A} (o : option A) : bool :=
  match o with None => true | Some _ => false end.

Definition len {A} (l : list A) : Z := Z.of_nat (length l).

Fixpoint mapM {A B} (f : A -> result B) (l : list A) : result (list B) :=
  match l with
  | [] => Ok []
  | x :: l' => y <- f x ;; ys <- mapM f l' ;; Ok (y :: ys)
  end.

(** [self.Storage.shape] *)
Definition storage_shape (s : Storage_t) : result (list nat) :=
  match s with
  | Dense t => Ok (shape t)
  | BlockList _ => Err AttributeError
  end.

(** The normalisation of one bond in the block-form constructor:
    [y = np.lexsort(qnums.T[::-1])[::-1]; qnums = qnums[y,:]]. *)
Definition sort_qnums (b : Bond) : result Bond :=
  q <- opt_err (qnums b) AttributeError ;;
  y <- Np.lexsort (rev (Np.transpose q)) ;;
  Ok (mkBond (dim b) (Some (Np.rows_at q (rev y)))).

(** the virtual combined in-bond: [bonds[0]] combined with [bonds[1:N_inbond]] *)
Definition combined_in (bs : list Bond) (Nin : Z) (b0 : Bond) : Bond :=
  if (1 <? Nin)%Z then Bond_combine b0 (Py.slice bs 1 Nin) else b0.

(** the virtual combined out-bond: [bonds[N_inbond]] combined with
    [bonds[N_inbond+1:]] *)
Definition combined_out (bs : list Bond) (Nin : Z) : result Bond :=
  b1 <- Py.index bs Nin ;;
  Ok (if (1 <? len bs - Nin)%Z
      then Bond_combine b1 (Py.slice_from bs (Nin + 1)) else b1).

(** [UniTensor.GetTotalQnums], on the attributes it reads *)
Definition total_qnums (bs : list Bond) (Nin : Z) : result (Bond * Bond) :=
  b0 <- Py.index bs 0 ;;
  _ <- guard (is_none (qnums b0)) TotalQnumsNonSym ;;
  _ <- guard ((Nin =? 0)%Z || (Nin =? len bs)%Z) TotalQnumsNoInOut ;;
  let cb_inbonds := combined_in bs Nin b0 in
  cb_outbonds <- combined_out bs Nin ;;
  Ok (cb_inbonds, cb_outbonds).

Definition GetTotalQnums (self : UniTensor) : result (Bond * Bond) :=
  total_qnums (bonds self) (N_inbond self).

Definition BlockInfo_t : Type :=
  (list (list nat) * list (list nat) * list (list Z))%type.

(** the checks of the constructor, run when [check] is set *)
Definition init_checks (bs : list Bond) (Nin : Z) (lbls : list Z)
    (isdiag isblock : bool) : result unit :=
  _ <- guard (isblock && isdiag) InitSparseFlags ;;
  _ <- guard ((0 <? len bs)%Z && ((Nin <? 0)%Z || (len bs <? Nin)%Z))
             InitBadNinbond ;;
  _ <- guard (negb (length lbls =? length bs)) InitLabelCount ;;
  _ <- guard (negb (length (Np.unique lbls) =? length lbls)) InitDupLabels ;;
  _ <- (if isdiag then
          _ <- guard (negb (length lbls =? 2)) InitDiagRank ;;
          _ <- guard (negb (Nin =? 1)%Z) InitDiagNin ;;
          b0 <- Py.index bs 0 ;;
          b1 <- Py.index bs 1 ;;
          guard (negb (dim b0 =? dim b1)) InitDiagSquare
        else if isblock then
          _ <- guard ((Nin <? 1)%Z || (len bs - Nin <? 1)%Z) InitBlockNoInOut ;;
          b0 <- Py.index bs 0 ;;
          guard (is_none (qnums b0)) InitBlockNonSym
        else Ok tt) ;;
  _ <- guard (negb (length (nodup Bool.bool_dec
                              (map (fun bd => is_none (qnums bd)) bs)) =? 1))
             InitMixedBonds ;;
  b0 <- Py.index bs 0 ;;
  if is_none (qnums b0) then Ok tt
  else guard (negb (length (nodup Nat.eq_dec (map nsym bs)) =? 1))
             InitNsymMismatch.

(** [labels], or [np.arange(len(self.bonds))] when none are given *)
Definition labels_or_arange (labels0 : option (list Z)) (n : nat) : list Z :=
  match labels0 with
  | None => map Z.of_nat (seq 0 n)
  | Some l => l
  end.

(** [self.labels] as the constructor builds it:
    [np.array(copy.deepcopy(labels), dtype=np.int)], an array of 64-bit
    integers, which NumPy refuses to fill with a Python int outside their
    range; [np.arange(len(self.bonds))] when no labels are given. *)
Definition labels_array (labels0 : option (list Z)) (n : nat)
    : result (list Z) :=
  match labels0 with
  | None => Ok (map Z.of_nat (seq 0 n))
  | Some l =>
      _ <- guard (negb (forallb Np.fits_int64 l)) OverflowError ;;
      Ok l
  end.

(** [UniTensor.__init__].  The arguments [device], [dtype], [requires_grad]
    and [name] do not take part in the bookkeeping and are left out.  The
    labels are converted before the checks run. *)
Definition __init__ (bonds0 : list Bond) (N_inbond0 : Z)
    (labels0 : option (list Z)) (torch_tensor : option Storage_t)
    (check isdiag isblock : bool) (BlockInfo : option BlockInfo_t)
    : result UniTensor :=
  lbls <- labels_array labels0 (length bonds0) ;;
  let bm_in := option_map (fun i => fst (fst i)) BlockInfo in
  let bm_out := option_map (fun i => snd (fst i)) BlockInfo in
  let bq := option_map (fun i => snd i) BlockInfo in
  _ <- (if check then init_checks bonds0 N_inbond0 lbls isdiag isblock
        else Ok tt) ;;
  match torch_tensor with
  | Some st =>
      Ok (mkUniTensor bonds0 N_inbond0 lbls isdiag isblock st bm_in bm_out bq)
  | None =>
      if isdiag then
        b0 <- Py.index bonds0 0 ;;
        Ok (mkUniTensor bonds0 N_inbond0 lbls isdiag isblock
                        (Dense (zeros [dim b0])) bm_in bm_out bq)
      else if isblock then
        (* sort for each bonds qnums *)
        sorted <- mapM sort_qnums bonds0 ;;
        (* Get common qnums for in and out bond *)
        tq <- total_qnums sorted N_inbond0 ;;
        let b_tqin := fst tq in
        let b_tqout := snd tq in
        let C := _fx_GetCommRows (GetUniqueQnums b_tqin) (GetUniqueQnums b_tqout) in
        _ <- guard (length (concat C) =? 0) InitNoValidBlock ;;
        (* Create block *)
        qin <- opt_err (qnums b_tqin) AttributeError ;;
        qout <- opt_err (qnums b_tqout) AttributeError ;;
        let idx_in := map (Np.where_rows qin) C in
        let idx_out := map (Np.where_rows qout) C in
        Ok (mkUniTensor sorted N_inbond0 lbls isdiag isblock
              (BlockList (map (fun c => zeros [length (Np.where_rows qin c);
                                               length (Np.where_rows qout c)]) C))
              (Some idx_in) (Some idx_out) (Some C))
      else
        Ok (mkUniTensor bonds0 N_inbond0 lbls isdiag isblock
                        (Dense (zeros (map dim bonds0))) bm_in bm_out bq)
  end.

(** *** Equality *)

(** [Bond.__eq__] lives in [Bond.py]; the comparison of two bonds is a
    parameter of [UniTensor.__eq__]. *)
Variable Bond_eq : Bond -> Bond -> bool.

(** a Python value compared with a tensor *)
Inductive PyObject : Type :=
  | PyUniTensor (u : UniTensor)
  | PyOther.

(** [all(l[i] == r[i] for i in range(len(l)))]: stops at the first
    difference; running past the end of [r] is an [IndexError] *)
Fixpoint all_eq {A} (eqb : A -> A -> bool) (l r : list A) : result bool :=
  match l with
  | [] => Ok true
  | x :: l' =>
      match r with
      | [] => Err IndexError
      | y :: r' => if eqb x y then all_eq eqb l' r' else Ok false
      end
  end.

(** [UniTensor.__eq__] *)
Definition __eq__ (self : UniTensor) (rhs : PyObject) : result bool :=
  match rhs with
  | PyUniTensor rhs =>
      if negb (Bool.eqb (is_diag self) (is_diag rhs)
               && Bool.eqb (is_blockform self) (is_blockform rhs))
      then Ok false
      else
        s1 <- storage_shape (Storage self) ;;
        s2 <- storage_shape (Storage rhs) ;;
        if negb (shape_eqb s1 s2 && (length (bonds self) =? length (bonds rhs)))
        then Ok false
        else
          bs <- all_eq Bond_eq (bonds self) (bonds rhs) ;;
          if bs then all_eq Z.eqb (labels self) (labels rhs) else Ok false
  | PyOther => Err EqInvalid
  end.

(** *** Block access *)

(** Methods that assign to attributes of [self] run in a state-and-error
    monad over the tensor: the tensor returned is [self] as the call leaves
    it, whether it returns or raises. *)
Definition M (A : Type) : Type := UniTensor -> UniTensor * result A.

Definition mret {A} (a : A) : M A := fun s => (s, Ok a).
Definition mraise {A} (e : error) : M A := fun s => (s, Err e).
Definition mbind {A B} (m : M A) (k : A -> M B) : M B :=
  fun s => match m s with
           | (s', Ok a) => k a s'
           | (s', Err e) => (s', Err e)
           end.
Definition mlift {A} (r : result A) : M A := fun s => (s, r).
Definition mget : M UniTensor := fun s => (s, Ok s).
Definition mput (s' : UniTensor) : M unit := fun _ => (s', Ok tt).

Notation "x <~ e ;; k" := (mbind e (fun x => k))
  (at level 61, e at next level, right associativity) : py_scope.

(** what a caller may pass as [block] *)
Inductive BlockArg : Type :=
  | Ndarray (t : Tensor)       (* a numpy array *)
  | TorchTensor (t : Tensor)   (* a torch tensor *)
  | PyList                     (* a Python list *)
  | UniT (u : UniTensor)       (* a UniTensor *)
  | OtherObj.                  (* anything else *)

(** The search [for s in range(len(self.Storage)): if np.array(qnum) ==
    self._BlockQnums[s]: ...] of the block-form paths, from index [s] over [n]
    more blocks: the index of the first block whose test is true. *)
Fixpoint find_block (qnum : list Z) (bq : list (list Z)) (s n : nat)
    : result (option nat) :=
  match n with
  | 0 => Ok None
  | S n' =>
      row <- opt_err (nth_error bq s) IndexError ;;
      b <- Np.truth (Np.array_eq qnum row) ;;
      if b then Ok (Some s) else find_block qnum bq (S s) n'
  end.

(** The row (column) indices of a sector in a combined bond:
    [i = np.argwhere(cb.qnums[:,0]==qnum[0]).flatten()], then, for each further
    channel [n], [i = np.intersect1d(i, np.argwhere(cb.qnums[:,n]==qnum[n])
    .flatten())]. *)
Definition sector_index (cb : Bond) (qnum : list Z) (ns : nat)
    : result (list nat) :=
  q <- opt_err (qnums cb) AttributeError ;;
  _ <- guard (Np.ncols q =? 0) IndexError ;;
  q0 <- opt_err (nth_error qnum 0) IndexError ;;
  fold_left (fun acc n =>
               i <- acc ;;
               _ <- guard (negb (n <? Np.ncols q)) IndexError ;;
               qn <- opt_err (nth_error qnum n) IndexError ;;
               Ok (Np.intersect1d_idx i (Np.argwhere_col q n qn)))
            (seq 1 (ns - 1))
            (Ok (Np.argwhere_col q 0 q0)).

(** the block written into slot [s] of a block-form tensor *)
Definition put_block_at (blocks : list Tensor) (s : nat) (block : BlockArg)
    : result (list Tensor) :=
  old <- opt_err (nth_error blocks s) IndexError ;;
  match block with
  | Ndarray b =>
      _ <- guard (negb (shape_eqb (shape b) (shape old))) PutBlockSizeMismatch ;;
      Ok (list_set blocks s b)
  | PyList =>
      (* [self.Storage.__class__] is [list]: the test succeeds and
         [block.shape] is looked up on a list *)
      Err AttributeError
  | UniT u =>
      _ <- guard (is_blockform u) PutBlockSparseBlock ;;
      us <- storage_shape (Storage u) ;;
      _ <- guard (negb (shape_eqb (shape old) us)) PutBlockSizeMismatch ;;
      match Storage u with
      | Dense t => Ok (list_set blocks s t)
      | BlockList _ => Err AttributeError
      end
  | TorchTensor _ | OtherObj => Err PutBlockBadType
  end.

(** the value assigned by the dense path, by type of [block] *)
Definition dense_block_value (block : BlockArg) : result Tensor :=
  match block with
  | Ndarray b | TorchTensor b => Ok b
  | UniT u =>
      _ <- guard (is_blockform u) PutBlockSparseBlock ;;
      match Storage u with
      | Dense t => Ok t
      | BlockList _ => Err AttributeError
      end
  | PyList | OtherObj => Err PutBlockBadType
  end.

(** [UniTensor.PutBlock] *)
Definition PutBlock (block : BlockArg) (qnum : list Z) : M unit :=
  self <~ mget ;;
  b0 <~ mlift (Py.index (bonds self) 0) ;;
  if is_none (qnums b0) then mraise PutBlockNonSym
  else
    _ <~ mlift (guard (negb (length qnum =? nsym b0)) PutBlockQnumLen) ;;
    _ <~ mlift (guard (is_diag self) PutBlockDiag) ;;
    if is_blockform self then
      (* search if the tn has block of that qnums *)
      match Storage self with
      | BlockList blocks =>
          bq <~ mlift (opt_err (_BlockQnums self) AttributeError) ;;
          found <~ mlift (find_block qnum bq 0 (length blocks)) ;;
          match found with
          | Some s =>
              blocks' <~ mlift (put_block_at blocks s block) ;;
              mput (set_Storage self (BlockList blocks'))
          | None => mraise PutBlockNoBlock
          end
      | Dense _ => mraise AttributeError
      end
    else
      _ <~ mlift (guard ((N_inbond self =? 0)%Z
                         || (N_inbond self =? len (bonds self))%Z)
                        PutBlockNoInOut) ;;
      (* virtual_cb-in *)
      let cb_inbonds := combined_in (bonds self) (N_inbond self) b0 in
      i_in <~ mlift (sector_index cb_inbonds qnum (nsym b0)) ;;
      _ <~ mlift (guard (length i_in =? 0) PutBlockNoSectorIn) ;;
      (* virtual_cb_out *)
      cb_outbonds <~ mlift (combined_out (bonds self) (N_inbond self)) ;;
      i_out <~ mlift (sector_index cb_outbonds qnum (nsym b0)) ;;
      _ <~ mlift (guard (length i_out =? 0) PutBlockNoSectorOut) ;;
      match Storage self with
      | Dense t =>
          let ori_shape := shape t in
          t2 <~ mlift (reshape_rows t (Np.prod (Py.slice_to ori_shape (N_inbond self)))) ;;
          _ <~ mput (set_Storage self (Dense t2)) ;;
          v <~ mlift (dense_block_value block) ;;
          t3 <~ mlift (ix_put t2 i_in i_out v) ;;
          _ <~ mput (set_Storage self (Dense t3)) ;;
          t4 <~ mlift (reshape t3 ori_shape) ;;
          mput (set_Storage self (Dense t4))
      | BlockList _ => mraise AttributeError
      end.

(** the rank-2 tensor returned by [GetBlock]:
    [UniTensor(bonds=[Bond(dim=out.shape[0]),Bond(dim=out.shape[1])],
    N_inbond=1, labels=[1,2], torch_tensor=out, check=False)] *)
Definition block_tensor (out : Tensor) : result UniTensor :=
  d0 <- opt_err (nth_error (shape out) 0) IndexError ;;
  d1 <- opt_err (nth_error (shape out) 1) IndexError ;;
  __init__ [Bond_new d0; Bond_new d1] 1 (Some [1; 2]%Z) (Some (Dense out))
           false false false None.

(** [UniTensor.GetBlock] *)
Definition GetBlock (self : UniTensor) (qnum : list Z) : result UniTensor :=
  _ <- guard (is_diag self) GetBlockDiag ;;
  b0 <- Py.index (bonds self) 0 ;;
  if is_none (qnums b0) then
    (* a non-symmetry TN is returned as it is, whatever [qnum] *)
    Ok self
  else
    _ <- guard (negb (length qnum =? nsym b0)) GetBlockQnumLen ;;
    if is_blockform self then
      match Storage self with
      | BlockList blocks =>
          bq <- opt_err (_BlockQnums self) AttributeError ;;
          found <- find_block qnum bq 0 (length blocks) ;;
          match found with
          | Some s =>
              blk <- opt_err (nth_error blocks s) IndexError ;;
              block_tensor blk
          | None => Err GetBlockNoBlock
          end
      | Dense _ => Err AttributeError
      end
    else
      _ <- guard ((N_inbond self =? 0)%Z
                  || (N_inbond self =? len (bonds self))%Z) GetBlockNoInOut ;;
      let cb_inbonds := combined_in (bonds self) (N_inbond self) b0 in
      i_in <- sector_index cb_inbonds qnum (nsym b0) ;;
      _ <- guard (length i_in =? 0) GetBlockNoSectorIn ;;
      cb_outbonds <- combined_out (bonds self) (N_inbond self) ;;
      i_out <- sector_index cb_outbonds qnum (nsym b0) ;;
      _ <- guard (length i_out =? 0) GetBlockNoSectorOut ;;
      ori_shape <- storage_shape (Storage self) ;;
      match Storage self with
      | Dense t =>
          t2 <- reshape_rows t (Np.prod (Py.slice_to ori_shape (N_inbond self))) ;;
          out <- ix_get t2 i_in i_out ;;
          block_tensor out
      | BlockList _ => Err AttributeError
      end.

(** *** Contraction *)

(** the operand handed to [torch.tensordot]: a diagonal tensor is expanded
    with [torch.diag] *)
Definition as_dense (u : UniTensor) : result Tensor :=
  match Storage u with
  | Dense t => if is_diag u then diag t else Ok t
  | BlockList _ => Err AttributeError
  end.

(** The test on the contracted bonds of two symmetric tensors:
    [if not a.bonds[a_ind[i]].qnums.all() == b.bonds[b_ind[i]].qnums.all():
    raise ValueError]. *)
Fixpoint check_contracted (ba bb : list Bond) (a_ind b_ind : list nat)
    : result unit :=
  match a_ind, b_ind with
  | i :: a_ind', j :: b_ind' =>
      x <- opt_err (nth_error ba i) IndexError ;;
      qa <- opt_err (qnums x) AttributeError ;;
      y <- opt_err (nth_error bb j) IndexError ;;
      qb <- opt_err (qnums y) AttributeError ;;
      _ <- guard (negb (Bool.eqb (Np.all_nonzero qa) (Np.all_nonzero qb)))
                 ContractQnumMismatch ;;
      check_contracted ba bb a_ind' b_ind'
  | _, _ => Ok tt
  end.

(** [t.permute] along [mapper], refused by torch unless [mapper] names every
    axis of [t] *)
Definition permute_checked (t : Tensor) (mapper : list nat) : result Tensor :=
  _ <- guard (negb (length (shape t) =? length mapper)) TorchRuntimeError ;;
  Ok (permute t mapper).

(** [[x >= n for x in idx]] *)
Definition out_side (n : Z) (idx : list nat) : list bool :=
  map (fun x => (n <=? Z.of_nat x)%Z) idx.

(** [Contract(a, b)] for two UniTensors *)
Definition Contract (a b : UniTensor) : result UniTensor :=
  _ <- guard (is_blockform a || is_blockform b) SystemExit ;;
  (* get same vector *)
  let '(same, a_ind, b_ind) := Np.intersect1d (labels a) (labels b) in
  if negb (length same =? 0) then
    a0 <- Py.index (bonds a) 0 ;;
    b0 <- Py.index (bonds b) 0 ;;
    _ <- guard (xorb (negb (is_none (qnums a0))) (negb (is_none (qnums b0))))
               ContractSymMix ;;
    _ <- (if negb (is_none (qnums a0))
          then check_contracted (bonds a) (bonds b) a_ind b_ind
          else Ok tt) ;;
    let aind_no_combine := Np.setdiff1d_arange (length (labels a)) a_ind in
    let bind_no_combine := Np.setdiff1d_arange (length (labels b)) b_ind in
    tmpa <- as_dense a ;;
    tmpb <- as_dense b ;;
    tmp <- tensordot tmpa tmpb a_ind b_ind ;;
    bda <- Py.take (bonds a) aind_no_combine ;;
    bdb <- Py.take (bonds b) bind_no_combine ;;
    let new_bonds := bda ++ bdb in
    let new_io := out_side (N_inbond a) aind_no_combine
                  ++ out_side (N_inbond b) bind_no_combine in
    la <- Py.take (labels a) aind_no_combine ;;
    lb <- Py.take (labels b) bind_no_combine ;;
    let new_labels := la ++ lb in
    let Nin := len (filter negb new_io) in
    if 0 <? length new_bonds then
      let mapper := Np.argsort new_io in
      new_bonds' <- Py.take new_bonds mapper ;;
      new_labels' <- Py.take new_labels mapper ;;
      tmp' <- permute_checked tmp mapper ;;
      __init__ new_bonds' Nin (Some new_labels') (Some (Dense tmp'))
               false false false None
    else
      __init__ new_bonds Nin (Some new_labels) (Some (Dense tmp))
               false false false None
  else
    (* direct product *)
    tmpa <- as_dense a ;;
    tmpb <- as_dense b ;;
    let tmp := outer tmpa tmpb in
    let new_bonds := bonds a ++ bonds b in
    let new_labels := labels a ++ labels b in
    let new_io := out_side (N_inbond a) (seq 0 (length (bonds a)))
                  ++ out_side (N_inbond b) (seq 0 (length (bonds b))) in
    if 0 <? length new_bonds then
      let mapper := Np.argsort new_io in
      new_bonds' <- Py.take new_bonds mapper ;;
      new_labels' <- Py.take new_labels mapper ;;
      tmp' <- permute_checked tmp mapper ;;
      __init__ new_bonds' (N_inbond a + N_inbond b) (Some new_labels')
               (Some (Dense tmp')) false false false None
    else
      __init__ new_bonds (N_inbond a + N_inbond b) (Some new_labels)
               (Some (Dense tmp)) false false false None.

(** *** Combining bonds *)

Definition set_labels (u : UniTensor) (l : list Z) : UniTensor :=
  mkUniTensor (bonds u) (N_inbond u) l (is_diag u) (is_blockform u) (Storage u)
              (_BlockMapper_in u) (_BlockMapper_out u) (_BlockQnums u).

Definition set_bonds (u : UniTensor) (bs : list Bond) : UniTensor :=
  mkUniTensor bs (N_inbond u) (labels u) (is_diag u) (is_blockform u) (Storage u)
              (_BlockMapper_in u) (_BlockMapper_out u) (_BlockQnums u).

Definition set_N_inbond (u : UniTensor) (n : Z) : UniTensor :=
  mkUniTensor (bonds u) n (labels u) (is_diag u) (is_blockform u) (Storage u)
              (_BlockMapper_in u) (_BlockMapper_out u) (_BlockQnums u).

(** [int(b)] of a Python bool *)
Definition int_of_bool (b : bool) : Z := if b then 1%Z else 0%Z.

(** The bonds of a tensor are Python objects, and one object may sit at
    several positions of [self.bonds]: the constructor's [deepcopy] keeps the
    sharing of the list it is given, as in [[Bond(2)]*3].  [objs] names the
    object at each position, and two positions hold the same object when
    they carry the same name. *)
Definition same_object (objs : list nat) (i j : nat) : bool :=
  (i =? j) || match nth_error objs i, nth_error objs j with
              | Some p, Some q => p =? q
              | _, _ => false
              end.

(** an update in place of the object at position [x]: every position that
    holds this object shows the new value *)
Definition store_object (objs : list nat) (bs : list Bond) (x : nat)
    (v : Bond) : list Bond :=
  map (fun p => if same_object objs (fst p) x then v else snd p)
      (combine (seq 0 (length bs)) bs).

(** [a.bonds[x0].combine(a.bonds[x])]: [Bond.combine] changes its object in
    place *)
Definition combine_at (objs : list nat) (bs : list Bond) (x0 x : nat)
    : result (list Bond) :=
  bx0 <- opt_err (nth_error bs x0) IndexError ;;
  bx <- opt_err (nth_error bs x) IndexError ;;
  Ok (store_object objs bs x0 (combine2 bx0 bx)).

(** [_CombineBonds(a, label, is_inbond, new_label)], for the bond objects
    [objs] of [a] *)
Definition _CombineBonds (objs : list nat) (label : list Z)
    (is_inbond : option bool) (new_label : option Z) : M unit :=
  a <~ mget ;;
  _ <~ mlift (guard (is_diag a) CombineDiag) ;;
  _ <~ mlift (guard (is_blockform a) SystemExit) ;;
  _ <~ mlift (guard (length (labels a) <? length label) CombineTooMany) ;;
  (* checking *)
  let '(same_lbls, x_ind, y_ind) := Np.intersect1d (labels a) label in
  _ <~ mlift (guard (negb (length same_lbls =? length label)) CombineNoLabel) ;;
  let idx_no_combine := Np.setdiff1d_arange (length (labels a)) x_ind in
  old_shape <~ mlift (storage_shape (Storage a)) ;;
  cdims <~ mlift (Py.take old_shape x_ind) ;;
  let combined_dim := Np.prod cdims in
  no_combine_dims <~ mlift (Py.take old_shape idx_no_combine) ;;
  kept_labels <~ mlift (Py.take (labels a) idx_no_combine) ;;
  _ <~ match new_label with
       | Some newlbl =>
           rest <~ mlift (Py.take (labels a) (tl x_ind)) ;;
           _ <~ mlift (guard (Py.memZ newlbl kept_labels || Py.memZ newlbl rest)
                             CombineDupLabel) ;;
           x0 <~ mlift (opt_err (nth_error x_ind 0) IndexError) ;;
           (* a store into the array of 64-bit labels *)
           _ <~ mlift (guard (negb (Np.fits_int64 newlbl)) OverflowError) ;;
           mput (set_labels a (list_set (labels a) x0 newlbl))
       | None => mret tt
       end ;;
  a <~ mget ;;
  x0 <~ mlift (opt_err (nth_error x_ind 0) IndexError) ;;
  (* the bond at [x_ind[0]] absorbs the others in place, in the order of
     [x_ind] *)
  bs <~ mlift (fold_left (fun acc x => bs <- acc ;; combine_at objs bs x0 x)
                         (tl x_ind) (Ok (bonds a))) ;;
  let new_Nin :=
    fold_left (fun n x => (n - int_of_bool (Z.of_nat x <? N_inbond a))%Z)
              (tl x_ind) (N_inbond a) in
  _ <~ mput (set_bonds a bs) ;;
  merged <~ mlift (opt_err (nth_error bs x0) IndexError) ;;
  kept_bonds <~ mlift (Py.take bs idx_no_combine) ;;
  lx0 <~ mlift (opt_err (nth_error (labels a) x0) IndexError) ;;
  t <~ mlift (match Storage a with
              | Dense t => Ok t
              | BlockList _ => Err AttributeError
              end) ;;
  let front (n : Z) : M unit :=
    (* the merged bond goes first *)
    t' <~ mlift (permute_checked t (x_ind ++ idx_no_combine)) ;;
    t'' <~ mlift (reshape t' (combined_dim :: no_combine_dims)) ;;
    mput (mkUniTensor (merged :: kept_bonds) n (lx0 :: kept_labels)
                      (is_diag a) (is_blockform a) (Dense t'')
                      (_BlockMapper_in a) (_BlockMapper_out a) (_BlockQnums a)) in
  let back (n : Z) : M unit :=
    (* the merged bond goes last *)
    t' <~ mlift (permute_checked t (idx_no_combine ++ x_ind)) ;;
    t'' <~ mlift (reshape t' (no_combine_dims ++ [combined_dim])) ;;
    mput (mkUniTensor (kept_bonds ++ [merged]) n (kept_labels ++ [lx0])
                      (is_diag a) (is_blockform a) (Dense t'')
                      (_BlockMapper_in a) (_BlockMapper_out a) (_BlockQnums a)) in
  (* check if the combined bond will be in-bond or out-bond *)
  if (N_inbond a <=? Z.of_nat x0)%Z then
    match is_inbond with
    | Some true => front (new_Nin + 1)%Z
    | _ => back new_Nin
    end
  else
    match is_inbond with
    | Some false => back (new_Nin - 1)%Z
    | _ => front new_Nin
    end.

(** [UniTensor.CombineBonds], for the bond objects [objs] of [self] *)
Definition CombineBonds (objs : list nat) (labels_to_combine : list Z)
    (is_inbond : option bool) (new_label : option Z) : M unit :=
  self <~ mget ;;
  _ <~ mlift (guard (length labels_to_combine <? 2) CombineTooFew) ;;
  _ <~ mlift (guard (is_blockform self) SystemExit) ;;
  _CombineBonds objs labels_to_combine is_inbond new_label.

End Tor10.

Arguments PyList {R}.
Arguments OtherObj {R}.
Arguments PyOther {R}.

(** ** Further methods of UniTensor

    Label and element setters, [Todense], [Permute], [Reshape], [shape] and
    [From_torch]. *)

Notation "x <~ e ;; k" := (mbind e (fun x => k))
  (at level 61, e at next level, right associativity) : py_scope.

(** The [raise] sites of these methods; [Raised] carries an error of the
    interpreter, of a library or of the constructor. *)
Inductive method_error : Type :=
  (* UniTensor.SetLabel *)
  | SetLabelIndex | SetLabelExists
  (* UniTensor.SetLabels *)
  | SetLabelsLength | SetLabelsDuplicate
  (* UniTensor.SetElem *)
  | SetElemCount | SetElemSymmetric
  (* UniTensor.Permute *)
  | PermuteDiag | PermuteBadLabel
  (* UniTensor.Reshape *)
  | ReshapeDiag | ReshapeSymmetric
  (* From_torch *)
  | FromTorchNinbond
  | Raised (e : error).

Inductive outcome (A : Type) : Type :=
  | Done (a : A)
  | Failed (e : method_error).
Arguments Done {A} a.
Arguments Failed {A} e.


(** [a[i] = x] on a NumPy array, with negative subscripts counted from the
    end *)
Definition py_set {A} (l : list A) (i : Z) (x : A) : result (list A) :=
  let n := Z.of_nat (length l) in
  if ((0 <=? i) && (i <? n))%Z then Ok (list_set l (Z.to_nat i) x)
  else if ((- n <=? i) && (i <? 0))%Z then Ok (list_set l (Z.to_nat (i + n)) x)
  else Err IndexError.


(** an axis number of an array of rank [n], negative ones counted from the
    end *)
Definition wrap (n : nat) (i : Z) : option nat :=
  if ((0 <=? i) && (i <? Z.of_nat n))%Z then Some (Z.to_nat i)
  else if ((- Z.of_nat n <=? i) && (i <? 0))%Z
       then Some (Z.to_nat (i + Z.of_nat n))
       else None.

Fixpoint wrap_all (n : nat) (l : list Z) : option (list nat) :=
  match l with
  | [] => Some []
  | i :: l' =>
      match wrap n i, wrap_all n l' with
      | Some k, Some ks => Some (k :: ks)
      | _, _ => None
      end
  end.

Fixpoint nodupb (l : list nat) : bool :=
  match l with
  | [] => true
  | x :: l' => negb (Py.memN x l') && nodupb l'
  end.

(** [dict(zip(labels, np.arange(len(labels))))[x]]: a later entry of [zip]
    replaces an earlier one with the same key, so the index is that of the
    last occurrence (0 stands for a missing key, which the callers exclude) *)
Fixpoint last_index (x : Z) (l : list Z) : nat :=
  match l with
  | [] => 0
  | y :: l' => if Py.memZ x l' then S (last_index x l')
               else 0
  end.

(** *** Strides

    A torch tensor reads its storage through strides, which [Tensor] (a shape
    and the elements in row-major order) does not record.  [t.view(shape)]
    looks at them: the new shape must fit over the old strides without moving
    an element.  The methods that call [view] take the strides of
    [self.Storage] beside the tensor and return those they leave. *)

(** the strides of a contiguous tensor *)
Fixpoint contiguous_strides (sh : list nat) : list nat :=
  match sh with
  | [] => []
  | _ :: sh' => Np.prod (map (Nat.max 1) sh') :: contiguous_strides sh'
  end.

(** the strides of [t.permute(dims)] *)
Definition permuted_strides (st : list nat) (dims : list nat) : list nat :=
  map (fun k => nth k st 0) dims.

(** The extents of the new shape, last one first, that are laid over one
    stretch of the old axes with [tensor_numel] elements and innermost stride
    [base]: extents are taken while fewer than [tensor_numel] elements are
    covered, and extents 1 after that.  Each one taken gets its stride. *)
Fixpoint view_chunk (tensor_numel base view_numel : nat) (vrev acc : list nat)
    : nat * list nat * list nat :=
  match vrev with
  | d :: vrev' =>
      if (view_numel <? tensor_numel) || (d =? 1)
      then view_chunk tensor_numel base (view_numel * d) vrev'
                      (view_numel * base :: acc)
      else (view_numel, vrev, acc)
  | [] => (view_numel, [], acc)
  end.

(** The walk over the old axes, last one first, as pairs of extent and
    stride.  A stretch of axes ends at the first axis, or where the next axis
    (of extent other than 1) does not continue the strides of the stretch;
    the new extents laid over it must cover exactly its elements. *)
Fixpoint view_loop (old_rev : list (nat * nat))
    (tensor_numel base view_numel : nat) (vrev acc : list nat)
    : option (list nat) :=
  match old_rev with
  | [] => match vrev with
          | [] => Some acc
          | _ :: _ => None
          end
  | (sz, _) :: rest =>
      let tensor_numel := tensor_numel * sz in
      let chunk_end :=
        match rest with
        | [] => true
        | (psz, pst) :: _ =>
            negb (psz =? 1) && negb (pst =? tensor_numel * base)
        end in
      if chunk_end then
        let '(vn, vrev', acc') :=
          view_chunk tensor_numel base view_numel vrev acc in
        if negb (vn =? tensor_numel) then None
        else match rest with
             | [] => view_loop rest tensor_numel base vn vrev' acc'
             | (_, pst) :: _ => view_loop rest 1 pst 1 vrev' acc'
             end
      else view_loop rest tensor_numel base view_numel vrev acc
  end.

(** The strides torch gives to a view of shape [newshape] of a tensor of
    shape [oldshape] and strides [oldstride], both shapes with as many
    elements; [None] when the shape cannot be laid over the strides. *)
Definition view_strides (oldshape oldstride newshape : list nat)
    : option (list nat) :=
  match oldshape with
  | [] => Some (repeat 1 (length newshape))
  | _ :: _ =>
      if Np.prod oldshape =? 0 then
        if list_eq_dec Nat.eq_dec oldshape newshape then Some oldstride
        else Some (contiguous_strides newshape)
      else view_loop (rev (combine oldshape oldstride)) 1 (last oldstride 0) 1
                     (rev newshape) []
  end.

Section Methods.

Variable R : Type.
Variable zero : R.

(** [t.view(sh)] for explicit extents [sh], on a tensor with strides [st]: the
    number of elements must be kept, and the strides must allow the view *)
Definition view (t : Tensor R) (st sh : list nat)
    : result (Tensor R * list nat) :=
  t' <- reshape t sh ;;
  st' <- opt_err (view_strides (shape t) st sh) TorchRuntimeError ;;
  Ok (t', st').

(** [UniTensor.SetLabel(newLabel, idx)], both arguments integers.  The store
    [self.labels[idx] = newLabel] goes into the array of 64-bit integers the
    constructor built: NumPy locates the element first and then refuses a
    value outside their range. *)
Definition SetLabel (newLabel idx : Z) (self : UniTensor R)
    : UniTensor R * outcome unit :=
  if negb (idx <? len (labels self))%Z then (self, Failed SetLabelIndex)
  else if Py.memZ newLabel (labels self) then (self, Failed SetLabelExists)
  else match py_set (labels self) idx newLabel with
       | Ok l =>
           if Np.fits_int64 newLabel then (set_labels self l, Done tt)
           else (self, Failed (Raised OverflowError))
       | Err e => (self, Failed (Raised e))
       end.


(** [UniTensor.SetElem(elem)] for a flat list or 1-D array [elem] *)
Definition SetElem (elem : list R) (self : UniTensor R)
    : UniTensor R * outcome unit :=
  match Storage self with
  | BlockList _ => (self, Failed (Raised AttributeError))
  | Dense t =>
      if negb (length elem =? Np.prod (shape t))
      then (self, Failed SetElemCount)
      else match Py.index (bonds self) 0 with
           | Err e => (self, Failed (Raised e))
           | Ok b0 =>
               if negb (is_none (qnums b0))
               then (self, Failed SetElemSymmetric)
               else (set_Storage self (Dense (mkTensor (shape t) elem)), Done tt)
           end
  end.

(** [UniTensor.Todense()] *)
Definition Todense (self : UniTensor R) : UniTensor R * outcome unit :=
  if is_diag self then
    match Storage self with
    | Dense t =>
        match diag zero t with
        | Ok t' =>
            (mkUniTensor (bonds self) (N_inbond self) (labels self) false
                         (is_blockform self) (Dense t')
                         (_BlockMapper_in self) (_BlockMapper_out self)
                         (_BlockQnums self),
             Done tt)
        | Err e => (self, Failed (Raised e))
        end
    | BlockList _ => (self, Failed (Raised AttributeError))
    end
  else if is_blockform self then (self, Failed (Raised SystemExit))
  else (self, Done tt).

(** [UniTensor.shape()] *)
Definition UniTensor_shape (self : UniTensor R) : result (list nat) :=
  if is_diag self then
    b0 <- Py.index (bonds self) 0 ;;
    Ok [dim b0; dim b0]
  else if is_blockform self then Ok (map dim (bonds self))
  else storage_shape (Storage self).

(** [t.permute(dims)]: torch wants every axis of [t] named exactly once *)
Definition permute_dims (t : Tensor R) (dims : list Z) : result (Tensor R) :=
  match wrap_all (length (shape t)) dims with
  | Some m =>
      if (length m =? length (shape t)) && nodupb m
      then Ok (permute zero t m)
      else Err TorchRuntimeError
  | None => Err IndexError
  end.

(** [UniTensor.Permute(mapper, N_inbond, by_label)] for a list [mapper].  The
    storage, the labels and the bonds are assigned in this order, and
    [N_inbond] is stored as given. *)
Definition Permute (mapper : list Z) (Nin : Z) (by_label : bool)
    (self : UniTensor R) : UniTensor R * outcome unit :=
  if is_diag self then (self, Failed PermuteDiag)
  else if is_blockform self then (self, Failed (Raised SystemExit))
  else if by_label then
    (* check all label *)
    if negb (forallb (fun lbl => Py.memZ lbl (labels self)) mapper)
    then (self, Failed PermuteBadLabel)
    else
      let new_mapper := map (fun x => last_index x (labels self)) mapper in
      match Storage self with
      | BlockList _ => (self, Failed (Raised AttributeError))
      | Dense t =>
          match permute_dims t (map Z.of_nat new_mapper) with
          | Err e => (self, Failed (Raised e))
          | Ok t' =>
              let s1 := set_labels (set_Storage self (Dense t')) mapper in
              match Py.take (bonds self) new_mapper with
              | Err e => (s1, Failed (Raised e))
              | Ok bs => (set_N_inbond (set_bonds s1 bs) Nin, Done tt)
              end
          end
      end
  else
    match Storage self with
    | BlockList _ => (self, Failed (Raised AttributeError))
    | Dense t =>
        match permute_dims t mapper with
        | Err e => (self, Failed (Raised e))
        | Ok t' =>
            let s1 := set_Storage self (Dense t') in
            match mapM (Py.index (labels self)) mapper with
            | Err e => (s1, Failed (Raised e))
            | Ok ls =>
                let s2 := set_labels s1 ls in
                match mapM (Py.index (bonds self)) mapper with
                | Err e => (s2, Failed (Raised e))
                | Ok bs => (set_N_inbond (set_bonds s2 bs) Nin, Done tt)
                end
            end
        end
    end.

(** [UniTensor.Reshape(dimer, N_inbond, new_labels)] for a list [dimer] of
    explicit extents, on a tensor whose storage has the strides [st]:
    [self.Storage.view(dimer)] raises where the strides do not allow the
    view, as on the storage [Permute] leaves.  The result is the tensor and
    the strides of its storage as the call leaves them. *)
Definition Reshape (dimer : list nat) (Nin : Z) (new_labels : option (list Z))
    (self : UniTensor R) (st : list nat)
    : (UniTensor R * list nat) * outcome unit :=
  if is_diag self then ((self, st), Failed ReshapeDiag)
  else
    match Py.index (bonds self) 0 with
    | Err e => ((self, st), Failed (Raised e))
    | Ok b0 =>
        if negb (is_none (qnums b0))
        then ((self, st), Failed ReshapeSymmetric)
        else
          match Storage self with
          | BlockList _ => ((self, st), Failed (Raised AttributeError))
          | Dense t =>
              match view t st dimer with
              | Err e => ((self, st), Failed (Raised e))
              | Ok (t', st') =>
                  ((mkUniTensor (map Bond_new dimer) Nin
                                (labels_or_arange new_labels (length dimer))
                                (is_diag self) (is_blockform self) (Dense t')
                                (_BlockMapper_in self) (_BlockMapper_out self)
                                (_BlockQnums self),
                    st'),
                   Done tt)
              end
          end
    end.


End Methods.

(** ** Concrete tensors

    Tensors with integer entries used to run the operations. *)

Module Examples.

Open Scope Z_scope.

Definition UT : Type := UniTensor Z.

(** the symmetric bonds of the [GetBlock] docstring *)
Definition bd_sym_1 : Bond := mkBond 3 (Some [[0]; [1]; [2]]).
Definition bd_sym_2 : Bond := mkBond 4 (Some [[-1]; [2]; [0]; [2]]).
Definition bd_sym_3 : Bond := mkBond 5 (Some [[4]; [2]; [-1]; [5]; [1]]).

(** a two-state bond with two symmetry channels *)
Definition bd_two : Bond := mkBond 2 (Some [[1; 1]; [0; 0]]).

(** the block-form matrix over [bd_two] x [bd_two], as built by the
    constructor: sectors [(1,1)] and [(0,0)], one 1x1 block each *)
Definition two_channel : UT :=
  mkUniTensor [bd_two; bd_two] 1 [0; 1] false true
    (BlockList [mkTensor [1%nat; 1%nat] [0]; mkTensor [1%nat; 1%nat] [0]])
    (Some [[0%nat]; [1%nat]]) (Some [[0%nat]; [1%nat]])
    (Some [[1; 1]; [0; 0]]).

(** a two-state bond with one symmetry channel *)
Definition bd_one : Bond := mkBond 2 (Some [[1]; [0]]).

(** the single-channel block-form matrix over [bd_one] x [bd_one] *)
Definition one_channel : UT :=
  mkUniTensor [bd_one; bd_one] 1 [0; 1] false true
    (BlockList [mkTensor [1%nat; 1%nat] [0]; mkTensor [1%nat; 1%nat] [0]])
    (Some [[0%nat]; [1%nat]]) (Some [[0%nat]; [1%nat]])
    (Some [[1]; [0]]).

(** a 1x1 block *)
Definition X11 : Tensor Z := mkTensor [1%nat; 1%nat] [7].

(** [one_channel] with 7 stored in its first block *)
Definition one_channel_7 : UT :=
  mkUniTensor [bd_one; bd_one] 1 [0; 1] false true
    (BlockList [X11; mkTensor [1%nat; 1%nat] [0]])
    (Some [[0%nat]; [1%nat]]) (Some [[0%nat]; [1%nat]])
    (Some [[1]; [0]]).

(** symmetric operands sharing label 1 whose bonds under that label carry
    different quantum numbers *)
Definition bd_12 : Bond := mkBond 2 (Some [[1]; [2]]).
Definition bd_34 : Bond := mkBond 2 (Some [[3]; [4]]).
Definition sym_A : UT :=
  mkUniTensor [bd_12; bd_12] 1 [0; 1] false false
    (Dense (mkTensor [2%nat; 2%nat] [1; 2; 3; 4])) None None None.
Definition sym_B : UT :=
  mkUniTensor [bd_34; bd_34] 1 [1; 2] false false
    (Dense (mkTensor [2%nat; 2%nat] [5; 6; 7; 8])) None None None.

(** a non-symmetric rank-3 tensor of shape (2,3,5) with labels 3, 4, 5 and
    one in-bond *)
Definition plain_345 : UT :=
  mkUniTensor [Bond_new 2; Bond_new 3; Bond_new 5] 1 [3; 4; 5] false false
    (Dense (zeros 0 [2%nat; 3%nat; 5%nat])) None None None.

(** a symmetric dense rank-3 tensor of shape (2,2,2) with two in-bonds *)
Definition sym_222 : UT :=
  mkUniTensor [bd_one; bd_one; bd_one] 2 [0; 1; 2] false false
    (Dense (zeros 0 [2%nat; 2%nat; 2%nat])) None None None.

(** a symmetric diagonal 2x2 tensor *)
Definition sym_diag : UT :=
  mkUniTensor [bd_one; bd_one] 1 [0; 1] true false
    (Dense (zeros 0 [2%nat])) None None None.

(** two non-symmetric vectors with different labels: [u] is an in-bond,
    [v] an out-bond *)
Definition vec_u : UT :=
  mkUniTensor [Bond_new 2] 1 [7] false false
    (Dense (mkTensor [2%nat] [1; 2])) None None None.
Definition vec_v : UT :=
  mkUniTensor [Bond_new 2] 0 [8] false false
    (Dense (mkTensor [2%nat] [3; 4])) None None None.

(** [sym_A] with other numbers stored *)
Definition sym_A' : UT :=
  mkUniTensor [bd_12; bd_12] 1 [0; 1] false false
    (Dense (mkTensor [2%nat; 2%nat] [9; 9; 9; 9])) None None None.

(** a comparison of bonds: same dimension and same quantum numbers *)
Definition bond_eqb (x y : Bond) : bool :=
  (dim x =? dim y)%nat
  && match qnums x, qnums y with
     | None, None => true
     | Some qx, Some qy => if list_eq_dec Zlist_eq_dec qx qy then true else false
     | _, _ => false
     end.

End Examples.

(** more tensors with integer entries *)
Module Samples.

Import Examples.
Open Scope Z_scope.

(** a dense tensor with quantum numbers of shape (2,2,2) with two in-bonds,
    holding 1 to 8 *)
Definition sym_count : UT :=
  mkUniTensor [bd_one; bd_one; bd_one] 2 [0; 1; 2] false false
    (Dense (mkTensor [2%nat; 2%nat; 2%nat] [1; 2; 3; 4; 5; 6; 7; 8]))
    None None None.

(** its combined in-bond and out-bond *)
Definition cb_in_22 : Bond := mkBond 4 (Some [[2]; [1]; [1]; [0]]).
Definition cb_out_2 : Bond := bd_one.

(** a 2x1 block *)
Definition X21 : Tensor Z := mkTensor [2%nat; 1%nat] [50; 60].

(** a diagonal 2x2 tensor without quantum numbers *)
Definition plain_diag : UT :=
  mkUniTensor [Bond_new 2; Bond_new 2] 1 [0; 1] true false
    (Dense (mkTensor [2%nat] [3; 4])) None None None.

(** a matrix without quantum numbers of shape (2,3) with labels 10 and 20 *)
Definition plain_23 : UT :=
  mkUniTensor [Bond_new 2; Bond_new 3] 1 [10; 20] false false
    (Dense (mkTensor [2%nat; 3%nat] [1; 2; 3; 4; 5; 6])) None None None.

(** a two-state bond whose quantum numbers are given in ascending order *)
Definition bd_up : Bond := mkBond 2 (Some [[0]; [1]]).

(** the block-form tensor the constructor builds over three such bonds with
    two in-bonds: the bonds are sorted, and the sectors 1 and 0 have a 2x1
    and a 1x1 block *)
Definition three_leg : UT :=
  mkUniTensor [bd_one; bd_one; bd_one] 2 [0; 1; 2] false true
    (BlockList [mkTensor [2%nat; 1%nat] [0; 0]; mkTensor [1%nat; 1%nat] [0]])
    (Some [[1%nat; 2%nat]; [3%nat]]) (Some [[0%nat]; [1%nat]])
    (Some [[1]; [0]]).

(** a tensor with 16 bonds of dimension 1, the first 8 of them in-bonds,
    labelled 0 to 15, holding the number 5 *)
Definition wide_16 : UT :=
  mkUniTensor (repeat (Bond_new 1) 16) 8 (map Z.of_nat (seq 0 16)) false false
    (Dense (mkTensor (repeat 1%nat 16) [5])) None None None.

(** a vector on an out-bond with label 100 *)
Definition vec_w : UT :=
  mkUniTensor [Bond_new 2] 0 [100] false false
    (Dense (mkTensor [2%nat] [3; 4])) None None None.

(** a tensor of shape (2,2,2) holding 1 to 8, as built from [[Bond(2)]*3]:
    its three bonds are one object *)
Definition cube_222 : UT :=
  mkUniTensor [Bond_new 2; Bond_new 2; Bond_new 2] 1 [0; 1; 2] false false
    (Dense (mkTensor [2%nat; 2%nat; 2%nat] [1; 2; 3; 4; 5; 6; 7; 8]))
    None None None.

End Samples.

(** ** Predicates used in the statements *)

Section Predicates.

Context {R : Type} (zero : R).

(** the per-sector data the constructor derives from the combined bonds *)
Definition sector_ok (qin qout : list (list Z)) (q : list Z)
    (rows cols : list nat) (blk : Tensor R) : Prop :=
  NoDup rows /\ NoDup cols /\
  (forall r, In r rows <-> nth_error qin r = Some q) /\
  (forall c, In c cols <-> nth_error qout c = Some q) /\
  blk = zeros zero [length rows; length cols].


(** what [==] can see of a tensor: the flags, the shape of the storage (when
    it has one), the bonds and the labels, but not the stored numbers *)
Definition metadata (u : UniTensor R)
    : bool * bool * result (list nat) * list Bond * list Z :=
  (is_diag u, is_blockform u, storage_shape (Storage u), bonds u, labels u).

(** the representation invariant of a tensor that is not in block form: one
    label per bond, [N_inbond] within the rank, and a contiguous storage whose
    shape is the dimensions of the bonds (for a diagonal tensor, the vector of
    the diagonal of a square matrix) *)
Definition well_formed (u : UniTensor R) : Prop :=
  is_blockform u = false /\
  length (labels u) = length (bonds u) /\
  (0 <= N_inbond u <= len (bonds u))%Z /\
  exists t, Storage u = Dense t /\
            length (data t) = Np.prod (shape t) /\
            if is_diag u
            then exists d, shape t = [d] /\ map dim (bonds u) = [d; d]
            else shape t = map dim (bonds u).

(** the labels of a tensor are values of its array of 64-bit integers *)
Definition int64_labels (u : UniTensor R) : Prop :=
  Forall (fun l => Np.fits_int64 l = true) (labels u).

(** the axes of two operands with the in-side of each first: the first [na]
    entries of [la], the first [nb] of [lb], then the rest of [la] and the
    rest of [lb] *)
Definition in_out_merge {A} (na nb : nat) (la lb : list A) : list A :=
  firstn na la ++ firstn nb lb ++ skipn na la ++ skipn nb lb.

End Predicates.

(** *** Orders on quantum-number vectors *)

(** lexicographic order on quantum-number vectors, first channel first *)
Fixpoint lex_le (x y : list Z) : bool :=
  match x, y with
  | [], _ => true
  | _ :: _, [] => false
  | a :: x', b :: y' => (a <? b)%Z || ((a =? b)%Z && lex_le x' y')
  end.

(** order of two indices by an integer key, ties broken by [Rel] *)
Definition by_key_then (key : nat -> Z) (Rel : nat -> nat -> Prop)
    (i j : nat) : Prop :=
  (key i < key j)%Z \/ (key i = key j /\ Rel i j).

(** order of two rows of a table by their channels from [c] on *)
Definition suffix_le (q : list (list Z)) (c : nat) (i j : nat) : Prop :=
  lex_le (skipn c (nth i q [])) (skipn c (nth j q [])) = true.

(** a table of quantum numbers as NumPy holds it: at least one row and one
    column, all rows of the same width *)
Definition rectangular (q : list (list Z)) : Prop :=
  q <> [] /\ 0 < Np.ncols q /\ Forall (fun r => length r = Np.ncols q) q.

(** a bond whose quantum numbers, if any, form a NumPy table: all rows have
    the same width *)
Definition table_bond (b : Bond) : Prop :=
  forall q, qnums b = Some q -> Forall (fun r => length r = Np.ncols q) q.

(** a table whose rows stand in descending lexicographic order, first channel
    first *)
Definition descending (q : list (list Z)) : Prop :=
  StronglySorted (fun x y => lex_le y x = true) q.

(** the order in which the normalisation lists the rows of a table: the
    indices sorted on each column in turn, the last column first, then
    reversed *)
Definition descending_order (q : list (list Z)) : list nat :=
  rev (fold_right
         (fun col perm => Np.sort_by Z.ltb (fun i => nth i col 0%Z) perm)
         (seq 0 (length q)) (map (Np.column q) (seq 0 (Np.ncols q)))).


(** *** Heaps and partitions of the index sort *)

Section SortPredicates.

Context {K : Type} (ltb : K -> K -> bool) (key : nat -> K).

(** the indices of a list stand in the order of their keys *)
Definition key_sorted (a : list nat) : Prop :=
  StronglySorted (fun i j => ltb (key j) (key i) = false) a.

(** entry [j] of a heap, counted from 1, is a child of entry [p] *)
Definition heap_child (p j : nat) : Prop := j = 2 * p \/ j = 2 * p + 1.

(** among the first [n] entries, every entry from the [l]-th on has a key
    that is not smaller than the keys of its children *)
Definition heap_from (l n : nat) (a : list nat) : Prop :=
  forall p j, l <= p -> heap_child p j -> j <= n ->
    ltb (Np.key_at key a (p - 1)) (Np.key_at key a (j - 1)) = false.

(** the same but for entry [i], which is being sifted down: its children are
    compared with its parent instead *)
Definition heap_except (l n i : nat) (a : list nat) : Prop :=
  (forall p j, l <= p -> p <> i -> heap_child p j -> j <= n ->
     ltb (Np.key_at key a (p - 1)) (Np.key_at key a (j - 1)) = false) /\
  (forall p j, l <= p -> heap_child p i -> heap_child i j -> j <= n ->
     ltb (Np.key_at key a (p - 1)) (Np.key_at key a (j - 1)) = false).

(** the keys before position [pi] are not larger than [vp], the keys from
    [pi] on are not smaller *)
Definition split_around (vp : K) (pi : nat) (a : list nat) : Prop :=
  (forall p, p < pi -> ltb vp (Np.key_at key a p) = false) /\
  (forall p, pi <= p < length a -> ltb (Np.key_at key a p) vp = false).

End SortPredicates.

(** *** Dense tensors with quantum numbers *)

(** a bond that carries one vector of [n] quantum numbers for each of its
    [dim] basis states *)
Definition sym_bond (n : nat) (b : Bond) : Prop :=
  0 < dim b /\
  exists q, qnums b = Some q /\ length q = dim b /\
            Forall (fun r => length r = n) q.

(** a well-formed dense tensor whose bonds all carry [n >= 1] channels of
    quantum numbers, with at least one in-bond and one out-bond *)
Definition symmetric_dense {R} (n : nat) (T : UniTensor R) : Prop :=
  well_formed T /\ is_diag T = false /\ 0 < n /\
  Forall (sym_bond n) (bonds T) /\
  (0 < N_inbond T < len (bonds T))%Z.

(** the matrix view of the stored tensor [t] of such a tensor: the combined
    in-bond [cin], with the table [qin] of its quantum numbers, indexes the
    rows, and the combined out-bond [cout], with [qout], the columns *)
Definition matrix_view {R} (n : nat) (T : UniTensor R) (t : Tensor R)
    (b0 cin cout : Bond) (qin qout : list (list Z)) : Prop :=
  0 < n /\ is_blockform T = false /\ is_diag T = false /\
  Storage T = Dense t /\ length (data t) = Np.prod (shape t) /\
  (0 < N_inbond T < len (bonds T))%Z /\
  length (shape t) = length (bonds T) /\
  Py.index (bonds T) 0 = Ok b0 /\ is_none (qnums b0) = false /\
  nsym b0 = n /\
  combined_in (bonds T) (N_inbond T) b0 = cin /\
  combined_out (bonds T) (N_inbond T) = Ok cout /\
  qnums cin = Some qin /\ qnums cout = Some qout /\
  sym_bond n cin /\ sym_bond n cout /\
  length qin = Np.prod (firstn (Z.to_nat (N_inbond T)) (shape t)) /\
  length qout = Np.prod (skipn (Z.to_nat (N_inbond T)) (shape t)).

(** *** What [CombineBonds] keeps and what it merges *)

(** the labels of [T] that are not in [lbls], in their order *)
Definition kept_labels_of {R} (lbls : list Z) (T : UniTensor R) : list Z :=
  filter (fun l => negb (Py.memZ l lbls)) (labels T).

(** the bonds of [T] whose labels are not in [lbls], in their order *)
Definition kept_bonds_of {R} (lbls : list Z) (T : UniTensor R) : list Bond :=
  map snd (filter (fun p => negb (Py.memZ (fst p) lbls))
                  (combine (labels T) (bonds T))).

(** the bonds of [T] whose labels are in [lbls] *)
Definition merged_bonds_of {R} (lbls : list Z) (T : UniTensor R) : list Bond :=
  map snd (filter (fun p => Py.memZ (fst p) lbls)
                  (combine (labels T) (bonds T))).

(** the number of in-bonds of [T] whose labels are not in [lbls] *)
Definition kept_inbonds_of {R} (lbls : list Z) (T : UniTensor R) : Z :=
  Z.of_nat (length (filter (fun l => negb (Py.memZ l lbls))
                           (firstn (Z.to_nat (N_inbond T)) (labels T)))).

(** *** Block-form tensors with one channel *)

(** a block-form tensor over bonds with a single channel of quantum numbers:
    [blocks] are its stored matrices and [bq] the quantum number of each *)
Definition blockform_single {R} (T : UniTensor R) (blocks : list (Tensor R))
    (bq : list (list Z)) : Prop :=
  is_diag T = false /\ is_blockform T = true /\
  (exists b0 r q0, bonds T = b0 :: r /\ qnums b0 = Some q0 /\ Np.ncols q0 = 1) /\
  Storage T = BlockList blocks /\ _BlockQnums T = Some bq /\
  length bq = length blocks /\
  Forall (fun row => length row = 1) bq /\
  Forall (fun blk => length (shape blk) = 2) blocks.

(** * Properties *)

(** ** The error monad *)

Lemma bind_Ok_inv {A B} (r : result A) (k : A -> result B) (b : B) :
  bind r k = Ok b -> exists a, r = Ok a /\ k a = Ok b.
Proof.
  destruct r as [a|e]; simpl; intros H.
  - exists a; auto.
  - discriminate.
Qed.

Lemma guard_Ok_inv (c : bool) (e : error) (u : unit) :
  guard c e = Ok u -> c = false.
Proof. destruct c; simpl; intros H; [discriminate | reflexivity]. Qed.

Lemma opt_err_Ok_inv {A} (o : option A) (e : error) (a : A) :
  opt_err o e = Ok a -> o = Some a.
Proof. destruct o; simpl; intros H; [congruence | discriminate]. Qed.

(** peel the successful prefix of a chain of binds *)
Ltac inv_bind H :=
  match type of H with
  | bind (guard _ _) _ = Ok _ =>
      let u := fresh "u" in
      let Hg := fresh "Hg" in
      apply bind_Ok_inv in H; destruct H as (u & Hg & H);
      apply guard_Ok_inv in Hg; inv_bind H
  | bind (opt_err _ _) _ = Ok _ =>
      let x := fresh "x" in
      let Ho := fresh "Ho" in
      apply bind_Ok_inv in H; destruct H as (x & Ho & H);
      apply opt_err_Ok_inv in Ho; inv_bind H
  | bind _ _ = Ok _ =>
      let x := fresh "x" in
      let Hb := fresh "Hb" in
      apply bind_Ok_inv in H; destruct H as (x & Hb & H);
      inv_bind Hb; inv_bind H
  | _ => idtac
  end.

(** ** Lists and indices *)

Lemma row_all_eq_iff (r q : list Z) : Np.row_all_eq r q = true <-> r = q.
Proof.
  revert q; induction r as [|x r IH]; intros [|y q]; simpl;
    try (split; [discriminate | discriminate]); try tauto.
  rewrite andb_true_iff, Z.eqb_eq, IH.
  split; [intros [-> ->]; reflexivity | intros H; inversion H; auto].
Qed.

Lemma nth_nth_error {A} (l : list A) (i : nat) (d x : A) :
  nth_error l i = Some x -> nth i l d = x.
Proof.
  revert i; induction l as [|y l IH]; intros [|i]; simpl; try discriminate.
  - congruence.
  - auto.
Qed.

Lemma where_rows_In (rows : list (list Z)) (q : list Z) (r : nat) :
  In r (Np.where_rows rows q) <-> nth_error rows r = Some q.
Proof.
  unfold Np.where_rows. rewrite filter_In, in_seq, row_all_eq_iff.
  split.
  - intros [[_ Hlt] Hq]. simpl in Hlt.
    destruct (nth_error rows r) as [x|] eqn:E.
    + rewrite (nth_nth_error _ _ _ E) in Hq. congruence.
    + apply nth_error_None in E. lia.
  - intros E. split.
    + split; [lia|]. simpl. apply nth_error_Some. congruence.
    + apply nth_nth_error; assumption.
Qed.

Lemma where_rows_NoDup (rows : list (list Z)) (q : list Z) :
  NoDup (Np.where_rows rows q).
Proof. apply NoDup_filter, seq_NoDup. Qed.

(** the index arrays are ascending *)
Lemma where_rows_sorted (rows : list (list Z)) (q : list Z) :
  StronglySorted lt (Np.where_rows rows q).
Proof.
  unfold Np.where_rows. generalize 0 as s.
  induction (length rows) as [|n IH]; intros s; simpl.
  - constructor.
  - destruct (Np.row_all_eq _ _).
    + constructor; [apply IH|].
      apply Forall_forall. intros x Hx.
      apply filter_In in Hx. destruct Hx as [Hx _].
      apply in_seq in Hx. lia.
    + apply IH.
Qed.

(** ** Sets of quantum-number vectors *)

Lemma GetUniqueQnums_In (b : Bond) (rows : list (list Z)) (q : list Z) :
  qnums b = Some rows -> (In q (GetUniqueQnums b) <-> In q rows).
Proof. unfold GetUniqueQnums. intros ->. apply nodup_In. Qed.

Lemma GetUniqueQnums_NoDup (b : Bond) : NoDup (GetUniqueQnums b).
Proof.
  unfold GetUniqueQnums. destruct (qnums b); [apply NoDup_nodup | constructor].
Qed.

Lemma CommRows_In (S T : list (list Z)) (q : list Z) :
  In q (_fx_GetCommRows S T) <-> In q S /\ In q T.
Proof.
  unfold _fx_GetCommRows. rewrite nodup_In, filter_In.
  destruct (in_dec Zlist_eq_dec q T); intuition discriminate.
Qed.

Lemma CommRows_NoDup (S T : list (list Z)) : NoDup (_fx_GetCommRows S T).
Proof. apply NoDup_nodup. Qed.

Lemma mapM_length {A B} (f : A -> result B) (l : list A) (l' : list B) :
  mapM f l = Ok l' -> length l' = length l.
Proof.
  revert l'; induction l as [|x l IH]; simpl; intros l' H.
  - inversion H; reflexivity.
  - inv_bind H. inversion H; subst. simpl. f_equal. eauto.
Qed.

Lemma mapM_Forall2 {A B} (f : A -> result B) (l : list A) (l' : list B) :
  mapM f l = Ok l' -> Forall2 (fun x y => f x = Ok y) l l'.
Proof.
  revert l'; induction l as [|x l IH]; simpl; intros l' H.
  - inversion H; constructor.
  - inv_bind H. inversion H; subst. constructor; auto.
Qed.

(** ** Block-form construction *)

Section BlockForm.

Context {R : Type} (zero : R).

Lemma init_checks_blockform bs Nin lbls isdiag :
  init_checks bs Nin lbls isdiag true = Ok tt ->
  isdiag = false /\ (1 <= Nin <= len bs - 1)%Z.
Proof.
  unfold init_checks. destruct isdiag; simpl; [discriminate|].
  intros H. inv_bind H. split; [reflexivity|].
  match goal with
  | Hx : ((Nin <? 1)%Z || _) = false |- _ =>
      apply orb_false_iff in Hx; destruct Hx as [H1 H2]
  end.
  apply Z.ltb_ge in H1, H2. lia.
Qed.

Lemma nth_error_map_Some {A B} (f : A -> B) (l : list A) (i : nat) (b : B) :
  nth_error (map f l) i = Some b <-> exists a, nth_error l i = Some a /\ b = f a.
Proof.
  rewrite nth_error_map. destruct (nth_error l i) as [a|]; simpl.
  - split; [intros H; inversion H; eauto | intros (a' & Ha & ->); congruence].
  - split; [discriminate | intros (a' & Ha & _); discriminate].
Qed.

Lemma labels_array_inv (labels0 : option (list Z)) (n : nat) (lbls : list Z) :
  labels_array labels0 n = Ok lbls ->
  lbls = labels_or_arange labels0 n /\
  forall l, labels0 = Some l -> Forall (fun x => Np.fits_int64 x = true) l.
Proof.
  unfold labels_array, labels_or_arange. destruct labels0 as [l|].
  - intros H. inv_bind H. inversion H; subst. split; [reflexivity|].
    intros l' E. inversion E; subst l'.
    apply negb_false_iff in Hg. apply Forall_forall.
    apply forallb_forall. exact Hg.
  - intros H. inversion H; subst. split; [reflexivity | discriminate].
Qed.

Lemma labels_array_ok (labels0 : option (list Z)) (n : nat) :
  (forall l, labels0 = Some l -> Forall (fun x => Np.fits_int64 x = true) l) ->
  labels_array labels0 n = Ok (labels_or_arange labels0 n).
Proof.
  unfold labels_array, labels_or_arange. destruct labels0 as [l|];
    [|reflexivity].
  intros H. specialize (H l eq_refl).
  replace (forallb Np.fits_int64 l) with true; [reflexivity|].
  symmetry. apply forallb_forall. apply Forall_forall. exact H.
Qed.

(** what a successful block-form construction went through *)
Lemma init_blockform_inv bonds0 Nin labels0 check isdiag BlockInfo
    (T : UniTensor R) :
  __init__ zero bonds0 Nin labels0 None check isdiag true BlockInfo = Ok T ->
  check = true \/ isdiag = false ->
  exists sorted cb_in cb_out qin qout,
    isdiag = false /\
    (check = true -> (1 <= Nin <= len bonds0 - 1)%Z) /\
    mapM sort_qnums bonds0 = Ok sorted /\
    total_qnums sorted Nin = Ok (cb_in, cb_out) /\
    qnums cb_in = Some qin /\ qnums cb_out = Some qout /\
    _fx_GetCommRows (GetUniqueQnums cb_in) (GetUniqueQnums cb_out) <> [] /\
    T = mkUniTensor sorted Nin (labels_or_arange labels0 (length bonds0))
          false true
          (BlockList
             (map (fun c => zeros zero [length (Np.where_rows qin c);
                                        length (Np.where_rows qout c)])
                  (_fx_GetCommRows (GetUniqueQnums cb_in)
                                   (GetUniqueQnums cb_out))))
          (Some (map (Np.where_rows qin)
                     (_fx_GetCommRows (GetUniqueQnums cb_in)
                                      (GetUniqueQnums cb_out))))
          (Some (map (Np.where_rows qout)
                     (_fx_GetCommRows (GetUniqueQnums cb_in)
                                      (GetUniqueQnums cb_out))))
          (Some (_fx_GetCommRows (GetUniqueQnums cb_in)
                                 (GetUniqueQnums cb_out))).
Proof.
  intros H Hflags.
  unfold __init__ in H.
  apply bind_Ok_inv in H. destruct H as (lbls & Hl & H).
  apply labels_array_inv in Hl. destruct Hl as [-> _].
  apply bind_Ok_inv in H. destruct H as ([] & Hchk & H).
  assert (Hd : isdiag = false).
  { destruct Hflags as [-> | ->]; [|reflexivity].
    apply init_checks_blockform in Hchk. tauto. }
  assert (HN : check = true -> (1 <= Nin <= len bonds0 - 1)%Z).
  { intros ->. apply init_checks_blockform in Hchk. tauto. }
  subst isdiag. simpl in H. inv_bind H.
  destruct x0 as [cb_in cb_out]. simpl in *.
  inversion H; subst T; clear H.
  exists x, cb_in, cb_out, x1, x2.
  repeat match goal with |- _ /\ _ => split end;
    try reflexivity; try assumption.
  intros E. rewrite E in Hg. simpl in Hg. discriminate.
Qed.

(** C8. When the combined in-bond and out-bond of the sorted bonds share no
    quantum-number vector, block-form construction raises and yields no
    tensor; once the labels have been converted and the argument checks have
    passed (or are switched off) the error is the one for the missing common
    sector. *)
Theorem init_blockform_no_common_sector :
  forall bonds0 Nin labels0 check isdiag BlockInfo sorted cb_in cb_out,
    mapM sort_qnums bonds0 = Ok sorted ->
    total_qnums sorted Nin = Ok (cb_in, cb_out) ->
    _fx_GetCommRows (GetUniqueQnums cb_in) (GetUniqueQnums cb_out) = [] ->
    check = true \/ isdiag = false ->
    (exists e, @__init__ R zero bonds0 Nin labels0 None check isdiag true
                         BlockInfo = Err e) /\
    (forall lbls,
        labels_array labels0 (length bonds0) = Ok lbls ->
        (check = true -> init_checks bonds0 Nin lbls isdiag true = Ok tt) ->
        @__init__ R zero bonds0 Nin labels0 None check isdiag true BlockInfo
        = Err InitNoValidBlock).
Proof.
  intros bonds0 Nin labels0 check isdiag BlockInfo sorted cb_in cb_out
         Hs Ht HC Hflags.
  assert (Hrun : forall lbls,
                 labels_array labels0 (length bonds0) = Ok lbls ->
                 isdiag = false ->
                 (if check then init_checks bonds0 Nin lbls isdiag true
                  else Ok tt) = Ok tt ->
                 @__init__ R zero bonds0 Nin labels0 None check isdiag true
                           BlockInfo = Err InitNoValidBlock).
  { intros lbls Hl -> Hchk. unfold __init__. rewrite Hl. simpl.
    rewrite Hchk. simpl.
    rewrite Hs. simpl. rewrite Ht. simpl. rewrite HC. reflexivity. }
  split.
  - destruct (labels_array labels0 (length bonds0)) as [lbls|e0] eqn:El.
    2:{ exists e0. unfold __init__. rewrite El. reflexivity. }
    destruct check.
    + destruct (init_checks bonds0 Nin lbls isdiag true) as [[]|e] eqn:E.
      * exists InitNoValidBlock. apply (Hrun lbls eq_refl); [|assumption].
        apply init_checks_blockform in E. tauto.
      * exists e. unfold __init__. rewrite El. simpl. rewrite E. reflexivity.
    + exists InitNoValidBlock. apply (Hrun lbls eq_refl); [|reflexivity].
      destruct Hflags; [discriminate | assumption].
  - intros lbls Hl Hchk. destruct check.
    + specialize (Hchk eq_refl). apply (Hrun lbls Hl); [|exact Hchk].
      apply init_checks_blockform in Hchk. tauto.
    + apply (Hrun lbls Hl); [|reflexivity].
      destruct Hflags; [discriminate | assumption].
Qed.

End BlockForm.

(** ** Equality of tensors *)

Section Equality.

Context {R : Type}.
Variable Bond_eq : Bond -> Bond -> bool.

Lemma all_eq_Forall2 {A} (eqb : A -> A -> bool) (l r : list A) :
  Forall2 (fun x y => eqb x y = true) l r -> all_eq eqb l r = Ok true.
Proof.
  induction 1 as [|x y l r Hxy _ IH]; simpl.
  - reflexivity.
  - rewrite Hxy. exact IH.
Qed.

Lemma all_eq_refl {A} (eqb : A -> A -> bool) (l : list A) :
  (forall x, eqb x x = true) -> all_eq eqb l l = Ok true.
Proof.
  intros Hrefl. apply all_eq_Forall2.
  induction l; constructor; auto.
Qed.

Lemma shape_eqb_refl (s : list nat) : shape_eqb s s = true.
Proof. unfold shape_eqb. destruct (list_eq_dec Nat.eq_dec s s); congruence. Qed.

Lemma eq_metadata (a a' b b' : UniTensor R) :
  metadata a = metadata a' -> metadata b = metadata b' ->
  __eq__ Bond_eq a (PyUniTensor b) = __eq__ Bond_eq a' (PyUniTensor b').
Proof.
  unfold metadata. intros Ha Hb.
  inversion Ha as [[Ha1 Ha2 Ha3 Ha4 Ha5]].
  inversion Hb as [[Hb1 Hb2 Hb3 Hb4 Hb5]].
  unfold __eq__.
  rewrite Ha1, Ha2, Ha3, Ha4, Ha5, Hb1, Hb2, Hb3, Hb4, Hb5.
  reflexivity.
Qed.

(** Equality on tensors that are not in block form.  [a == b] is a function
    of the structural metadata alone: replacing both operands by tensors with
    the same flags, storage shape, bonds and labels, whatever numbers they
    store, leaves the outcome unchanged; when the operands agree on the
    flags, have a storage shape and agree on it, and agree bond by bond and
    label by label, the outcome is [True]; and comparing with a value that is
    not a UniTensor raises. *)
Theorem eq_structural :
  forall (a b a' b' : UniTensor R),
    metadata a' = metadata a -> metadata b' = metadata b ->
    __eq__ Bond_eq a' (PyUniTensor b') = __eq__ Bond_eq a (PyUniTensor b) /\
    (forall sh,
        is_diag a = is_diag b -> is_blockform a = is_blockform b ->
        storage_shape (Storage a) = Ok sh ->
        storage_shape (Storage b) = Ok sh ->
        Forall2 (fun x y => Bond_eq x y = true) (bonds a) (bonds b) ->
        labels a = labels b ->
        __eq__ Bond_eq a' (PyUniTensor b') = Ok true) /\
    __eq__ Bond_eq a' PyOther = Err EqInvalid.
Proof.
  intros a b a' b' Ha Hb.
  pose proof (eq_metadata Ha Hb) as Hsame.
  split; [exact Hsame|]. split; [|reflexivity].
  intros sh Hd Hf Hsa Hsb Hbonds Hlabels.
  rewrite Hsame. unfold __eq__.
  rewrite Hd, Hf, !eqb_reflx. simpl.
  rewrite Hsa, Hsb. simpl. rewrite shape_eqb_refl.
  rewrite (Forall2_length Hbonds), Nat.eqb_refl. simpl.
  rewrite (all_eq_Forall2 _ Hbonds). simpl.
  rewrite Hlabels. apply all_eq_refl. apply Z.eqb_refl.
Qed.

End Equality.

(** ** Block access on diagonal and non-symmetric tensors *)

Section BlockAccessGuards.

Context {R : Type} (zero : R).





End BlockAccessGuards.

(** ** Row-major indexing *)

Section Indexing.

Context {R : Type} (zero : R).

Lemma prod_app (s1 s2 : list nat) :
  Np.prod (s1 ++ s2) = Np.prod s1 * Np.prod s2.
Proof.
  induction s1 as [|d s1 IH]; simpl.
  - lia.
  - rewrite IH. lia.
Qed.

Lemma length_all_indices (sh : list nat) :
  length (all_indices sh) = Np.prod sh.
Proof.
  induction sh as [|d sh IH]; simpl; [reflexivity|].
  generalize 0 as s.
  induction d as [|d IHd]; intros s; simpl; [reflexivity|].
  rewrite length_app, length_map, IH, IHd. reflexivity.
Qed.

Lemma nth_flat_map_uniform {A B} (f : A -> list B) (l : list A) (m i j : nat)
    (da : A) (db : B) :
  (forall x, In x l -> length (f x) = m) ->
  i < length l -> j < m ->
  nth (i * m + j) (flat_map f l) db = nth j (f (nth i l da)) db.
Proof.
  revert i. induction l as [|x l IH]; intros i Hlen Hi Hj; simpl in *; [lia|].
  destruct i as [|i]; simpl.
  - apply app_nth1. rewrite Hlen; auto.
  - rewrite app_nth2; rewrite (Hlen x) by auto; [|lia].
    replace (m + i * m + j - m) with (i * m + j) by lia.
    apply IH; auto. lia.
Qed.

Lemma ravel_lt (sh idx : list nat) :
  Forall2 lt idx sh -> ravel sh idx < Np.prod sh.
Proof.
  induction 1 as [|i d idx sh Hi _ IH]; simpl; [lia|]. nia.
Qed.

Lemma ravel_app (s1 s2 i j : list nat) :
  length i = length s1 ->
  ravel (s1 ++ s2) (i ++ j) = ravel s1 i * Np.prod s2 + ravel s2 j.
Proof.
  revert i. induction s1 as [|d s1 IH]; intros [|x i] Hlen; simpl in *;
    try discriminate; [reflexivity|].
  rewrite IH by lia. rewrite prod_app. lia.
Qed.

Lemma nth_all_indices (sh idx : list nat) :
  Forall2 lt idx sh -> nth (ravel sh idx) (all_indices sh) [] = idx.
Proof.
  induction 1 as [|i d idx sh Hi Hrest IH]; simpl; [reflexivity|].
  rewrite (nth_flat_map_uniform (fun i => map (cons i) (all_indices sh))
             (seq 0 d) (m := Np.prod sh) 0).
  - rewrite seq_nth by assumption. simpl.
    change [] with (@nil nat) at 1.
    rewrite (nth_indep _ [] (i :: [])).
    + rewrite map_nth. rewrite IH. reflexivity.
    + rewrite length_map, length_all_indices. apply ravel_lt; assumption.
  - intros x _. rewrite length_map. apply length_all_indices.
  - rewrite length_seq. assumption.
  - apply ravel_lt; assumption.
Qed.

Lemma map_nth_seq {A} (l : list A) (d : A) :
  map (fun p => nth p l d) (seq 0 (length l)) = l.
Proof.
  induction l as [|x l IH]; simpl; [reflexivity|].
  f_equal. rewrite <- seq_shift, map_map. exact IH.
Qed.

Lemma index_of_Some (x : nat) (l : list nat) :
  In x l -> exists k, Py.index_of Nat.eqb x l = Some k /\ nth k l 0 = x /\
                      k < length l.
Proof.
  induction l as [|y l IH]; simpl; [tauto|].
  intros Hin. destruct (Nat.eqb_spec x y) as [->|Hne].
  - exists 0. repeat split; lia.
  - destruct Hin as [->|Hin]; [congruence|].
    destruct (IH Hin) as (k & -> & Hk & Hlt).
    exists (S k). repeat split; [assumption | lia].
Qed.

Lemma index_of_nth (l : list nat) (k : nat) :
  NoDup l -> k < length l -> Py.index_of Nat.eqb (nth k l 0) l = Some k.
Proof.
  revert k. induction l as [|y l IH]; intros k Hnd Hk; simpl in *; [lia|].
  inversion Hnd as [|? ? Hnotin Hnd']; subst.
  destruct k as [|k].
  - rewrite Nat.eqb_refl. reflexivity.
  - destruct (Nat.eqb_spec (nth k l 0) y) as [E|_].
    + exfalso. apply Hnotin. rewrite <- E. apply nth_In. lia.
    + rewrite IH by (auto; lia). reflexivity.
Qed.

Lemma index_of_None (x : nat) (l : list nat) :
  ~ In x l -> Py.index_of Nat.eqb x l = None.
Proof.
  induction l as [|y l IH]; simpl; [reflexivity|].
  intros Hnin. destruct (Nat.eqb_spec x y) as [->|_]; [tauto|].
  rewrite IH by tauto. reflexivity.
Qed.

(** reading the permuted tensor at the permuted index *)
Lemma unpermute_permuted (mapper idx : list nat) :
  Permutation mapper (seq 0 (length idx)) ->
  unpermute mapper (map (fun m => nth m idx 0) mapper) = idx.
Proof.
  intros Hperm. unfold unpermute.
  rewrite (Permutation_length Hperm), length_seq.
  rewrite <- (map_nth_seq idx 0) at 2.
  apply map_ext_in. intros p Hp.
  assert (Hin : In p mapper).
  { apply (Permutation_in p (Permutation_sym Hperm)). exact Hp. }
  destruct (index_of_Some _ _ Hin) as (k & -> & Hk & Hlt).
  rewrite (nth_indep _ 0 (nth 0 idx 0)) by (rewrite length_map; exact Hlt).
  rewrite (map_nth (fun m => nth m idx 0)). rewrite Hk. reflexivity.
Qed.

Lemma Forall2_nth_lt (idx sh : list nat) (m : nat) :
  Forall2 lt idx sh -> m < length sh -> nth m idx 0 < nth m sh 0.
Proof.
  intros H. revert m. induction H as [|i d idx sh Hi _ IH]; intros m Hm;
    simpl in *; [lia|].
  destruct m; [assumption|]. apply IH. lia.
Qed.

Lemma get_permute (t : Tensor R) (mapper idx : list nat) :
  Permutation mapper (seq 0 (length (shape t))) ->
  Forall2 lt idx (shape t) ->
  get zero (permute zero t mapper) (map (fun m => nth m idx 0) mapper)
  = get zero t idx.
Proof.
  intros Hperm Hvalid.
  assert (Hlen : length idx = length (shape t)) by (eapply Forall2_length; eauto).
  assert (Hv' : Forall2 lt (map (fun m => nth m idx 0) mapper)
                           (map (fun m => nth m (shape t) 0) mapper)).
  { clear Hlen. assert (Hb : forall m, In m mapper -> m < length (shape t)).
    { intros m Hm. apply (Permutation_in m Hperm) in Hm.
      apply in_seq in Hm. lia. }
    clear Hperm. induction mapper as [|m mapper IH]; simpl; constructor.
    - apply Forall2_nth_lt; auto. apply Hb; left; reflexivity.
    - apply IH. intros; apply Hb; right; assumption. }
  unfold get at 1, permute. simpl.
  set (f := fun idx' => get zero t (unpermute mapper idx')).
  rewrite (nth_indep _ zero (f [])).
  - rewrite map_nth. rewrite nth_all_indices by exact Hv'.
    unfold f. rewrite unpermute_permuted; [reflexivity|].
    rewrite Hlen. exact Hperm.
  - rewrite length_map, length_all_indices. apply ravel_lt. exact Hv'.
Qed.

Lemma get_outer (mul : R -> R -> R) (a b : Tensor R) (i j : list nat) :
  length (data a) = Np.prod (shape a) ->
  length (data b) = Np.prod (shape b) ->
  Forall2 lt i (shape a) -> Forall2 lt j (shape b) ->
  get zero (outer mul a b) (i ++ j) = mul (get zero a i) (get zero b j).
Proof.
  intros Ha Hb Hi Hj. unfold get, outer. simpl.
  rewrite ravel_app by (eapply Forall2_length; eauto).
  pose proof (ravel_lt Hi) as Hri. pose proof (ravel_lt Hj) as Hrj.
  rewrite <- Hb.
  rewrite (nth_flat_map_uniform (fun x => map (mul x) (data b)) (data a)
             (m := length (data b)) zero).
  - rewrite (nth_indep _ zero (mul (nth (ravel (shape a) i) (data a) zero) zero)).
    + rewrite map_nth. reflexivity.
    + rewrite length_map. lia.
  - intros x _. apply length_map.
  - lia.
  - lia.
Qed.

End Indexing.

(** ** Sorting indices *)

Section Sorting.

Context {K : Type} (ltb : K -> K -> bool) (key : nat -> K).

Lemma insert_by_perm (i : nat) (l : list nat) :
  Permutation (Np.insert_by ltb key i l) (i :: l).
Proof.
  induction l as [|j l IH]; simpl; [reflexivity|].
  destruct (ltb (key j) (key i)); [|reflexivity].
  rewrite IH. apply perm_swap.
Qed.

Lemma sort_by_perm (l : list nat) : Permutation (Np.sort_by ltb key l) l.
Proof.
  induction l as [|i l IH]; simpl; [reflexivity|].
  rewrite insert_by_perm. constructor. exact IH.
Qed.

End Sorting.

(** *** The default sort of [np.argsort] rearranges *)

Lemma list_set_perm {A} (l : list A) (k : nat) (x y : A) :
  nth_error l k = Some y -> Permutation (x :: l) (y :: list_set l k x).
Proof.
  revert k. induction l as [|h l IH]; intros [|k]; simpl; try discriminate.
  - intros H. inversion H; subst. apply perm_swap.
  - intros H. rewrite perm_swap. rewrite (IH _ H).
    apply perm_swap.
Qed.

Section IntrosortPerm.

Context {K : Type} (ltb : K -> K -> bool) (key : nat -> K).

Lemma swap_perm (a : list nat) (i j : nat) :
  Permutation (Np.swap a i j) a.
Proof.
  unfold Np.swap. revert i j.
  induction a as [|h a IH]; intros i j.
  - destruct i, j; reflexivity.
  - destruct i as [|i], j as [|j]; simpl.
    + reflexivity.
    + destruct (nth_error a j) as [y|] eqn:E; [|reflexivity].
      simpl. symmetry. apply list_set_perm. assumption.
    + destruct (nth_error a i) as [x|] eqn:E; [|reflexivity].
      simpl. symmetry. apply list_set_perm. assumption.
    + specialize (IH i j).
      destruct (nth_error a i) as [x|]; [|reflexivity].
      destruct (nth_error a j) as [y|]; [|reflexivity].
      simpl. constructor. exact IH.
Qed.

Lemma swap_length (a : list nat) (i j : nat) :
  length (Np.swap a i j) = length a.
Proof. apply Permutation_length, swap_perm. Qed.

Lemma insert_back_perm (x : nat) (r : list nat) :
  Permutation (Np.insert_back ltb key x r) (x :: r).
Proof.
  induction r as [|y r IH]; simpl; [reflexivity|].
  destruct (ltb (key x) (key y)); [|reflexivity].
  rewrite IH. apply perm_swap.
Qed.

Lemma insertion_sort_perm (seg : list nat) :
  Permutation (Np.insertion_sort ltb key seg) seg.
Proof.
  unfold Np.insertion_sort. rewrite <- Permutation_rev.
  assert (H : forall r,
             Permutation (fold_left (fun r x => Np.insert_back ltb key x r) seg r)
                         (seg ++ r)).
  { induction seg as [|x seg IH]; intros r; simpl; [reflexivity|].
    rewrite IH, insert_back_perm. symmetry. apply Permutation_middle. }
  rewrite H. rewrite app_nil_r. reflexivity.
Qed.

Lemma exchange_perm (fuel : nat) (a : list nat) (vp : K) (pi pj : nat) :
  Permutation (fst (Np.exchange ltb key fuel a vp pi pj)) a.
Proof.
  revert a pi pj. induction fuel as [|f IH]; intros a pi pj; simpl;
    [reflexivity|].
  destruct (_ <=? _); [reflexivity|].
  rewrite IH. apply swap_perm.
Qed.

Lemma partition_perm (a : list nat) :
  Permutation (fst (Np.partition ltb key a)) a.
Proof.
  unfold Np.partition.
  set (pr := length a - 1). set (pm := Nat.div2 pr).
  set (a1 := if ltb (Np.key_at key a pm) (Np.key_at key a 0)
             then Np.swap a pm 0 else a).
  set (a2 := if ltb (Np.key_at key a1 pr) (Np.key_at key a1 pm)
             then Np.swap a1 pr pm else a1).
  set (a3 := if ltb (Np.key_at key a2 pm) (Np.key_at key a2 0)
             then Np.swap a2 pm 0 else a2).
  set (a4 := Np.swap a3 pm (pr - 1)).
  assert (Hc : forall (c : bool) x i j,
             Permutation (if c then Np.swap x i j else x) x)
    by (intros [|] x i j; [apply swap_perm | reflexivity]).
  assert (H1 : Permutation a1 a) by apply Hc.
  assert (H2 : Permutation a2 a1) by apply Hc.
  assert (H3 : Permutation a3 a2) by apply Hc.
  assert (H4 : Permutation a4 a3) by apply swap_perm.
  pose proof (exchange_perm (length a4) a4 (Np.key_at key a3 pm) 0 (pr - 1))
    as H5.
  destruct (Np.exchange _ _ _ _ _ _ _) as [a5 pi]. simpl in *.
  rewrite swap_perm, H5, H4, H3, H2, H1. reflexivity.
Qed.

Lemma sift_perm (fuel : nat) (a : list nat) (i n : nat) :
  Permutation (Np.sift ltb key fuel a i n) a.
Proof.
  revert a i. induction fuel as [|f IH]; intros a i; simpl; [reflexivity|].
  destruct (n <? _); [reflexivity|].
  destruct (ltb (Np.key_at key a (i - 1)) _); [|reflexivity].
  rewrite IH. apply swap_perm.
Qed.

Lemma heapify_perm (l : nat) (a : list nat) (n : nat) :
  Permutation (Np.heapify ltb key l a n) a.
Proof.
  revert a. induction l as [|l IH]; intros a; simpl; [reflexivity|].
  rewrite IH. apply sift_perm.
Qed.

Lemma extract_perm (n : nat) (a : list nat) :
  Permutation (Np.extract ltb key n a) a.
Proof.
  revert a. induction n as [|n IH]; intros a; simpl; [reflexivity|].
  destruct (n =? 0); [reflexivity|].
  rewrite IH, sift_perm. apply swap_perm.
Qed.

Lemma heapsort_perm (seg : list nat) :
  Permutation (Np.heapsort ltb key seg) seg.
Proof.
  unfold Np.heapsort. rewrite extract_perm. apply heapify_perm.
Qed.

Lemma introsort_perm (fuel : nat) (popped : bool) (cdepth : Z)
    (seg : list nat) :
  Permutation (Np.introsort ltb key fuel popped cdepth seg) seg.
Proof.
  revert popped cdepth seg.
  induction fuel as [|f IH]; intros popped cdepth seg;
    cbn [Np.introsort]; [reflexivity|].
  destruct (popped && (cdepth <? 0)%Z); [apply heapsort_perm|].
  destruct (15 <? length seg - 1); [|apply insertion_sort_perm].
  pose proof (partition_perm seg) as Hp.
  destruct (Np.partition ltb key seg) as [a pi]. cbn [fst] in Hp.
  rewrite <- Hp.
  assert (Ha : firstn pi a ++ firstn 1 (skipn pi a) ++ skipn (S pi) a = a).
  { replace (skipn (S pi) a) with (skipn 1 (skipn pi a))
      by (rewrite skipn_skipn; reflexivity).
    rewrite (firstn_skipn 1 (skipn pi a)). apply firstn_skipn. }
  destruct (_ <? _); rewrite !IH; rewrite Ha; reflexivity.
Qed.

End IntrosortPerm.

Lemma argsort_perm (keys : list bool) :
  Permutation (Np.argsort keys) (seq 0 (length keys)).
Proof. apply introsort_perm. Qed.

(** *** Up to 16 flags the sort is stable *)

(** on boolean keys the insertion sort is the stable partition: the indices
    whose key is false in their order, then those whose key is true *)
Lemma insertion_sort_bool (key : nat -> bool) (l : list nat) :
  Np.insertion_sort Np.bool_lt key l
  = filter (fun i => negb (key i)) l ++ filter key l.
Proof.
  unfold Np.insertion_sort.
  assert (Hins : forall x F T,
             Forall (fun j => key j = true) T ->
             Forall (fun j => key j = false) F ->
             Np.insert_back Np.bool_lt key x (T ++ F)
             = if key x then x :: T ++ F else T ++ x :: F).
  { intros x F T HT HF. unfold Np.bool_lt.
    induction HT as [|y T Hy _ IH]; simpl.
    - destruct HF as [|y F Hy _]; simpl.
      + destruct (key x); reflexivity.
      + rewrite Hy, andb_false_r. destruct (key x); reflexivity.
    - rewrite Hy. destruct (key x) eqn:Hx; simpl; [reflexivity|].
      rewrite IH. reflexivity. }
  assert (H : forall F T,
             Forall (fun j => key j = true) T ->
             Forall (fun j => key j = false) F ->
             rev (fold_left (fun r x => Np.insert_back Np.bool_lt key x r) l
                            (T ++ F))
             = rev F ++ filter (fun i => negb (key i)) l
               ++ rev T ++ filter key l).
  { induction l as [|x l IH]; intros F T HT HF; simpl.
    - rewrite rev_app_distr, !app_nil_r. reflexivity.
    - rewrite (Hins x F T HT HF). destruct (key x) eqn:Hx; simpl.
      + change (x :: T ++ F) with ((x :: T) ++ F).
        rewrite IH by (try constructor; assumption).
        simpl. rewrite <- !app_assoc. reflexivity.
      + rewrite (IH (x :: F) T HT) by (constructor; assumption). simpl.
        rewrite <- !app_assoc. reflexivity. }
  apply (H [] []); constructor.
Qed.

Lemma argsort_short (keys : list bool) :
  length keys <= 16 ->
  Np.argsort keys
  = filter (fun i => negb (nth i keys false)) (seq 0 (length keys))
    ++ filter (fun i => nth i keys false) (seq 0 (length keys)).
Proof.
  intros Hlen. unfold Np.argsort. cbn [Np.introsort andb].
  replace (2 * Z.of_nat (Nat.log2 (length keys)) <? 0)%Z with false
    by (symmetry; apply Z.ltb_ge; lia).
  rewrite length_seq.
  replace (15 <? length keys - 1) with false
    by (symmetry; apply Nat.ltb_ge; lia).
  apply insertion_sort_bool.
Qed.

Lemma filter_seq_all (f : nat -> bool) (n s : nat) :
  (forall i, s <= i < s + n -> f i = true) -> filter f (seq s n) = seq s n.
Proof.
  revert s. induction n as [|n IH]; intros s Hf; simpl; [reflexivity|].
  rewrite Hf by lia. f_equal. apply IH. intros; apply Hf; lia.
Qed.

Lemma filter_seq_none (f : nat -> bool) (n s : nat) :
  (forall i, s <= i < s + n -> f i = false) -> filter f (seq s n) = [].
Proof.
  revert s. induction n as [|n IH]; intros s Hf; simpl; [reflexivity|].
  rewrite Hf by lia. apply IH. intros; apply Hf; lia.
Qed.

Lemma seq_split (s n k : nat) :
  s <= k <= s + n -> seq s n = seq s (k - s) ++ seq k (s + n - k).
Proof.
  intros Hk.
  replace (seq s n) with (seq s ((k - s) + (s + n - k))) by (f_equal; lia).
  rewrite seq_app. replace (s + (k - s)) with k by lia. reflexivity.
Qed.

Lemma filter_seq_below (f : nat -> bool) (n s k : nat) :
  s <= k <= s + n ->
  (forall i, s <= i < s + n -> f i = (i <? k)) ->
  filter f (seq s n) = seq s (k - s).
Proof.
  intros Hk Hf. rewrite (seq_split n Hk), filter_app.
  rewrite filter_seq_all, filter_seq_none; [apply app_nil_r | |].
  - intros i Hi. rewrite Hf by lia. apply Nat.ltb_ge. lia.
  - intros i Hi. rewrite Hf by lia. apply Nat.ltb_lt. lia.
Qed.

Lemma filter_seq_above (f : nat -> bool) (n s k : nat) :
  s <= k <= s + n ->
  (forall i, s <= i < s + n -> f i = (k <=? i)) ->
  filter f (seq s n) = seq k (s + n - k).
Proof.
  intros Hk Hf. rewrite (seq_split n Hk), filter_app.
  rewrite filter_seq_none, filter_seq_all; [reflexivity | |].
  - intros i Hi. rewrite Hf by lia. apply Nat.leb_le. lia.
  - intros i Hi. rewrite Hf by lia. apply Nat.leb_gt. lia.
Qed.

(** ** Fancy indexing *)

Lemma take_app {A} (l : list A) (i1 i2 : list nat) (r1 r2 : list A) :
  Py.take l i1 = Ok r1 -> Py.take l i2 = Ok r2 ->
  Py.take l (i1 ++ i2) = Ok (r1 ++ r2).
Proof.
  revert r1. induction i1 as [|i i1 IH]; simpl; intros r1 H1 H2.
  - inversion H1; subst. exact H2.
  - inv_bind H1. inversion H1; subst.
    rewrite Ho. simpl. rewrite (IH _ Hb H2). reflexivity.
Qed.

Lemma skipn_nth_error {A} (l : list A) (s : nat) (x : A) :
  nth_error l s = Some x -> skipn s l = x :: skipn (S s) l.
Proof.
  revert s. induction l as [|y l IH]; intros [|s]; simpl; try discriminate.
  - intros H; inversion H; reflexivity.
  - intros H. rewrite (IH _ H). reflexivity.
Qed.

Lemma take_seq {A} (l : list A) (n s : nat) :
  s + n <= length l -> Py.take l (seq s n) = Ok (firstn n (skipn s l)).
Proof.
  revert s. induction n as [|n IH]; intros s Hlen; simpl; [reflexivity|].
  destruct (nth_error l s) as [x|] eqn:E.
  - simpl. rewrite IH by lia. simpl.
    rewrite (skipn_nth_error _ _ E). reflexivity.
  - apply nth_error_None in E. lia.
Qed.

Lemma take_map_nth {A} (l : list A) (idx : list nat) (r : list A) (d : A) :
  Py.take l idx = Ok r -> r = map (fun m => nth m l d) idx.
Proof.
  revert r. induction idx as [|i idx IH]; simpl; intros r H.
  - inversion H; reflexivity.
  - inv_bind H. inversion H; subst. simpl.
    rewrite (nth_nth_error _ _ d Ho). f_equal. auto.
Qed.

Lemma take_length {A} (l : list A) (idx : list nat) (r : list A) :
  Py.take l idx = Ok r -> length r = length idx.
Proof.
  revert r. induction idx as [|i idx IH]; simpl; intros r H.
  - inversion H; reflexivity.
  - inv_bind H. inversion H; subst. simpl. f_equal. auto.
Qed.

(** ** Contraction without a common label *)

Lemma insert_uniq_In (x y : Z) (l : list Z) :
  In y (Np.insert_uniq x l) -> y = x \/ In y l.
Proof.
  induction l as [|z l IH]; simpl.
  - intuition.
  - destruct (x <? z)%Z; simpl; [intuition|].
    destruct (x =? z)%Z; simpl; intuition.
Qed.

Lemma unique_In (x : Z) (l : list Z) : In x (Np.unique l) -> In x l.
Proof.
  induction l as [|y l IH]; simpl; [tauto|].
  intros H. apply insert_uniq_In in H. destruct H as [->|H]; auto.
Qed.

Lemma memZ_In (x : Z) (l : list Z) : Py.memZ x l = true <-> In x l.
Proof.
  unfold Py.memZ. rewrite existsb_exists. split.
  - intros (y & Hy & E). apply Z.eqb_eq in E. subst. assumption.
  - intros H. exists x. split; [assumption | apply Z.eqb_refl].
Qed.

Lemma intersect1d_disjoint (la lb : list Z) :
  (forall x, In x la -> ~ In x lb) ->
  Np.intersect1d la lb = ([], [], []).
Proof.
  intros Hdis. unfold Np.intersect1d.
  assert (E : filter (fun x => Py.memZ x lb) (Np.unique la) = []).
  { assert (Hu : forall x, In x (Np.unique la) -> Py.memZ x lb = false).
    { intros x Hx. apply unique_In in Hx.
      destruct (Py.memZ x lb) eqn:Em; [|reflexivity].
      apply memZ_In in Em. exfalso. exact (Hdis x Hx Em). }
    induction (Np.unique la) as [|x l IH]; simpl; [reflexivity|].
    rewrite Hu by (left; reflexivity). apply IH.
    intros y Hy. apply Hu. right. assumption. }
  rewrite E. reflexivity.
Qed.

Lemma nth_out_side (n : Z) (r i : nat) :
  i < r -> nth i (out_side n (seq 0 r)) false = (n <=? Z.of_nat i)%Z.
Proof.
  intros Hi. unfold out_side.
  set (f := fun x => (n <=? Z.of_nat x)%Z).
  rewrite (nth_indep _ false (f 0))
    by (rewrite length_map, length_seq; exact Hi).
  rewrite map_nth, seq_nth by exact Hi. reflexivity.
Qed.

Lemma length_out_side (n : Z) (idx : list nat) :
  length (out_side n idx) = length idx.
Proof. apply length_map. Qed.

(** the flags of the outer product: which axes are in-bonds, which are
    out-bonds *)
Lemma filter_in_out (Na Nb : Z) (ra rb : nat) :
  (0 <= Na <= Z.of_nat ra)%Z -> (0 <= Nb <= Z.of_nat rb)%Z ->
  filter (fun i => negb (nth i (out_side Na (seq 0 ra)
                                ++ out_side Nb (seq 0 rb)) false))
         (seq 0 (ra + rb))
  = seq 0 (Z.to_nat Na) ++ seq ra (Z.to_nat Nb) /\
  filter (fun i => nth i (out_side Na (seq 0 ra)
                          ++ out_side Nb (seq 0 rb)) false)
         (seq 0 (ra + rb))
  = seq (Z.to_nat Na) (ra - Z.to_nat Na)
    ++ seq (ra + Z.to_nat Nb) (rb - Z.to_nat Nb).
Proof.
  intros Ha Hb.
  set (key := fun i => nth i (out_side Na (seq 0 ra) ++ out_side Nb (seq 0 rb)) false).
  change (fun i => negb (nth i (out_side Na (seq 0 ra)
                               ++ out_side Nb (seq 0 rb)) false))
    with (fun i => negb (key i)).
  rewrite seq_app, !filter_app. simpl.
  assert (Hka : forall i, i < ra -> key i = (Z.to_nat Na <=? i)).
  { intros i Hi. unfold key. rewrite app_nth1 by (rewrite length_out_side, length_seq; exact Hi).
    rewrite nth_out_side by exact Hi.
    destruct (Z.leb_spec Na (Z.of_nat i)), (Nat.leb_spec (Z.to_nat Na) i);
      try reflexivity; lia. }
  assert (Hkb : forall i, ra <= i < ra + rb -> key i = (ra + Z.to_nat Nb <=? i)).
  { intros i Hi. unfold key.
    rewrite app_nth2 by (rewrite length_out_side, length_seq; lia).
    rewrite length_out_side, length_seq.
    rewrite nth_out_side by lia.
    destruct (Z.leb_spec Nb (Z.of_nat (i - ra))), (Nat.leb_spec (ra + Z.to_nat Nb) i);
      try reflexivity; lia. }
  rewrite (filter_seq_below (fun i => negb (key i)) ra (s := 0) (k := Z.to_nat Na)).
  2: lia.
  2: { intros i Hi. rewrite Hka by lia.
       destruct (Nat.leb_spec (Z.to_nat Na) i), (Nat.ltb_spec i (Z.to_nat Na));
         try reflexivity; lia. }
  rewrite (filter_seq_below (fun i => negb (key i)) rb (s := ra)
             (k := ra + Z.to_nat Nb)).
  2: lia.
  2: { intros i Hi. rewrite Hkb by lia.
       destruct (Nat.leb_spec (ra + Z.to_nat Nb) i),
                (Nat.ltb_spec i (ra + Z.to_nat Nb)); try reflexivity; lia. }
  rewrite (filter_seq_above key ra (s := 0) (k := Z.to_nat Na)).
  2: lia.
  2: { intros i Hi. apply Hka. lia. }
  rewrite (filter_seq_above key rb (s := ra) (k := ra + Z.to_nat Nb)).
  2: lia.
  2: { intros i Hi. apply Hkb. lia. }
  replace (Z.to_nat Na - 0) with (Z.to_nat Na) by lia.
  replace (ra + Z.to_nat Nb - ra) with (Z.to_nat Nb) by lia.
  replace (0 + ra - Z.to_nat Na) with (ra - Z.to_nat Na) by lia.
  replace (ra + rb - (ra + Z.to_nat Nb)) with (rb - Z.to_nat Nb) by lia.
  split; reflexivity.
Qed.

(** the axis order chosen by the outer product: in-bonds of [a], in-bonds of
    [b], out-bonds of [a], out-bonds of [b] *)
Lemma argsort_in_out (Na Nb : Z) (ra rb : nat) :
  (0 <= Na <= Z.of_nat ra)%Z -> (0 <= Nb <= Z.of_nat rb)%Z ->
  ra + rb <= 16 ->
  Np.argsort (out_side Na (seq 0 ra) ++ out_side Nb (seq 0 rb))
  = seq 0 (Z.to_nat Na) ++ seq ra (Z.to_nat Nb)
    ++ seq (Z.to_nat Na) (ra - Z.to_nat Na)
    ++ seq (ra + Z.to_nat Nb) (rb - Z.to_nat Nb).
Proof.
  intros Ha Hb Hshort.
  rewrite argsort_short
    by (rewrite length_app, !length_out_side, !length_seq; exact Hshort).
  rewrite length_app, !length_out_side, !length_seq.
  destruct (filter_in_out ra rb Ha Hb) as [E1 E2].
  rewrite E1, E2, <- app_assoc. reflexivity.
Qed.

Lemma take_in_out {A} (la lb : list A) (na nb : nat) :
  na <= length la -> nb <= length lb ->
  Py.take (la ++ lb)
          (seq 0 na ++ seq (length la) nb ++ seq na (length la - na)
           ++ seq (length la + nb) (length lb - nb))
  = Ok (in_out_merge na nb la lb).
Proof.
  intros Ha Hb. unfold in_out_merge.
  repeat apply take_app; rewrite take_seq by (rewrite length_app; lia);
    f_equal.
  - simpl. rewrite firstn_app. replace (na - length la) with 0 by lia.
    simpl. apply app_nil_r.
  - rewrite skipn_app, skipn_all, Nat.sub_diag. reflexivity.
  - rewrite skipn_app. replace (na - length la) with 0 by lia. simpl.
    rewrite firstn_app, length_skipn, Nat.sub_diag. simpl.
    rewrite app_nil_r. apply firstn_all2. rewrite length_skipn. lia.
  - rewrite skipn_app.
    rewrite (skipn_all2 la) by lia. simpl.
    replace (length la + nb - length la) with nb by lia.
    apply firstn_all2. rewrite length_skipn. lia.
Qed.

Section OuterProduct.

Context {R : Type} (zero : R) (add mul : R -> R -> R).

Lemma length_diag_data (d : nat) (f : nat -> nat -> R) :
  length (flat_map (fun i => map (f i) (seq 0 d)) (seq 0 d)) = d * d.
Proof.
  assert (H : forall l : list nat,
             length (flat_map (fun i => map (f i) (seq 0 d)) l) = length l * d).
  { induction l as [|x l IH]; simpl; [reflexivity|].
    rewrite length_app, length_map, length_seq, IH. reflexivity. }
  rewrite H, length_seq. reflexivity.
Qed.

(** a well-formed tensor has a dense form, with one axis per bond *)
Lemma as_dense_wf (u : UniTensor R) :
  well_formed u ->
  exists t, as_dense zero u = Ok t /\
            shape t = map dim (bonds u) /\
            length (data t) = Np.prod (shape t).
Proof.
  intros (_ & _ & _ & t & Hs & Hd & Hsh). unfold as_dense. rewrite Hs.
  destruct (is_diag u).
  - destruct Hsh as (d & Hshape & Hdims). unfold diag. rewrite Hshape.
    eexists. split; [reflexivity|]. simpl. split; [congruence|].
    rewrite length_diag_data. lia.
  - exists t. auto.
Qed.

End OuterProduct.

(** * The operations run on concrete tensors *)

Module Runs.

Import Examples.
Open Scope Z_scope.

(** the example block-form tensors are what the constructor builds *)
Lemma two_channel_built :
  __init__ 0 [bd_two; bd_two] 1 None None true false true None = Ok two_channel.
Proof. reflexivity. Qed.

Lemma one_channel_built :
  __init__ 0 [bd_one; bd_one] 1 None None true false true None = Ok one_channel.
Proof. reflexivity. Qed.

(** C2. The round trip breaks on block-form tensors.  With two symmetry
    channels the test [if np.array(qnum) == self._BlockQnums[s]] compares
    element-wise and has no truth value: [PutBlock] and [GetBlock] raise on
    the valid sector [(1,1)], for a block of the right shape.  With one
    channel, a torch tensor of the right shape is refused as a block, since
    the class it is tested against is that of the block list. *)
Theorem putblock_getblock_blockform_raises :
  In [1; 1] (_fx_GetCommRows (GetUniqueQnums bd_two) (GetUniqueQnums bd_two)) /\
  PutBlock 0 (Ndarray X11) [1; 1] two_channel
    = (two_channel, Err AmbiguousTruth) /\
  GetBlock 0 two_channel [1; 1] = Err AmbiguousTruth /\
  PutBlock 0 (TorchTensor X11) [1] one_channel
    = (one_channel, Err PutBlockBadType).
Proof. repeat split; vm_compute; auto. Qed.

(** C4. Two symmetric tensors share label 1; the bonds under that label carry
    the quantum numbers [1, 2] and [3, 4].  The test compares
    [qnums.all()] of the two bonds, both true, and the contraction goes
    through: no error is raised. *)
Theorem Contract_mismatched_qnums_accepted :
  qnums bd_12 <> qnums bd_34 /\
  nth_error (bonds sym_A) 1 = Some bd_12 /\ nth_error (labels sym_A) 1 = Some 1 /\
  nth_error (bonds sym_B) 0 = Some bd_34 /\ nth_error (labels sym_B) 0 = Some 1 /\
  Contract 0 Z.add Z.mul sym_A sym_B
  = Ok (mkUniTensor [bd_12; bd_34] 1 [0; 2] false false
          (Dense (mkTensor [2%nat; 2%nat] [19; 22; 43; 50])) None None None).
Proof. repeat split; try reflexivity. discriminate. Qed.

(** C5. Labels 3 and 4 of a tensor with labels [3, 4, 5], one in-bond and
    three separate bond objects are combined with the defaults.  The combined
    bond with the largest index is
    bond 1, an out-bond labelled 4; the merged axis instead becomes the
    in-bond, in front, with label 3: [np.intersect1d] orders the bonds to
    combine by label value, and the first of them decides. *)
Theorem CombineBonds_default_follows_smallest_label :
  CombineBonds 0 [0; 1; 2]%nat [3; 4] None None plain_345
  = (mkUniTensor [Bond_new 6; Bond_new 5] 1 [3; 5] false false
       (Dense (zeros 0 [6%nat; 5%nat])) None None None,
     Ok tt).
Proof. reflexivity. Qed.

(** C6. On the two-channel block-form tensor, [GetBlock] of a sector that is
    not common to the combined bonds does raise, but with NumPy's error about
    the truth value of an array, not with the error for a missing sector: the
    search never gets past its first comparison. *)
Theorem GetBlock_blockform_missing_sector_error :
  ~ In [5; 5] (_fx_GetCommRows (GetUniqueQnums bd_two) (GetUniqueQnums bd_two)) /\
  GetBlock 0 two_channel [5; 5] = Err AmbiguousTruth.
Proof.
  split; [|reflexivity].
  vm_compute. intros [H|[H|H]]; try discriminate; exact H.
Qed.

(** C9. [PutBlock] on a symmetric dense tensor of shape (2,2,2) with a block
    of an unsupported type raises, and leaves the storage reshaped to (4,2):
    the storage is reshaped before the type of the block is examined and the
    reshape back is not reached. *)
Theorem PutBlock_error_leaves_storage_reshaped :
  storage_shape (Storage sym_222) = Ok [2; 2; 2]%nat /\
  PutBlock 0 PyList [0] sym_222
  = (set_Storage sym_222 (Dense (zeros 0 [4%nat; 2%nat])), Err PutBlockBadType) /\
  storage_shape (Storage (fst (PutBlock 0 PyList [0] sym_222))) = Ok [4; 2]%nat.
Proof. repeat split. Qed.


(** bonds with quantum numbers [1, 2] against [3, 4]: no common sector *)
Lemma init_blockform_no_common_sector_witness :
  _fx_GetCommRows (GetUniqueQnums (mkBond 2 (Some [[2]; [1]])))
                  (GetUniqueQnums (mkBond 2 (Some [[4]; [3]]))) = [] /\
  __init__ 0 [bd_12; bd_34] 1 None None true false true None
  = Err InitNoValidBlock.
Proof.
  split; [reflexivity|].
  apply (proj2 (@init_blockform_no_common_sector Z 0 [bd_12; bd_34] 1 None true
                  false None
                  [mkBond 2 (Some [[2]; [1]]); mkBond 2 (Some [[4]; [3]])]
                  (mkBond 2 (Some [[2]; [1]])) (mkBond 2 (Some [[4]; [3]]))
                  eq_refl eq_refl eq_refl (or_introl eq_refl)) [0; 1]).
  - reflexivity.
  - intros _. reflexivity.
Defined.

(** C10. Two block-form tensors built alike, one with 7 stored in a block,
    agree on everything [==] compares.  The comparison raises: it reads
    [self.Storage.shape], and the storage of a block-form tensor is a Python
    list.  The same happens when a block-form tensor is compared with
    itself. *)
Theorem eq_blockform_raises :
  __init__ 0 [bd_one; bd_one] 1 None None true false true None = Ok one_channel /\
  PutBlock 0 (Ndarray X11) [1] one_channel = (one_channel_7, Ok tt) /\
  is_diag one_channel = is_diag one_channel_7 /\
  is_blockform one_channel = is_blockform one_channel_7 /\
  bonds one_channel = bonds one_channel_7 /\
  labels one_channel = labels one_channel_7 /\
  Storage one_channel <> Storage one_channel_7 /\
  __eq__ bond_eqb one_channel (PyUniTensor one_channel_7) = Err AttributeError /\
  __eq__ bond_eqb one_channel (PyUniTensor one_channel) = Err AttributeError.
Proof. repeat split; try reflexivity. discriminate. Qed.

(** [sym_A == sym_A'], two dense tensors that store different numbers *)
Lemma eq_structural_dense_example :
  metadata sym_A' = metadata sym_A /\
  Storage sym_A' <> Storage sym_A /\
  __eq__ bond_eqb sym_A (PyUniTensor sym_A') = Ok true.
Proof.
  split; [reflexivity|]. split; [discriminate|].
  apply (proj1 (proj2 (@eq_structural Z bond_eqb sym_A sym_A' sym_A sym_A'
                         eq_refl eq_refl)) [2; 2]%nat);
    try reflexivity.
  repeat constructor.
Defined.


End Runs.

(** * Further properties of the tensor code *)

(** ** The normalisation of a bond *)

Section StableSort.

Variable key : nat -> Z.
Variable Rel : nat -> nat -> Prop.

(** inserting an index that [Rel]-precedes every index of a list sorted by
    key and [Rel] keeps it sorted: the sort is stable *)
Lemma insert_by_sorted (i : nat) (l : list nat) :
  StronglySorted (by_key_then key Rel) l -> Forall (Rel i) l ->
  StronglySorted (by_key_then key Rel) (Np.insert_by Z.ltb key i l).
Proof.
  induction l as [|j l IH]; intros Hs HF; simpl.
  - constructor; constructor.
  - inversion Hs as [|? ? Hs' Hj]; subst.
    inversion HF as [|? ? Hij HF']; subst.
    destruct (Z.ltb_spec (key j) (key i)) as [Hlt|Hge].
    + constructor; [apply IH; assumption|].
      apply (Permutation_Forall
               (Permutation_sym (insert_by_perm Z.ltb key i l))).
      constructor; [left; assumption | assumption].
    + constructor; [assumption|].
      assert (Hle : forall x, In x (j :: l) -> (key i <= key x)%Z).
      { intros x [<-|Hx]; [assumption|].
        rewrite Forall_forall in Hj. destruct (Hj x Hx) as [H|[H _]]; lia. }
      apply Forall_forall. intros x Hx.
      destruct (Z.eq_dec (key i) (key x)) as [E|N].
      * right. split; [assumption|].
        rewrite Forall_forall in HF. apply HF. assumption.
      * left. specialize (Hle x Hx). lia.
Qed.

Lemma sort_by_sorted (l : list nat) :
  StronglySorted Rel l ->
  StronglySorted (by_key_then key Rel) (Np.sort_by Z.ltb key l).
Proof.
  induction 1 as [|i l Hs IH HF]; simpl.
  - constructor.
  - apply insert_by_sorted; [assumption|].
    apply (Permutation_Forall (Permutation_sym (sort_by_perm Z.ltb key l))).
    assumption.
Qed.

End StableSort.

Lemma StronglySorted_weaken {A} (R1 R2 : A -> A -> Prop) (l : list A) :
  (forall x y, In x l -> In y l -> R1 x y -> R2 x y) ->
  StronglySorted R1 l -> StronglySorted R2 l.
Proof.
  intros Himp Hs. induction Hs as [|x l Hs IH HF].
  - constructor.
  - constructor.
    + apply IH. intros a b Ha Hb. apply Himp; right; assumption.
    + rewrite Forall_forall in *. intros y Hy.
      apply Himp; [left; reflexivity | right; assumption | auto].
Qed.

Lemma StronglySorted_total {A} (Rel : A -> A -> Prop) (l : list A) :
  (forall x y, In x l -> In y l -> Rel x y) -> StronglySorted Rel l.
Proof.
  induction l as [|x l IH]; intros H; constructor.
  - apply IH. intros a b Ha Hb. apply H; right; assumption.
  - apply Forall_forall. intros y Hy.
    apply H; [left; reflexivity | right; assumption].
Qed.

Lemma StronglySorted_snoc {A} (Rel : A -> A -> Prop) (l : list A) (x : A) :
  StronglySorted Rel l -> Forall (fun y => Rel y x) l ->
  StronglySorted Rel (l ++ [x]).
Proof.
  induction 1 as [|y l Hs IH HF]; intros Hx; simpl.
  - constructor; constructor.
  - inversion Hx as [|? ? Hyx Hx']; subst.
    constructor; [apply IH; assumption|].
    apply Forall_app. split; [assumption|].
    constructor; [assumption | constructor].
Qed.

Lemma StronglySorted_rev {A} (Rel : A -> A -> Prop) (l : list A) :
  StronglySorted Rel l -> StronglySorted (fun x y => Rel y x) (rev l).
Proof.
  induction 1 as [|x l Hs IH HF]; simpl.
  - constructor.
  - apply StronglySorted_snoc; [assumption|].
    apply Forall_rev. assumption.
Qed.

Lemma StronglySorted_map {A B} (f : A -> B) (Rel : B -> B -> Prop) (l : list A) :
  StronglySorted (fun x y => Rel (f x) (f y)) l -> StronglySorted Rel (map f l).
Proof.
  induction 1 as [|x l Hs IH HF]; simpl; constructor.
  - assumption.
  - apply Forall_map. assumption.
Qed.

Lemma nth_column (q : list (list Z)) (c i : nat) :
  nth i (Np.column q c) 0%Z = nth c (nth i q []) 0%Z.
Proof.
  unfold Np.column. revert i.
  induction q as [|r q IH]; intros [|i]; simpl; auto;
    destruct c; reflexivity.
Qed.

Lemma skipn_cons_nth (r : list Z) (c : nat) :
  c < length r -> skipn c r = nth c r 0%Z :: skipn (S c) r.
Proof.
  revert c. induction r as [|x r IH]; intros [|c] H; simpl in *; try lia.
  - reflexivity.
  - apply IH. lia.
Qed.

(** sorting on the columns [s], [s+1], ... of a table, the last one first,
    orders the row indices by the channels from [s] on *)
Lemma columns_sorted (q : list (list Z)) (n : nat) :
  Forall (fun r => length r = n) q ->
  forall k s, s + k = n ->
    Permutation
      (fold_right (fun col perm => Np.sort_by Z.ltb (fun i => nth i col 0%Z) perm)
                  (seq 0 (length q)) (map (Np.column q) (seq s k)))
      (seq 0 (length q)) /\
    StronglySorted (suffix_le q s)
      (fold_right (fun col perm => Np.sort_by Z.ltb (fun i => nth i col 0%Z) perm)
                  (seq 0 (length q)) (map (Np.column q) (seq s k))).
Proof.
  intros Hrect.
  assert (Hlen : forall i, i < length q -> length (nth i q []) = n).
  { intros i Hi. rewrite Forall_forall in Hrect. apply Hrect.
    apply nth_In. assumption. }
  induction k as [|k IH]; intros s Hs; simpl.
  - split; [reflexivity|].
    apply StronglySorted_total. intros x y Hx Hy.
    apply in_seq in Hx. apply in_seq in Hy. unfold suffix_le.
    rewrite skipn_all2 by (rewrite Hlen; lia). reflexivity.
  - destruct (IH (S s) ltac:(lia)) as [Hperm Hsorted].
    set (P := fold_right
                (fun col perm => Np.sort_by Z.ltb (fun i => nth i col 0%Z) perm)
                (seq 0 (length q)) (map (Np.column q) (seq (S s) k))) in *.
    split.
    + rewrite (sort_by_perm Z.ltb _ P). exact Hperm.
    + apply (sort_by_sorted (fun i => nth i (Np.column q s) 0%Z)) in Hsorted.
      revert Hsorted. apply StronglySorted_weaken.
      intros x y Hx Hy.
      assert (Hin : forall z,
                 In z (Np.sort_by Z.ltb (fun i => nth i (Np.column q s) 0%Z) P) ->
                 z < length q).
      { intros z Hz.
        apply (Permutation_in z (sort_by_perm Z.ltb _ P)) in Hz.
        apply (Permutation_in z Hperm) in Hz. apply in_seq in Hz. lia. }
      apply Hin in Hx. apply Hin in Hy.
      unfold by_key_then, suffix_le. rewrite !nth_column.
      rewrite (skipn_cons_nth (nth x q []) (c := s)) by (rewrite Hlen; lia).
      rewrite (skipn_cons_nth (nth y q []) (c := s)) by (rewrite Hlen; lia).
      simpl. intros [Hlt | [Heq Hrest]].
      * apply Z.ltb_lt in Hlt. rewrite Hlt. reflexivity.
      * rewrite Heq, Z.eqb_refl, Hrest. apply orb_true_r.
Qed.

Lemma lexsort_columns (q : list (list Z)) (n : nat) :
  0 < n ->
  Np.lexsort (rev (map (Np.column q) (seq 0 n)))
  = Ok (fold_right
          (fun col perm => Np.sort_by Z.ltb (fun i => nth i col 0%Z) perm)
          (seq 0 (length q)) (map (Np.column q) (seq 0 n))).
Proof.
  intros Hn. destruct n as [|m]; [lia|].
  rewrite <- (rev_involutive (map (Np.column q) (seq 0 (S m)))) at 2.
  rewrite fold_left_rev_right.
  rewrite seq_S, map_app, rev_app_distr. simpl.
  unfold Np.column. rewrite ?length_map. reflexivity.
Qed.

Lemma sort_qnums_rows (b : Bond) (q : list (list Z)) :
  qnums b = Some q -> 0 < Np.ncols q ->
  sort_qnums b = Ok (mkBond (dim b) (Some (Np.rows_at q (descending_order q)))).
Proof.
  intros Hq Hcols. unfold sort_qnums. rewrite Hq. simpl. unfold Np.transpose.
  rewrite (lexsort_columns q Hcols). reflexivity.
Qed.

Lemma descending_order_sorted (q : list (list Z)) :
  Forall (fun r => length r = Np.ncols q) q ->
  Permutation q (Np.rows_at q (descending_order q)) /\
  StronglySorted (fun x y => lex_le y x = true)
                 (Np.rows_at q (descending_order q)).
Proof.
  intros Hrect. unfold descending_order.
  destruct (columns_sorted Hrect (Np.ncols q) 0 eq_refl) as [Hperm Hsorted].
  set (P := fold_right
              (fun col perm => Np.sort_by Z.ltb (fun i => nth i col 0%Z) perm)
              (seq 0 (length q)) (map (Np.column q) (seq 0 (Np.ncols q)))) in *.
  split.
  - unfold Np.rows_at.
    rewrite <- (map_nth_seq q []) at 1.
    apply Permutation_map. rewrite <- Permutation_rev.
    apply Permutation_sym. exact Hperm.
  - unfold Np.rows_at. apply StronglySorted_map.
    apply (StronglySorted_rev
             (Rel := fun i j => lex_le (nth i q []) (nth j q []) = true)).
    exact Hsorted.
Qed.

(** X1. The constructor's normalisation of a bond,
    [qnums[np.lexsort(qnums.T[::-1])[::-1], :]], is the descending
    lexicographic sort of its quantum-number vectors: the sorted table is a
    rearrangement of the original one, and each vector is followed only by
    vectors that are not larger (first channel first). *)
Theorem sort_qnums_descending (b : Bond) (q : list (list Z)) :
  qnums b = Some q -> rectangular q ->
  exists q',
    sort_qnums b = Ok (mkBond (dim b) (Some q')) /\
    Permutation q q' /\
    StronglySorted (fun x y => lex_le y x = true) q'.
Proof.
  intros Hq (Hne & Hcols & Hrect).
  exists (Np.rows_at q (descending_order q)).
  split; [apply sort_qnums_rows; assumption|].
  apply descending_order_sorted. exact Hrect.
Qed.

(** ** Labels *)

Lemma insert_uniq_In_iff (x y : Z) (l : list Z) :
  In y (Np.insert_uniq x l) <-> y = x \/ In y l.
Proof.
  split; [apply insert_uniq_In|].
  induction l as [|z l IH]; simpl.
  - intuition.
  - destruct (Z.ltb_spec x z); simpl; [intuition|].
    destruct (Z.eqb_spec x z); simpl; [subst; intuition | intuition].
Qed.

Lemma unique_In_iff (x : Z) (l : list Z) : In x (Np.unique l) <-> In x l.
Proof.
  induction l as [|y l IH]; simpl; [tauto|].
  rewrite insert_uniq_In_iff, IH. intuition.
Qed.

Lemma insert_uniq_sorted (x : Z) (l : list Z) :
  StronglySorted Z.lt l -> StronglySorted Z.lt (Np.insert_uniq x l).
Proof.
  induction 1 as [|z l Hs IH HF]; simpl.
  - constructor; constructor.
  - destruct (Z.ltb_spec x z).
    + constructor; [constructor; assumption|].
      constructor; [assumption|].
      apply Forall_forall. intros y Hy. rewrite Forall_forall in HF.
      specialize (HF y Hy). lia.
    + destruct (Z.eqb_spec x z).
      * constructor; assumption.
      * constructor; [assumption|].
        apply Forall_forall. intros y Hy. apply insert_uniq_In in Hy.
        destruct Hy as [->|Hy]; [lia|].
        rewrite Forall_forall in HF. apply HF. assumption.
Qed.

Lemma unique_sorted (l : list Z) : StronglySorted Z.lt (Np.unique l).
Proof.
  induction l as [|x l IH]; simpl; [constructor|].
  apply insert_uniq_sorted. assumption.
Qed.

Lemma sorted_lt_NoDup (l : list Z) : StronglySorted Z.lt l -> NoDup l.
Proof.
  induction 1 as [|x l Hs IH HF]; constructor; [|assumption].
  intros Hin. rewrite Forall_forall in HF. specialize (HF x Hin). lia.
Qed.

Lemma unique_NoDup (l : list Z) : NoDup (Np.unique l).
Proof. apply sorted_lt_NoDup, unique_sorted. Qed.

(** [len(np.unique(l)) == len(l)] tests that no value occurs twice *)
Lemma unique_length_NoDup (l : list Z) :
  length (Np.unique l) = length l <-> NoDup l.
Proof.
  split.
  - intros Hlen. apply (NoDup_incl_NoDup (unique_NoDup l)); [lia|].
    intros x Hx. apply unique_In_iff. assumption.
  - intros Hnd. apply Permutation_length.
    apply NoDup_Permutation; [apply unique_NoDup | assumption|].
    intros x. apply unique_In_iff.
Qed.

Lemma list_set_length {A} (l : list A) (k : nat) (x : A) :
  length (list_set l k x) = length l.
Proof.
  revert k. induction l as [|y l IH]; intros [|k]; simpl; auto.
Qed.

Lemma list_set_nth_error {A} (l : list A) (k : nat) (x : A) :
  k < length l -> nth_error (list_set l k x) k = Some x.
Proof.
  revert k. induction l as [|y l IH]; intros [|k] H; simpl in *; try lia.
  - reflexivity.
  - apply IH. lia.
Qed.

Lemma list_set_nth_error_other {A} (l : list A) (k j : nat) (x : A) :
  j <> k -> nth_error (list_set l k x) j = nth_error l j.
Proof.
  revert k j. induction l as [|y l IH]; intros [|k] [|j] H; simpl; auto;
    try congruence.
Qed.

Lemma list_set_In {A} (l : list A) (k : nat) (x z : A) :
  In z (list_set l k x) -> z = x \/ In z l.
Proof.
  revert k. induction l as [|y l IH]; intros [|k]; simpl; try tauto.
  - intuition.
  - intros [->|H]; [tauto|]. destruct (IH _ H); tauto.
Qed.

Lemma list_set_NoDup {A} (l : list A) (k : nat) (x : A) :
  NoDup l -> ~ In x l -> NoDup (list_set l k x).
Proof.
  revert k. induction l as [|y l IH]; intros k Hnd Hx; [destruct k; constructor|].
  inversion Hnd as [|? ? Hy Hnd']; subst.
  destruct k as [|k]; simpl.
  - constructor; [|assumption]. intros H. apply Hx. right. assumption.
  - constructor.
    + intros H. apply list_set_In in H. destruct H as [->|H].
      * apply Hx. left. reflexivity.
      * contradiction.
    + apply IH; [assumption|]. intros H. apply Hx. right. assumption.
Qed.

Lemma wrap_Some_lt (n : nat) (i : Z) (k : nat) : wrap n i = Some k -> k < n.
Proof.
  unfold wrap.
  destruct ((0 <=? i)%Z && (i <? Z.of_nat n)%Z) eqn:E1.
  - apply andb_true_iff in E1. destruct E1 as [H1 H2].
    apply Z.leb_le in H1. apply Z.ltb_lt in H2.
    intros H; inversion H. lia.
  - destruct ((- Z.of_nat n <=? i)%Z && (i <? 0)%Z) eqn:E2; [|discriminate].
    apply andb_true_iff in E2. destruct E2 as [H1 H2].
    apply Z.leb_le in H1. apply Z.ltb_lt in H2.
    intros H; inversion H. lia.
Qed.

Lemma py_set_wrap {A} (l : list A) (i : Z) (x : A) :
  py_set l i x = match wrap (length l) i with
                 | Some k => Ok (list_set l k x)
                 | None => Err IndexError
                 end.
Proof.
  unfold py_set, wrap.
  destruct ((0 <=? i)%Z && (i <? Z.of_nat (length l))%Z); [reflexivity|].
  destruct ((- Z.of_nat (length l) <=? i)%Z && (i <? 0)%Z); reflexivity.
Qed.

Section LabelSetters.

Context {R : Type}.

Lemma list_set_Forall {A} (P : A -> Prop) (l : list A) (k : nat) (x : A) :
  Forall P l -> P x -> Forall P (list_set l k x).
Proof.
  intros Hl Hx. apply Forall_forall. intros z Hz.
  apply list_set_In in Hz. destruct Hz as [->|Hz]; [assumption|].
  rewrite Forall_forall in Hl. auto.
Qed.

(** X2. [SetLabel] on a tensor with distinct labels, held in the array of
    64-bit integers of the constructor: when [idx] addresses a bond (from the
    front, or with a negative value from the end), [newLabel] is not yet a
    label and fits in 64 bits, exactly that label is replaced, and the labels
    stay distinct and within 64 bits; in every other case - [idx] out of
    range, [newLabel] already present, even as the label being replaced, or
    [newLabel] too large for the array - the call raises and the tensor is
    left as it was. *)
Theorem SetLabel_spec :
  forall (T : UniTensor R) (newLabel idx : Z),
    NoDup (labels T) -> int64_labels T ->
    (exists k,
        wrap (length (labels T)) idx = Some k /\ ~ In newLabel (labels T) /\
        Np.fits_int64 newLabel = true /\
        SetLabel newLabel idx T
        = (set_labels T (list_set (labels T) k newLabel), Done tt) /\
        NoDup (list_set (labels T) k newLabel) /\
        length (list_set (labels T) k newLabel) = length (labels T) /\
        nth_error (list_set (labels T) k newLabel) k = Some newLabel /\
        (forall j, j <> k ->
                   nth_error (list_set (labels T) k newLabel) j
                   = nth_error (labels T) j) /\
        int64_labels (set_labels T (list_set (labels T) k newLabel))) \/
    ((wrap (length (labels T)) idx = None \/ In newLabel (labels T) \/
      Np.fits_int64 newLabel = false) /\
     exists e, SetLabel newLabel idx T = (T, Failed e)).
Proof.
  intros T newLabel idx Hnd Hfit. unfold SetLabel.
  destruct (idx <? len (labels T))%Z eqn:Hlt; simpl.
  - destruct (Py.memZ newLabel (labels T)) eqn:Hmem.
    + right. split; [right; left; apply memZ_In; assumption | eauto].
    + assert (Hnin : ~ In newLabel (labels T)).
      { intros H. apply memZ_In in H. congruence. }
      rewrite py_set_wrap.
      destruct (wrap (length (labels T)) idx) as [k|] eqn:Hw.
      * destruct (Np.fits_int64 newLabel) eqn:Hnew.
        -- left. exists k. pose proof (wrap_Some_lt _ _ Hw) as Hk.
           repeat split; auto.
           ++ apply list_set_NoDup; assumption.
           ++ apply list_set_length.
           ++ apply list_set_nth_error; assumption.
           ++ intros j Hj. apply list_set_nth_error_other; assumption.
           ++ unfold int64_labels. simpl.
              apply list_set_Forall; assumption.
        -- right. split; [right; right; reflexivity | eauto].
      * right. split; [left; reflexivity | eauto].
  - right. split; [|eauto]. left.
    apply Z.ltb_ge in Hlt. unfold len in Hlt. unfold wrap.
    replace ((0 <=? idx)%Z && (idx <? Z.of_nat (length (labels T)))%Z)
      with false by (symmetry; apply andb_false_iff; right; apply Z.ltb_ge; lia).
    replace ((- Z.of_nat (length (labels T)) <=? idx)%Z && (idx <? 0)%Z)
      with false by (symmetry; apply andb_false_iff; right; apply Z.ltb_ge; lia).
    reflexivity.
Qed.


End LabelSetters.

(** ** What the checked constructor guarantees *)

Lemma nodup_length_one {A} (dec : forall x y : A, {x = y} + {x <> y})
    (l : list A) :
  length (nodup dec l) = 1 -> forall x y, In x l -> In y l -> x = y.
Proof.
  intros Hlen x y Hx Hy.
  apply (nodup_In dec) in Hx. apply (nodup_In dec) in Hy.
  destruct (nodup dec l) as [|a [|b r]]; simpl in *; try discriminate.
  destruct Hx as [<-|[]]. destruct Hy as [<-|[]]. reflexivity.
Qed.

Lemma Py_index_0 {A} (l : list A) (x : A) :
  Py.index l 0 = Ok x -> exists r, l = x :: r.
Proof.
  unfold Py.index. destruct l as [|y r]; simpl; [discriminate|].
  replace (0 <? Z.pos (Pos.of_succ_nat (length r)))%Z with true
    by (symmetry; apply Z.ltb_lt; lia).
  simpl. intros H. inversion H. eauto.
Qed.

Lemma Py_index_0_cons {A} (x : A) (r : list A) : Py.index (x :: r) 0 = Ok x.
Proof.
  unfold Py.index. simpl.
  replace (0 <? Z.pos (Pos.of_succ_nat (length r)))%Z with true
    by (symmetry; apply Z.ltb_lt; lia).
  reflexivity.
Qed.

(** what the argument checks establish about the arguments *)
Lemma init_checks_inv (bs : list Bond) (Nin : Z) (lbls : list Z)
    (isdiag isblock : bool) :
  init_checks bs Nin lbls isdiag isblock = Ok tt ->
  bs <> [] /\
  length lbls = length bs /\ NoDup lbls /\
  (0 <= Nin <= len bs)%Z /\
  isdiag && isblock = false /\
  (Forall (fun b => qnums b = None) bs \/
   exists n, Forall (fun b => qnums b <> None /\ nsym b = n) bs) /\
  (isdiag = true -> (exists d, map dim bs = [d; d]) /\ Nin = 1%Z) /\
  (isblock = true ->
   (1 <= Nin <= len bs - 1)%Z /\ Forall (fun b => qnums b <> None) bs).
Proof.
  unfold init_checks. intros H.
  apply bind_Ok_inv in H. destruct H as (u0 & Hflags & H).
  apply guard_Ok_inv in Hflags.
  apply bind_Ok_inv in H. destruct H as (u1 & HN & H).
  apply guard_Ok_inv in HN.
  apply bind_Ok_inv in H. destruct H as (u2 & Hcount & H).
  apply guard_Ok_inv in Hcount. apply negb_false_iff, Nat.eqb_eq in Hcount.
  apply bind_Ok_inv in H. destruct H as (u3 & Hdup & H).
  apply guard_Ok_inv in Hdup. apply negb_false_iff, Nat.eqb_eq in Hdup.
  apply unique_length_NoDup in Hdup.
  apply bind_Ok_inv in H. destruct H as (u4 & Hkind & H).
  apply bind_Ok_inv in H. destruct H as (u5 & Hmixed & H).
  apply guard_Ok_inv in Hmixed. apply negb_false_iff, Nat.eqb_eq in Hmixed.
  apply bind_Ok_inv in H. destruct H as (b0 & Hb0 & H).
  destruct (Py_index_0 _ Hb0) as (r & ->).
  assert (Hrange : (0 <= Nin <= len (b0 :: r))%Z).
  { unfold len in *. simpl length in *.
    apply andb_false_iff in HN. destruct HN as [HN|HN].
    - apply Z.ltb_ge in HN. lia.
    - apply orb_false_iff in HN. destruct HN as [H1 H2].
      apply Z.ltb_ge in H1, H2. lia. }
  assert (Hsame : forall b, In b (b0 :: r) ->
                            is_none (qnums b) = is_none (qnums b0)).
  { intros b Hb.
    apply (nodup_length_one _ _ Hmixed);
      apply in_map_iff; [exists b | exists b0]; split; auto.
    left. reflexivity. }
  assert (Huniform :
    Forall (fun b => qnums b = None) (b0 :: r) \/
    exists n, Forall (fun b => qnums b <> None /\ nsym b = n) (b0 :: r)).
  { destruct (qnums b0) as [q0|] eqn:Eq0; cbn [is_none] in H.
    - right. exists (nsym b0).
      apply guard_Ok_inv, negb_false_iff, Nat.eqb_eq in H.
      apply Forall_forall. intros b Hb. split.
      + specialize (Hsame b Hb). destruct (qnums b); [discriminate|].
        simpl in Hsame. discriminate.
      + apply (nodup_length_one _ _ H);
          apply in_map_iff; [exists b | exists b0]; split; auto.
        left. reflexivity.
    - left. apply Forall_forall. intros b Hb.
      specialize (Hsame b Hb). destruct (qnums b); [discriminate|reflexivity]. }
  split; [discriminate|]. split; [assumption|]. split; [assumption|].
  split; [assumption|].
  split; [rewrite andb_comm; assumption|].
  split; [assumption|]. split.
  - intros ->. inv_bind Hkind.
    apply negb_false_iff, Nat.eqb_eq in Hg.
    apply negb_false_iff, Z.eqb_eq in Hg0.
    apply guard_Ok_inv, negb_false_iff, Nat.eqb_eq in Hkind.
    split; [|assumption].
    rewrite Hcount in Hg.
    destruct r as [|b1 [|b2 r]]; simpl in Hg; try discriminate.
    rewrite Py_index_0_cons in Hb. inversion Hb; subst.
    unfold Py.index in Hb1. simpl in Hb1. inversion Hb1; subst.
    exists (dim x0). simpl. rewrite Hkind. reflexivity.
  - intros ->. destruct isdiag; [discriminate|]. inv_bind Hkind.
    apply orb_false_iff in Hg. destruct Hg as [H1 H2].
    apply Z.ltb_ge in H1, H2. split; [lia|].
    rewrite Py_index_0_cons in Hb. inversion Hb; subst.
    apply guard_Ok_inv in Hkind.
    destruct Huniform as [Hnone|(n & Hsome)].
    + inversion Hnone as [|? ? Hq _]; subst. rewrite Hq in Hkind. discriminate.
    + revert Hsome. apply Forall_impl. tauto.
Qed.

Section Constructor.

Context {R : Type} (zero : R).

(** the fields the constructor stores as given *)
Lemma init_fields bonds0 Nin labels0 tt check isdiag isblock BlockInfo
    (T : UniTensor R) :
  __init__ zero bonds0 Nin labels0 tt check isdiag isblock BlockInfo = Ok T ->
  labels T = labels_or_arange labels0 (length bonds0) /\
  N_inbond T = Nin /\ is_diag T = isdiag /\ is_blockform T = isblock /\
  length (bonds T) = length bonds0.
Proof.
  unfold __init__. intros H.
  apply bind_Ok_inv in H. destruct H as (lbls & Hl & H).
  apply labels_array_inv in Hl. destruct Hl as [-> _].
  apply bind_Ok_inv in H. destruct H as (u & _ & H).
  destruct tt as [st|].
  - inversion H; subst; simpl. auto.
  - destruct isdiag.
    + inv_bind H. inversion H; subst; simpl. auto.
    + destruct isblock.
      * inv_bind H. inversion H; subst; simpl.
        repeat split. eapply mapM_length; eassumption.
      * inversion H; subst; simpl. auto.
Qed.

(** the conversion of the labels and the checks a successful construction
    went through *)
Lemma init_steps bonds0 Nin labels0 st check isdiag isblock BlockInfo
    (T : UniTensor R) :
  __init__ zero bonds0 Nin labels0 st check isdiag isblock BlockInfo = Ok T ->
  (forall l, labels0 = Some l -> Forall (fun x => Np.fits_int64 x = true) l) /\
  (check = true ->
   init_checks bonds0 Nin (labels_or_arange labels0 (length bonds0))
               isdiag isblock = Ok tt).
Proof.
  unfold __init__. intros H.
  apply bind_Ok_inv in H. destruct H as (lbls & Hl & H).
  apply labels_array_inv in Hl. destruct Hl as [-> Hfit].
  split; [exact Hfit|]. intros ->.
  apply bind_Ok_inv in H. destruct H as ([] & Hchk & _). exact Hchk.
Qed.

(** X4. A tensor accepted by the constructor with its checks on has at least
    one bond, one label per bond, no label twice, [N_inbond] between 0 and
    the rank, not both sparse flags; its bonds either all lack quantum
    numbers or all carry them with one common number of channels; a diagonal
    tensor is a square matrix with one in-bond; a block-form tensor has an
    in-bond and an out-bond and symmetric bonds. *)
Theorem init_checked_invariants :
  forall bonds0 Nin labels0 tt isdiag isblock BlockInfo (T : UniTensor R),
    __init__ zero bonds0 Nin labels0 tt true isdiag isblock BlockInfo = Ok T ->
    bonds0 <> [] /\ length (bonds T) = length bonds0 /\
    length (labels T) = length (bonds T) /\ NoDup (labels T) /\
    N_inbond T = Nin /\ (0 <= Nin <= len (bonds T))%Z /\
    is_diag T = isdiag /\ is_blockform T = isblock /\
    isdiag && isblock = false /\
    (Forall (fun b => qnums b = None) bonds0 \/
     exists n, Forall (fun b => qnums b <> None /\ nsym b = n) bonds0) /\
    (isdiag = true -> (exists d, map dim bonds0 = [d; d]) /\ Nin = 1%Z) /\
    (isblock = true ->
     (1 <= Nin <= len bonds0 - 1)%Z /\
     Forall (fun b => qnums b <> None) bonds0).
Proof.
  intros bonds0 Nin labels0 tt isdiag isblock BlockInfo T H.
  destruct (init_fields _ _ _ _ _ _ _ _ H) as (Hl & HN & Hd & Hb & Hlen).
  pose proof (proj2 (init_steps _ _ _ _ _ _ _ _ H) eq_refl) as Hchk.
  apply init_checks_inv in Hchk.
  destruct Hchk as (Hne & Hcount & Hnd & Hrange & Hflags & Hunif & Hdiag & Hblock).
  unfold len in *.
  split; [assumption|]. split; [assumption|].
  split; [rewrite Hl, Hlen; assumption|].
  split; [rewrite Hl; assumption|].
  split; [assumption|]. split; [rewrite Hlen; assumption|].
  split; [assumption|]. split; [assumption|].
  split; [assumption|]. split; [assumption|].
  split; assumption.
Qed.

(** X5. Built without storage and not in block form, a checked tensor is
    well formed and holds zeros: a dense tensor has one extent per bond, a
    diagonal one stores the vector of its diagonal, and [shape()] is the list
    of the bond dimensions. *)
Theorem init_dense_zero :
  forall bonds0 Nin labels0 isdiag BlockInfo (T : UniTensor R),
    __init__ zero bonds0 Nin labels0 None true isdiag false BlockInfo = Ok T ->
    well_formed T /\ bonds T = bonds0 /\
    UniTensor_shape T = Ok (map dim bonds0) /\
    exists t, Storage T = Dense t /\
              data t = repeat zero (Np.prod (shape t)).
Proof.
  intros bonds0 Nin labels0 isdiag BlockInfo T H.
  destruct (init_fields _ _ _ _ _ _ _ _ H) as (Hl & HN & Hd & Hb & Hlen).
  pose proof (proj2 (init_steps _ _ _ _ _ _ _ _ H) eq_refl) as Hchk.
  unfold __init__ in H.
  apply bind_Ok_inv in H. destruct H as (lbls & _ & H).
  apply bind_Ok_inv in H. destruct H as ([] & _ & H).
  apply init_checks_inv in Hchk.
  destruct Hchk as (_ & Hcount & _ & Hrange & _ & _ & Hdiag & _).
  rewrite <- Hl, <- Hlen in Hcount. unfold len in Hrange.
  rewrite <- Hlen in Hrange. fold (len (bonds T)) in Hrange.
  unfold well_formed, UniTensor_shape. rewrite Hd, Hb, HN.
  split; [|split; [|split]].
  - split; [reflexivity|]. split; [assumption|]. split; [assumption|].
    destruct isdiag.
    + destruct (Hdiag eq_refl) as ((d & Hdims) & _).
      inv_bind H. inversion H; subst T; clear H.
      cbn [Storage bonds].
      destruct (Py_index_0 _ Hb0) as (r & ->).
      simpl in Hdims. inversion Hdims as [[Hd0 Hr]].
      eexists. split; [reflexivity|]. split.
      * simpl. rewrite repeat_length. lia.
      * exists (dim x). simpl. rewrite Hr. split; reflexivity.
    + inversion H; subst T; clear H. cbn [Storage bonds].
      eexists. split; [reflexivity|]. split; [|reflexivity].
      simpl. apply repeat_length.
  - destruct isdiag.
    + inv_bind H. inversion H; reflexivity.
    + inversion H; reflexivity.
  - destruct isdiag.
    + destruct (Hdiag eq_refl) as ((d & Hdims) & _).
      inv_bind H. inversion H; subst T; clear H. cbn [bonds].
      destruct (Py_index_0 _ Hb0) as (r & ->).
      rewrite Py_index_0_cons. simpl in Hdims. inversion Hdims as [[Hd0 Hr]].
      simpl. rewrite Hr, ?Hd0. reflexivity.
    + inversion H; reflexivity.
  - destruct isdiag.
    + inv_bind H. inversion H; subst T; clear H.
      eexists. split; reflexivity.
    + inversion H; subst T; clear H.
      eexists. split; reflexivity.
Qed.

End Constructor.

(** ** Todense, SetElem, Reshape and From_torch *)

Section DenseMethods.

Context {R : Type} (zero : R).

Lemma get_diag (t t' : Tensor R) (d i j : nat) :
  shape t = [d] -> diag zero t = Ok t' -> i < d -> j < d ->
  get zero t' [i; j] = if i =? j then nth i (data t) zero else zero.
Proof.
  intros Hs Hd Hi Hj. unfold diag in Hd. rewrite Hs in Hd.
  inversion Hd; subst t'; clear Hd. unfold get. simpl.
  replace (i * (d * 1) + (j * 1 + 0)) with (i * d + j) by lia.
  rewrite (nth_flat_map_uniform
             (fun i => map (fun j => if i =? j then nth i (data t) zero else zero)
                           (seq 0 d))
             (seq 0 d) (m := d) 0).
  - rewrite seq_nth by assumption. simpl.
    set (f := fun j => if i =? j then nth i (data t) zero else zero).
    rewrite (nth_indep _ zero (f 0)) by (rewrite length_map, length_seq; assumption).
    rewrite map_nth, seq_nth by assumption. reflexivity.
  - intros x _. rewrite length_map, length_seq. reflexivity.
  - rewrite length_seq. assumption.
  - assumption.
Qed.

(** X6. [Todense] on a well-formed tensor returns the tensor as a
    non-diagonal, well-formed one with the same bonds, labels, [N_inbond] and
    dense form; a second [Todense] changes nothing, and a tensor that was not
    diagonal is left as it is.  The matrix made from a diagonal tensor
    carries the stored vector on its diagonal and zero elsewhere. *)
Theorem Todense_spec :
  forall (T : UniTensor R),
    well_formed T ->
    exists T',
      Todense zero T = (T', Done tt) /\
      well_formed T' /\ is_diag T' = false /\
      bonds T' = bonds T /\ labels T' = labels T /\ N_inbond T' = N_inbond T /\
      as_dense zero T' = as_dense zero T /\
      Todense zero T' = (T', Done tt) /\
      (is_diag T = false -> T' = T) /\
      (is_diag T = true ->
       exists t t', Storage T = Dense t /\ Storage T' = Dense t' /\
                    forall i j, i < length (data t) -> j < length (data t) ->
                                get zero t' [i; j]
                                = if i =? j then nth i (data t) zero else zero).
Proof.
  intros T (Hb & Hl & HN & t & Hs & Hd & Hsh).
  unfold Todense. rewrite Hb.
  destruct (is_diag T) eqn:Hdiag.
  - destruct Hsh as (d & Hshape & Hdims).
    rewrite Hs. destruct (diag zero t) as [t'|e] eqn:Ed.
    2: { unfold diag in Ed. rewrite Hshape in Ed. discriminate. }
    eexists. split; [reflexivity|].
    assert (Ht' : shape t' = [d; d] /\ length (data t') = d * d).
    { unfold diag in Ed. rewrite Hshape in Ed. inversion Ed; subst t'.
      simpl. split; [reflexivity | apply length_diag_data]. }
    destruct Ht' as [Hs' Hd'].
    cbn [is_diag bonds labels N_inbond Storage is_blockform].
    split.
    { unfold well_formed. cbn [is_diag bonds labels N_inbond Storage is_blockform].
      repeat split; try assumption; try lia.
      exists t'. split; [reflexivity|]. split.
      - rewrite Hs'. simpl. lia.
      - rewrite Hs', Hdims. reflexivity. }
    split; [reflexivity|]. split; [reflexivity|].
    split; [reflexivity|]. split; [reflexivity|].
    split.
    { unfold as_dense. cbn [is_diag Storage]. rewrite Hs, Hdiag. auto. }
    split; [reflexivity|].
    split; [discriminate|].
    intros _. exists t, t'. split; [reflexivity|]. split; [reflexivity|].
    intros i j Hi Hj. rewrite Hd, Hshape in Hi, Hj. simpl in Hi, Hj.
    apply (get_diag t (d := d)); auto; lia.
  - exists T. split; [reflexivity|].
    split.
    { unfold well_formed. rewrite Hdiag. repeat split; try assumption; try lia.
      exists t. auto. }
    split; [assumption|]. split; [reflexivity|].
    split; [reflexivity|]. split; [reflexivity|].
    split; [reflexivity|].
    split; [rewrite Hdiag, Hb; reflexivity|].
    split; [reflexivity | discriminate].
Qed.



(** X7. [SetElem] on a well-formed tensor: a wrong number of elements and a
    tensor with quantum numbers are refused, leaving the tensor as it was;
    otherwise the elements replace the stored ones in row-major order, the
    shape is kept and the tensor stays well formed. *)
Theorem SetElem_spec :
  forall (T : UniTensor R) (elem : list R) (b0 : Bond) (r : list Bond)
         (t : Tensor R),
    well_formed T -> bonds T = b0 :: r -> Storage T = Dense t ->
    (length elem <> Np.prod (shape t) ->
     SetElem elem T = (T, Failed SetElemCount)) /\
    (length elem = Np.prod (shape t) -> qnums b0 <> None ->
     SetElem elem T = (T, Failed SetElemSymmetric)) /\
    (length elem = Np.prod (shape t) -> qnums b0 = None ->
     SetElem elem T
     = (set_Storage T (Dense (mkTensor (shape t) elem)), Done tt) /\
     well_formed (set_Storage T (Dense (mkTensor (shape t) elem))) /\
     storage_shape (Storage (set_Storage T (Dense (mkTensor (shape t) elem))))
     = storage_shape (Storage T)).
Proof.
  intros T elem b0 r t (Hb & Hl & HN & t0 & Hs0 & Hd & Hsh) Hbonds Hs.
  rewrite Hs in Hs0. inversion Hs0; subst t0; clear Hs0.
  unfold SetElem. rewrite Hs, Hbonds, Py_index_0_cons.
  split; [|split].
  - intros Hne. destruct (Nat.eqb_spec (length elem) (Np.prod (shape t)));
      [contradiction | reflexivity].
  - intros He Hq. rewrite He, Nat.eqb_refl. simpl.
    destruct (qnums b0); [reflexivity | congruence].
  - intros He Hq. rewrite He, Nat.eqb_refl, Hq. simpl.
    split; [reflexivity|]. split.
    + unfold well_formed. simpl. repeat split; try assumption; try lia.
      eexists. split; [reflexivity|]. simpl. split; assumption.
    + simpl. rewrite ?Hs. reflexivity.
Qed.

End DenseMethods.

(** ** From_torch *)










Section FromTorch.

Context {R : Type} (zero : R).


End FromTorch.

(** ** Permute *)

Lemma index_of_nat {A} (l : list A) (k : nat) :
  Py.index l (Z.of_nat k) = opt_err (nth_error l k) IndexError.
Proof.
  unfold Py.index. destruct (Nat.lt_ge_cases k (length l)) as [Hk|Hk].
  - replace ((0 <=? Z.of_nat k)%Z && (Z.of_nat k <? Z.of_nat (length l))%Z)
      with true
      by (symmetry; apply andb_true_iff; split;
          [apply Z.leb_le | apply Z.ltb_lt]; lia).
    rewrite Nat2Z.id. reflexivity.
  - replace ((0 <=? Z.of_nat k)%Z && (Z.of_nat k <? Z.of_nat (length l))%Z)
      with false
      by (symmetry; apply andb_false_iff; right; apply Z.ltb_ge; lia).
    replace ((- Z.of_nat (length l) <=? Z.of_nat k)%Z && (Z.of_nat k <? 0)%Z)
      with false
      by (symmetry; apply andb_false_iff; right; apply Z.ltb_ge; lia).
    apply nth_error_None in Hk. rewrite Hk. reflexivity.
Qed.

Lemma mapM_index_take {A} (l : list A) (idx : list nat) :
  mapM (Py.index l) (map Z.of_nat idx) = Py.take l idx.
Proof.
  induction idx as [|i idx IH]; simpl; [reflexivity|].
  rewrite index_of_nat, IH. reflexivity.
Qed.

Lemma take_in_range {A} (l : list A) (d : A) (idx : list nat) :
  Forall (fun i => i < length l) idx ->
  Py.take l idx = Ok (map (fun m => nth m l d) idx).
Proof.
  induction 1 as [|i idx Hi _ IH]; simpl; [reflexivity|].
  destruct (nth_error l i) as [x|] eqn:E.
  - simpl. rewrite IH. simpl. rewrite (nth_nth_error _ _ d E). reflexivity.
  - apply nth_error_None in E. lia.
Qed.

Lemma wrap_of_nat (n k : nat) : k < n -> wrap n (Z.of_nat k) = Some k.
Proof.
  intros Hk. unfold wrap.
  replace ((0 <=? Z.of_nat k)%Z && (Z.of_nat k <? Z.of_nat n)%Z) with true
    by (symmetry; apply andb_true_iff; split;
        [apply Z.leb_le | apply Z.ltb_lt]; lia).
  rewrite Nat2Z.id. reflexivity.
Qed.

Lemma wrap_all_of_nat (n : nat) (idx : list nat) :
  Forall (fun i => i < n) idx -> wrap_all n (map Z.of_nat idx) = Some idx.
Proof.
  induction 1 as [|i idx Hi _ IH]; simpl; [reflexivity|].
  rewrite wrap_of_nat by assumption. rewrite IH. reflexivity.
Qed.

Lemma memN_In (x : nat) (l : list nat) : Py.memN x l = true <-> In x l.
Proof.
  unfold Py.memN. rewrite existsb_exists. split.
  - intros (y & Hy & E). apply Nat.eqb_eq in E. subst. assumption.
  - intros H. exists x. split; [assumption | apply Nat.eqb_refl].
Qed.

Lemma nodupb_NoDup (l : list nat) : nodupb l = true <-> NoDup l.
Proof.
  induction l as [|x l IH]; simpl.
  - split; [constructor | reflexivity].
  - rewrite andb_true_iff, negb_true_iff, IH. split.
    + intros [Hx Hl]. constructor; [|assumption].
      intros Hin. apply memN_In in Hin. congruence.
    + intros H. inversion H as [|? ? Hx Hl]; subst. split; [|assumption].
      destruct (Py.memN x l) eqn:E; [|reflexivity].
      apply memN_In in E. contradiction.
Qed.

Lemma perm_seq_inv (m : list nat) (n : nat) :
  Permutation m (seq 0 n) ->
  length m = n /\ NoDup m /\ Forall (fun i => i < n) m.
Proof.
  intros H. split; [|split].
  - rewrite (Permutation_length H). apply length_seq.
  - apply (Permutation_NoDup (Permutation_sym H)). apply seq_NoDup.
  - apply Forall_forall. intros i Hi.
    apply (Permutation_in i H) in Hi. apply in_seq in Hi. lia.
Qed.

Lemma perm_seq_intro (m : list nat) (n : nat) :
  length m = n -> NoDup m -> Forall (fun i => i < n) m ->
  Permutation m (seq 0 n).
Proof.
  intros Hlen Hnd Hr. apply NoDup_Permutation_bis.
  - assumption.
  - rewrite length_seq. lia.
  - intros i Hi. apply in_seq. rewrite Forall_forall in Hr.
    specialize (Hr i Hi). lia.
Qed.

(** if [m'] undoes [m] then [m] undoes [m'] *)
Lemma inverse_sym (m m' : list nat) (n : nat) :
  Permutation m (seq 0 n) -> Permutation m' (seq 0 n) ->
  (forall p, p < n -> nth (nth p m 0) m' 0 = p) ->
  forall q, q < n -> nth (nth q m' 0) m 0 = q.
Proof.
  intros Hm Hm' Hinv q Hq.
  destruct (@perm_seq_inv _ _ Hm) as (Hlen & _ & Hr).
  destruct (@perm_seq_inv _ _ Hm') as (Hlen' & Hnd' & Hr').
  rewrite Forall_forall in Hr, Hr'.
  assert (Hk : nth q m' 0 < n) by (apply Hr', nth_In; lia).
  assert (Hj : nth (nth q m' 0) m 0 < n) by (apply Hr, nth_In; lia).
  apply (proj1 (NoDup_nth m' 0) Hnd'); try lia.
  apply Hinv. assumption.
Qed.

Lemma take_take_inverse {A} (l : list A) (d : A) (m m' : list nat) :
  length m = length l -> length m' = length l ->
  (forall q, q < length l ->
             nth q m' 0 < length l /\ nth (nth q m' 0) m 0 = q) ->
  map (fun q => nth q (map (fun p => nth p l d) m) d) m' = l.
Proof.
  intros Hm Hm' Hinv.
  apply (nth_ext _ _ d d); [rewrite length_map; assumption|].
  intros q Hq. rewrite length_map in Hq.
  set (f := fun q => nth q (map (fun p => nth p l d) m) d).
  rewrite (nth_indep _ d (f 0)) by (rewrite length_map; assumption).
  rewrite map_nth. unfold f.
  destruct (Hinv q ltac:(lia)) as [Hk Hq'].
  set (g := fun p => nth p l d).
  rewrite (nth_indep _ d (g 0)) by (rewrite length_map; lia).
  rewrite map_nth. unfold g. rewrite Hq'. reflexivity.
Qed.

Lemma last_index_nth (l : list Z) (k : nat) :
  NoDup l -> k < length l -> last_index (nth k l 0%Z) l = k.
Proof.
  revert k. induction l as [|y l IH]; intros k Hnd Hk; simpl in *; [lia|].
  inversion Hnd as [|? ? Hnotin Hnd']; subst.
  destruct k as [|k].
  - destruct (Py.memZ y l) eqn:E; [|reflexivity].
    apply memZ_In in E. contradiction.
  - replace (Py.memZ (nth k l 0%Z) l) with true
      by (symmetry; apply memZ_In, nth_In; lia).
    rewrite IH by (auto; lia). reflexivity.
Qed.

Section PermuteProps.

Context {R : Type} (zero : R).

Lemma permute_dims_perm (t : Tensor R) (m : list nat) :
  Permutation m (seq 0 (length (shape t))) ->
  permute_dims zero t (map Z.of_nat m) = Ok (permute zero t m).
Proof.
  intros H. destruct (@perm_seq_inv _ _ H) as (Hlen & Hnd & Hr).
  unfold permute_dims. rewrite (@wrap_all_of_nat _ _ Hr).
  rewrite Hlen, Nat.eqb_refl. apply nodupb_NoDup in Hnd. rewrite Hnd.
  reflexivity.
Qed.

Lemma permute_dims_not_perm (t : Tensor R) (m : list nat) :
  Forall (fun i => i < length (shape t)) m ->
  ~ Permutation m (seq 0 (length (shape t))) ->
  permute_dims zero t (map Z.of_nat m) = Err TorchRuntimeError.
Proof.
  intros Hr Hn. unfold permute_dims. rewrite (@wrap_all_of_nat _ _ Hr).
  destruct (Nat.eqb_spec (length m) (length (shape t))) as [Hlen|]; simpl;
    [|reflexivity].
  destruct (nodupb m) eqn:Hnd; [|reflexivity].
  exfalso. apply Hn. apply perm_seq_intro; auto. apply nodupb_NoDup. assumption.
Qed.

Lemma ravel_nth_all_indices (sh : list nat) (k : nat) :
  k < Np.prod sh -> ravel sh (nth k (all_indices sh) []) = k.
Proof.
  revert k. induction sh as [|d sh IH]; intros k Hk; simpl in *.
  - destruct k; [reflexivity | lia].
  - assert (HP : 0 < Np.prod sh) by nia.
    assert (Hdiv : k / Np.prod sh < d) by (apply Nat.Div0.div_lt_upper_bound; lia).
    assert (Hmod : k mod Np.prod sh < Np.prod sh) by (apply Nat.mod_upper_bound; lia).
    rewrite (Nat.div_mod_eq k (Np.prod sh)) at 1.
    rewrite (Nat.mul_comm (Np.prod sh)).
    rewrite (nth_flat_map_uniform (fun i => map (cons i) (all_indices sh))
               (seq 0 d) (m := Np.prod sh) 0).
    + rewrite seq_nth by assumption. simpl.
      change [] with (@nil nat) at 1.
      rewrite (nth_indep _ [] (k / Np.prod sh :: []))
        by (rewrite length_map, length_all_indices; assumption).
      rewrite map_nth. rewrite IH by assumption.
      rewrite (Nat.div_mod_eq k (Np.prod sh)) at 3. lia.
    + intros x _. rewrite length_map. apply length_all_indices.
    + rewrite length_seq. assumption.
    + assumption.
Qed.

Lemma all_indices_valid (sh idx : list nat) :
  In idx (all_indices sh) -> Forall2 lt idx sh.
Proof.
  revert idx. induction sh as [|d sh IH]; intros idx Hin; simpl in Hin.
  - destruct Hin as [<-|[]]. constructor.
  - apply in_flat_map in Hin. destruct Hin as (i & Hi & Hin).
    apply in_map_iff in Hin. destruct Hin as (r & <- & Hr).
    apply in_seq in Hi. constructor; [lia | auto].
Qed.

(** a contiguous tensor is the row-major list of its elements *)
Lemma map_get_all_indices (t : Tensor R) :
  length (data t) = Np.prod (shape t) ->
  map (get zero t) (all_indices (shape t)) = data t.
Proof.
  intros Hd. apply (nth_ext _ _ zero zero).
  - rewrite length_map, length_all_indices. auto.
  - intros k Hk. rewrite length_map, length_all_indices in Hk.
    rewrite (nth_indep _ zero (get zero t []))
      by (rewrite length_map, length_all_indices; assumption).
    rewrite map_nth. unfold get. rewrite ravel_nth_all_indices by assumption.
    reflexivity.
Qed.

Lemma shape_permute_inverse (sh : list nat) (m m' : list nat) :
  Permutation m (seq 0 (length sh)) -> Permutation m' (seq 0 (length sh)) ->
  (forall p, p < length sh -> nth (nth p m 0) m' 0 = p) ->
  forall A (l : list A) (d : A), length l = length sh ->
    map (fun q => nth q (map (fun p => nth p l d) m) d) m' = l.
Proof.
  intros Hm Hm' Hinv A l d Hl.
  destruct (@perm_seq_inv _ _ Hm) as (Hlen & _ & _).
  destruct (@perm_seq_inv _ _ Hm') as (Hlen' & _ & Hr').
  apply take_take_inverse; try congruence.
  intros q Hq. rewrite Hl in *. split.
  - rewrite Forall_forall in Hr'. apply Hr', nth_In. lia.
  - apply (@inverse_sym _ _ _ Hm Hm' Hinv). assumption.
Qed.

Lemma permute_inverse (t : Tensor R) (m m' : list nat) :
  length (data t) = Np.prod (shape t) ->
  Permutation m (seq 0 (length (shape t))) ->
  Permutation m' (seq 0 (length (shape t))) ->
  (forall p, p < length (shape t) -> nth (nth p m 0) m' 0 = p) ->
  permute zero (permute zero t m) m' = t.
Proof.
  intros Hd Hm Hm' Hinv.
  destruct (@perm_seq_inv _ _ Hm) as (Hlen & _ & Hr).
  destruct (@perm_seq_inv _ _ Hm') as (Hlen' & Hnd' & Hr').
  unfold permute at 1. cbn [shape].
  unfold permute at 1 3. cbn [shape].
  rewrite (@shape_permute_inverse _ _ _ Hm Hm' Hinv _ (shape t) 0 eq_refl).
  destruct t as [sh dt]. cbn [shape data] in *. f_equal.
  transitivity (map (get zero (mkTensor sh dt)) (all_indices sh));
    [|apply (map_get_all_indices (mkTensor sh dt)); assumption].
  apply map_ext_in. intros idx Hin.
  apply all_indices_valid in Hin.
  rewrite <- (get_permute zero (mkTensor sh dt) (mapper := m) (idx := idx))
    by assumption.
  f_equal. unfold unpermute. rewrite Hlen'.
  transitivity (map (fun k => nth k idx 0)
                    (map (fun p => nth p m 0) (seq 0 (length m))));
    [|rewrite map_nth_seq; reflexivity].
  rewrite Hlen, map_map.
  apply map_ext_in. intros p Hp. apply in_seq in Hp.
  assert (Hi : Py.index_of Nat.eqb p m' = Some (nth p m 0)).
  { rewrite <- (Hinv p) at 1 by lia.
    apply index_of_nth; [assumption|].
    rewrite Hlen'. rewrite Forall_forall in Hr. apply Hr, nth_In. lia. }
  rewrite Hi. reflexivity.
Qed.

(** the result of [Permute] by axis numbers, given each axis once *)
Lemma Permute_index_ok (T : UniTensor R) (m : list nat) (Nin : Z)
    (t : Tensor R) :
  is_diag T = false -> is_blockform T = false -> Storage T = Dense t ->
  Permutation m (seq 0 (length (shape t))) ->
  length (labels T) = length (shape t) ->
  length (bonds T) = length (shape t) ->
  Permute zero (map Z.of_nat m) Nin false T
  = (mkUniTensor (map (fun k => nth k (bonds T) (Bond_new 0)) m) Nin
                 (map (fun k => nth k (labels T) 0%Z) m) false false
                 (Dense (permute zero t m))
                 (_BlockMapper_in T) (_BlockMapper_out T) (_BlockQnums T),
     Done tt).
Proof.
  intros Hdiag Hb Hs Hm Hl Hbs.
  destruct (@perm_seq_inv _ _ Hm) as (Hlen & _ & Hr).
  unfold Permute. rewrite Hdiag, Hb, Hs.
  rewrite permute_dims_perm by exact Hm.
  rewrite !mapM_index_take.
  rewrite (take_in_range (labels T) 0%Z) by (rewrite Hl; exact Hr).
  rewrite (take_in_range (bonds T) (Bond_new 0)) by (rewrite Hbs; exact Hr).
  unfold set_N_inbond, set_bonds, set_labels, set_Storage.
  cbn [bonds N_inbond labels is_diag is_blockform Storage
       _BlockMapper_in _BlockMapper_out _BlockQnums].
  rewrite Hdiag, Hb. reflexivity.
Qed.

(** X10. [Permute] by axis numbers on a well-formed dense tensor: given each
    axis exactly once, bond, label and extent [k] of the result are those of
    axis [mapper[k]], every element is found at the permuted index, and
    [N_inbond] is stored as given - the result is well formed when that
    number lies within the rank, which [Permute] does not check.  A list of
    axes that is not a permutation is refused by torch and a diagonal tensor
    by [Permute]; the tensor is then left as it was. *)
Theorem Permute_by_index :
  forall (T : UniTensor R) (mapper : list nat) (Nin : Z) (t : Tensor R),
    well_formed T -> Storage T = Dense t ->
    Forall (fun i => i < length (bonds T)) mapper ->
    (is_diag T = true ->
     Permute zero (map Z.of_nat mapper) Nin false T = (T, Failed PermuteDiag)) /\
    (is_diag T = false -> ~ Permutation mapper (seq 0 (length (bonds T))) ->
     Permute zero (map Z.of_nat mapper) Nin false T
     = (T, Failed (Raised TorchRuntimeError))) /\
    (is_diag T = false -> Permutation mapper (seq 0 (length (bonds T))) ->
     exists T',
       Permute zero (map Z.of_nat mapper) Nin false T = (T', Done tt) /\
       Storage T' = Dense (permute zero t mapper) /\
       bonds T' = map (fun m => nth m (bonds T) (Bond_new 0)) mapper /\
       labels T' = map (fun m => nth m (labels T) 0%Z) mapper /\
       N_inbond T' = Nin /\
       UniTensor_shape T' = Ok (map dim (bonds T')) /\
       (forall idx, Forall2 lt idx (shape t) ->
                    get zero (permute zero t mapper)
                        (map (fun m => nth m idx 0) mapper)
                    = get zero t idx) /\
       ((0 <= Nin <= len (bonds T))%Z <-> well_formed T')).
Proof.
  intros T mapper Nin t (Hb & Hl & HN & t0 & Hs0 & Hd & Hsh) Hs Hr.
  rewrite Hs in Hs0. inversion Hs0; subst t0; clear Hs0.
  split; [|split].
  - intros Hdiag. unfold Permute. rewrite Hdiag. reflexivity.
  - intros Hdiag Hnp. rewrite Hdiag in Hsh.
    unfold Permute. rewrite Hdiag, Hb, Hs.
    rewrite permute_dims_not_perm; [reflexivity | |];
      rewrite Hsh, length_map; assumption.
  - intros Hdiag Hperm. rewrite Hdiag in Hsh.
    assert (Hrank : length (bonds T) = length (shape t))
      by (rewrite Hsh; symmetry; apply length_map).
    destruct (@perm_seq_inv _ _ Hperm) as (Hlen & Hnd & _).
    rewrite Hrank in Hperm.
    rewrite (@Permute_index_ok T mapper Nin t Hdiag Hb Hs Hperm)
      by (try rewrite Hl; exact Hrank).
    eexists. split; [reflexivity|].
    cbn [bonds N_inbond labels is_diag is_blockform Storage].
    assert (Hshape : shape (permute zero t mapper)
                     = map dim (map (fun m => nth m (bonds T) (Bond_new 0))
                                    mapper)).
    { unfold permute. cbn [shape]. rewrite Hsh, map_map.
      apply map_ext. intros m.
      change 0 with (dim (Bond_new 0)) at 1. apply map_nth. }
    do 4 (split; [reflexivity|]).
    split.
    { unfold UniTensor_shape.
      cbn [bonds is_diag is_blockform Storage storage_shape].
      rewrite Hshape. reflexivity. }
    split.
    { intros idx Hidx. apply get_permute; assumption. }
    unfold well_formed.
    cbn [bonds N_inbond labels is_diag is_blockform Storage].
    unfold len. rewrite !length_map. rewrite Hlen. split.
    + intros HNin. split; [reflexivity|]. split; [reflexivity|].
      split; [assumption|].
      eexists. split; [reflexivity|]. split; [|exact Hshape].
      unfold permute. cbn [shape data].
      rewrite length_map, length_all_indices. reflexivity.
    + intros (_ & _ & HNin & _). assumption.
Qed.

(** X11. Permuting a well-formed dense tensor and then permuting with the
    inverse permutation, giving the old [N_inbond], restores the tensor
    exactly: bonds, labels, [N_inbond] and every stored element. *)
Theorem Permute_inverse_roundtrip :
  forall (T : UniTensor R) (m m' : list nat) (Nin : Z),
    well_formed T -> is_diag T = false ->
    Permutation m (seq 0 (length (bonds T))) ->
    Permutation m' (seq 0 (length (bonds T))) ->
    (forall p, p < length (bonds T) -> nth (nth p m 0) m' 0 = p) ->
    exists T',
      Permute zero (map Z.of_nat m) Nin false T = (T', Done tt) /\
      Permute zero (map Z.of_nat m') (N_inbond T) false T' = (T, Done tt).
Proof.
  intros T m m' Nin (Hb & Hl & HN & t & Hs & Hd & Hsh) Hdiag Hm Hm' Hinv.
  rewrite Hdiag in Hsh.
  assert (Hrank : length (bonds T) = length (shape t))
    by (rewrite Hsh; symmetry; apply length_map).
  rewrite Hrank in Hm, Hm', Hinv.
  destruct (@perm_seq_inv _ _ Hm) as (Hlen & _ & _).
  rewrite (@Permute_index_ok T m Nin t Hdiag Hb Hs Hm)
    by (try rewrite Hl; exact Hrank).
  eexists. split; [reflexivity|].
  assert (Hsh' : length (shape (permute zero t m)) = length (shape t)).
  { unfold permute. cbn [shape]. rewrite length_map. exact Hlen. }
  rewrite (@Permute_index_ok _ m' (N_inbond T) (permute zero t m)).
  - cbn [bonds N_inbond labels is_diag is_blockform Storage
         _BlockMapper_in _BlockMapper_out _BlockQnums].
    rewrite (@permute_inverse t m m' Hd Hm Hm' Hinv).
    rewrite (@shape_permute_inverse _ _ _ Hm Hm' Hinv _ (labels T) 0%Z)
      by (rewrite Hl; exact Hrank).
    rewrite (@shape_permute_inverse _ _ _ Hm Hm' Hinv _ (bonds T) (Bond_new 0))
      by exact Hrank.
    destruct T as [bs N ls dg bf st bi bo bq].
    cbn [bonds N_inbond labels is_diag is_blockform Storage
         _BlockMapper_in _BlockMapper_out _BlockQnums] in *.
    rewrite Hs, Hdiag, Hb. reflexivity.
  - reflexivity.
  - reflexivity.
  - reflexivity.
  - rewrite Hsh'. exact Hm'.
  - cbn [labels]. rewrite length_map, Hsh'. exact Hlen.
  - cbn [bonds]. rewrite length_map, Hsh'. exact Hlen.
Qed.

(** X12. [Permute] by label on a tensor with distinct labels does what
    [Permute] by axis number does for the axes that carry these labels, also
    where that call fails; a label the tensor does not have is refused and
    the tensor left as it was. *)
Theorem Permute_by_label_as_index :
  forall (T : UniTensor R) (m : list nat) (mapper : list Z) (Nin : Z),
    NoDup (labels T) ->
    (Forall (fun i => i < length (labels T)) m ->
     Permute zero (map (fun i => nth i (labels T) 0%Z) m) Nin true T
     = Permute zero (map Z.of_nat m) Nin false T) /\
    (is_diag T = false -> is_blockform T = false ->
     (exists x, In x mapper /\ ~ In x (labels T)) ->
     Permute zero mapper Nin true T = (T, Failed PermuteBadLabel)).
Proof.
  intros T m mapper Nin Hnd. split.
  - intros Hr. unfold Permute.
    destruct (is_diag T); [reflexivity|].
    destruct (is_blockform T); [reflexivity|].
    replace (forallb (fun lbl => Py.memZ lbl (labels T))
                     (map (fun i => nth i (labels T) 0%Z) m)) with true.
    2: { symmetry. apply forallb_forall. intros x Hx.
         apply in_map_iff in Hx. destruct Hx as (i & <- & Hi).
         rewrite Forall_forall in Hr. apply memZ_In, nth_In, Hr, Hi. }
    cbn [negb].
    assert (Hnm : map (fun x => last_index x (labels T))
                      (map (fun i => nth i (labels T) 0%Z) m) = m).
    { rewrite map_map. rewrite <- (map_id m) at 2.
      apply map_ext_in. intros i Hi. rewrite Forall_forall in Hr.
      apply last_index_nth; auto. }
    rewrite Hnm.
    destruct (Storage T) as [t|l]; [|reflexivity].
    destruct (permute_dims zero t (map Z.of_nat m)) as [t'|e]; [|reflexivity].
    rewrite !mapM_index_take.
    rewrite (take_in_range (labels T) 0%Z Hr). reflexivity.
  - intros Hdiag Hb (x & Hx & Hnx). unfold Permute. rewrite Hdiag, Hb.
    replace (forallb (fun lbl => Py.memZ lbl (labels T)) mapper) with false;
      [reflexivity|].
    symmetry. apply not_true_is_false. intros Hall.
    rewrite forallb_forall in Hall. apply Hnx, memZ_In, Hall, Hx.
Qed.

End PermuteProps.

(** ** Block access on a dense tensor with quantum numbers *)

Lemma length_qadd (x y : list Z) :
  length (qadd x y) = Nat.min (length x) (length y).
Proof.
  revert y. induction x as [|a x IH]; intros [|b y]; simpl; auto.
Qed.

Lemma length_flat_map_uniform {A B} (f : A -> list B) (l : list A) (m : nat) :
  (forall x, In x l -> length (f x) = m) ->
  length (flat_map f l) = length l * m.
Proof.
  induction l as [|x l IH]; intros H; simpl; [reflexivity|].
  rewrite length_app, (H x) by (left; reflexivity).
  rewrite IH by (intros y Hy; apply H; right; assumption). reflexivity.
Qed.

Lemma combine2_sym (n : nat) (a b : Bond) :
  sym_bond n a -> sym_bond n b -> sym_bond n (combine2 a b).
Proof.
  intros (Ha & qa & Eqa & Hla & Hra) (Hb & qb & Eqb & Hlb & Hrb).
  unfold sym_bond, combine2. cbn [dim qnums]. rewrite Eqa, Eqb.
  split; [nia|]. eexists. split; [reflexivity|]. split.
  - rewrite (length_flat_map_uniform _ _ (m := length qb)).
    + rewrite Hla, Hlb. reflexivity.
    + intros x _. apply length_map.
  - apply Forall_forall. intros r Hr.
    apply in_flat_map in Hr. destruct Hr as (ra & Hin & Hr).
    apply in_map_iff in Hr. destruct Hr as (rb & <- & Hinb).
    rewrite Forall_forall in Hra, Hrb.
    rewrite length_qadd, (Hra ra Hin), (Hrb rb Hinb). lia.
Qed.

Lemma Bond_combine_sym (n : nat) (bs : list Bond) (a : Bond) :
  sym_bond n a -> Forall (sym_bond n) bs -> sym_bond n (Bond_combine a bs).
Proof.
  unfold Bond_combine. revert a.
  induction bs as [|b bs IH]; intros a Ha Hbs; simpl; [assumption|].
  inversion Hbs; subst. apply IH; [apply combine2_sym|]; assumption.
Qed.

Lemma Bond_combine_dim (bs : list Bond) (a : Bond) :
  dim (Bond_combine a bs) = dim a * Np.prod (map dim bs).
Proof.
  unfold Bond_combine. revert a.
  induction bs as [|b bs IH]; intros a; simpl; [lia|].
  rewrite IH. simpl. lia.
Qed.

Lemma clip_in_range (n i : Z) :
  (0 <= i <= n)%Z -> Py.clip n i = Z.to_nat i.
Proof.
  intros H. unfold Py.clip.
  replace (i <? 0)%Z with false by (symmetry; apply Z.ltb_ge; lia).
  f_equal. lia.
Qed.

Lemma combined_in_eq (b0 : Bond) (r : list Bond) (N : Z) :
  (0 < N < len (b0 :: r))%Z ->
  combined_in (b0 :: r) N b0 = Bond_combine b0 (firstn (Z.to_nat N - 1) r).
Proof.
  intros HN. unfold combined_in, len in *.
  destruct (1 <? N)%Z eqn:E.
  - unfold Py.slice. rewrite !clip_in_range by lia.
    change (Z.to_nat 1) with 1. reflexivity.
  - apply Z.ltb_ge in E. replace (Z.to_nat N - 1) with 0 by lia. reflexivity.
Qed.

Lemma skipn_S_tl {A} (l : list A) (k : nat) (x : A) (r : list A) :
  skipn k l = x :: r -> skipn (S k) l = r.
Proof.
  revert l. induction k as [|k IH]; intros [|y l] H; simpl in *;
    try discriminate.
  - inversion H; reflexivity.
  - apply (IH l H).
Qed.

Lemma skipn_nth_error_cons {A} (l : list A) (k : nat) (x : A) (r : list A) :
  skipn k l = x :: r -> nth_error l k = Some x.
Proof.
  revert l. induction k as [|k IH]; intros [|y l] H; simpl in *;
    try discriminate.
  - inversion H; reflexivity.
  - apply (IH l H).
Qed.

Lemma combined_out_eq (bs : list Bond) (N : Z) (b1 : Bond) (r : list Bond) :
  (0 <= N < len bs)%Z -> skipn (Z.to_nat N) bs = b1 :: r ->
  combined_out bs N = Ok (Bond_combine b1 r).
Proof.
  intros HN Hskip. unfold combined_out, len in *.
  replace N with (Z.of_nat (Z.to_nat N)) at 1 by lia.
  rewrite index_of_nat, (skipn_nth_error_cons _ _ Hskip). cbn [opt_err bind].
  f_equal.
  assert (Hlen : length bs = Z.to_nat N + S (length r)).
  { rewrite <- (firstn_skipn (Z.to_nat N) bs) at 1.
    rewrite length_app, Hskip, firstn_length_le by lia. reflexivity. }
  destruct (1 <? Z.of_nat (length bs) - N)%Z eqn:E.
  - unfold Py.slice_from. rewrite clip_in_range by lia.
    replace (Z.to_nat (N + 1)) with (S (Z.to_nat N)) by lia.
    rewrite (skipn_S_tl _ _ Hskip). reflexivity.
  - apply Z.ltb_ge in E. destruct r; [reflexivity | simpl in Hlen; lia].
Qed.

Lemma sym_bond_nsym (n : nat) (b : Bond) :
  sym_bond n b -> is_none (qnums b) = false /\ nsym b = n.
Proof.
  intros (Hd & q & Eq & Hl & Hr). unfold nsym. rewrite Eq. split; [reflexivity|].
  destruct q as [|r q]; [simpl in Hl; lia|].
  inversion Hr; subst. reflexivity.
Qed.

(** the two combined bonds of a tensor with symmetric bonds *)
Lemma combined_bonds (n : nat) (bs : list Bond) (N : Z) :
  Forall (sym_bond n) bs -> (0 < N < len bs)%Z ->
  exists b0 cin cout,
    Py.index bs 0 = Ok b0 /\ is_none (qnums b0) = false /\ nsym b0 = n /\
    combined_in bs N b0 = cin /\ combined_out bs N = Ok cout /\
    sym_bond n cin /\ sym_bond n cout /\
    dim cin = Np.prod (firstn (Z.to_nat N) (map dim bs)) /\
    dim cout = Np.prod (skipn (Z.to_nat N) (map dim bs)).
Proof.
  intros Hsym HN.
  destruct bs as [|b0 r]; [unfold len in HN; simpl in HN; lia|].
  destruct (skipn (Z.to_nat N) (b0 :: r)) as [|b1 r'] eqn:Hskip.
  { apply (f_equal (@length _)) in Hskip. rewrite length_skipn in Hskip.
    unfold len in HN. simpl length in *. lia. }
  inversion Hsym as [|? ? Hb0 Hr]; subst.
  assert (Hsk : Forall (sym_bond n) (b1 :: r')).
  { rewrite <- Hskip. apply Forall_forall. intros x Hx.
    rewrite Forall_forall in Hsym. apply Hsym.
    rewrite <- (firstn_skipn (Z.to_nat N) (b0 :: r)). apply in_or_app. auto. }
  inversion Hsk as [|? ? Hb1 Hr']; subst.
  exists b0, (Bond_combine b0 (firstn (Z.to_nat N - 1) r)), (Bond_combine b1 r').
  destruct (sym_bond_nsym Hb0) as [Hq0 Hn0].
  split; [apply Py_index_0_cons|]. split; [assumption|]. split; [assumption|].
  split; [apply combined_in_eq; assumption|].
  split; [apply combined_out_eq; [lia | assumption]|].
  split.
  { apply Bond_combine_sym; [assumption|].
    apply Forall_forall. intros x Hx. rewrite Forall_forall in Hr. apply Hr.
    rewrite <- (firstn_skipn (Z.to_nat N - 1) r). apply in_or_app. auto. }
  split; [apply Bond_combine_sym; assumption|].
  rewrite !Bond_combine_dim. split.
  - replace (Z.to_nat N) with (S (Z.to_nat N - 1)) at 2 by lia.
    cbn [map firstn Np.prod fold_right]. rewrite firstn_map. reflexivity.
  - rewrite skipn_map, Hskip. reflexivity.
Qed.

Lemma filter_filter {A} (f g : A -> bool) (l : list A) :
  filter g (filter f l) = filter (fun x => f x && g x) l.
Proof.
  induction l as [|x l IH]; simpl; [reflexivity|].
  destruct (f x); simpl; [|assumption].
  destruct (g x); rewrite IH; reflexivity.
Qed.

Lemma memN_filter_seq (g : nat -> bool) (n x : nat) :
  x < n -> Py.memN x (filter g (seq 0 n)) = g x.
Proof.
  intros Hx. destruct (g x) eqn:E.
  - apply memN_In, filter_In. split; [apply in_seq; lia | assumption].
  - apply not_true_is_false. intros H. apply memN_In, filter_In in H.
    destruct H as [_ H]. congruence.
Qed.

Lemma intersect1d_idx_filter (f g : nat -> bool) (n : nat) :
  Np.intersect1d_idx (filter f (seq 0 n)) (filter g (seq 0 n))
  = filter (fun x => f x && g x) (seq 0 n).
Proof.
  unfold Np.intersect1d_idx. rewrite <- filter_filter.
  apply filter_ext_in. intros x Hx. apply filter_In in Hx.
  destruct Hx as [Hx _]. apply in_seq in Hx. apply memN_filter_seq. lia.
Qed.

Lemma sector_fold (q : list (list Z)) (qnum : list Z) (m k : nat)
    (f : nat -> bool) :
  k + m <= Np.ncols q -> k + m <= length qnum ->
  fold_left (fun acc n =>
               i <- acc ;;
               _ <- guard (negb (n <? Np.ncols q)) IndexError ;;
               qn <- opt_err (nth_error qnum n) IndexError ;;
               Ok (Np.intersect1d_idx i (Np.argwhere_col q n qn)))
            (seq k m) (Ok (filter f (seq 0 (length q))))
  = Ok (filter (fun r => f r &&
                         forallb (fun c => (nth c (nth r q []) 0
                                            =? nth c qnum 0)%Z) (seq k m))
               (seq 0 (length q))).
Proof.
  revert k f. induction m as [|m IH]; intros k f Hc Hq.
  - simpl. f_equal. apply filter_ext. intros r. rewrite andb_true_r. reflexivity.
  - cbn [seq fold_left bind].
    replace (k <? Np.ncols q) with true by (symmetry; apply Nat.ltb_lt; lia).
    cbn [negb guard bind].
    destruct (nth_error qnum k) as [qn|] eqn:E.
    2: { apply nth_error_None in E. lia. }
    cbn [opt_err bind].
    change (Np.argwhere_col q k qn)
      with (filter (fun r => (nth k (nth r q []) 0 =? qn)%Z)
                   (seq 0 (length q))).
    rewrite intersect1d_idx_filter.
    rewrite IH by lia. f_equal. apply filter_ext. intros r.
    cbn [forallb]. rewrite (nth_nth_error _ _ 0%Z E), andb_assoc. reflexivity.
Qed.

Lemma forallb_map_comp {A B} (f : B -> bool) (g : A -> B) (l : list A) :
  forallb f (map g l) = forallb (fun x => f (g x)) l.
Proof. induction l as [|x l IH]; simpl; [reflexivity|]. rewrite IH. reflexivity. Qed.

Lemma row_all_eq_forallb (r q : list Z) :
  length r = length q ->
  Np.row_all_eq r q
  = forallb (fun c => (nth c r 0 =? nth c q 0)%Z) (seq 0 (length r)).
Proof.
  revert q. induction r as [|x r IH]; intros [|y q] H; simpl in *;
    try discriminate; [reflexivity|].
  rewrite IH by lia. f_equal.
  rewrite <- seq_shift, forallb_map_comp. reflexivity.
Qed.

(** the index arrays computed channel by channel are the rows that equal
    [qnum] *)
Lemma sector_index_where (n : nat) (cb : Bond) (q : list (list Z))
    (qnum : list Z) :
  0 < n -> sym_bond n cb -> qnums cb = Some q -> length qnum = n ->
  sector_index cb qnum n = Ok (Np.where_rows q qnum).
Proof.
  intros Hn Hsym Eq Hlen.
  destruct (sym_bond_nsym Hsym) as [_ Hns]. unfold nsym in Hns.
  destruct Hsym as (Hd & q' & Eq' & Hl & Hr).
  rewrite Eq in Eq', Hns. inversion Eq'; subst q'; clear Eq'.
  unfold sector_index. rewrite Eq. cbn [opt_err bind].
  replace (Np.ncols q =? 0) with false by (symmetry; apply Nat.eqb_neq; lia).
  cbn [guard bind].
  destruct qnum as [|q0 qnum']; [simpl in Hlen; lia|].
  cbn [nth_error opt_err bind].
  change (Np.argwhere_col q 0 q0)
    with (filter (fun r => (nth 0 (nth r q []) 0 =? q0)%Z)
                 (seq 0 (length q))).
  rewrite sector_fold by (rewrite ?Hns; simpl in *; lia).
  f_equal. unfold Np.where_rows. apply filter_ext_in. intros r Hr'.
  apply in_seq in Hr'.
  assert (Hrow : length (nth r q []) = n).
  { rewrite Forall_forall in Hr. apply Hr, nth_In. lia. }
  rewrite row_all_eq_forallb by (rewrite Hrow; auto).
  rewrite Hrow. destruct n as [|n']; [lia|].
  replace (S n' - 1) with n' by lia. reflexivity.
Qed.

Lemma in_range_lt (n : nat) (idx : list nat) :
  in_range n idx = true <-> Forall (fun i => i < n) idx.
Proof.
  unfold in_range. rewrite forallb_forall, Forall_forall.
  split; intros H i Hi; specialize (H i Hi); apply Nat.ltb_lt; assumption.
Qed.

Lemma in_range_where (q : list (list Z)) (qnum : list Z) :
  in_range (length q) (Np.where_rows q qnum) = true.
Proof.
  apply in_range_lt, Forall_forall. intros r Hr.
  apply where_rows_In in Hr. apply nth_error_Some. congruence.
Qed.

Lemma index_of_lt (x : nat) (l : list nat) (k : nat) :
  Py.index_of Nat.eqb x l = Some k -> k < length l /\ nth k l 0 = x.
Proof.
  revert k. induction l as [|y l IH]; intros k; simpl; [discriminate|].
  destruct (Nat.eqb_spec x y) as [->|_].
  - intros H; inversion H; subst. split; [lia | reflexivity].
  - destruct (Py.index_of Nat.eqb x l) as [j|]; [|discriminate].
    intros H; inversion H; subst. destruct (IH j eq_refl). split; [lia | assumption].
Qed.

Lemma div_mod_pos (r c nc : nat) :
  c < nc -> (r * nc + c) / nc = r /\ (r * nc + c) mod nc = c.
Proof.
  intros Hc. split.
  - rewrite Nat.div_add_l by lia. rewrite Nat.div_small by assumption. lia.
  - rewrite Nat.add_comm, Nat.Div0.mod_add. apply Nat.mod_small. assumption.
Qed.

Lemma flat_map_ext_in' {A B} (f g : A -> list B) (l : list A) :
  (forall x, In x l -> f x = g x) -> flat_map f l = flat_map g l.
Proof.
  induction l as [|x l IH]; intros H; simpl; [reflexivity|].
  rewrite (H x) by (left; reflexivity).
  rewrite IH by (intros y Hy; apply H; right; assumption). reflexivity.
Qed.

Section Matrices.

Context {R : Type} (zero : R).

Lemma reshape_rows_ok (t : Tensor R) (p c : nat) :
  0 < p -> length (data t) = p * c ->
  reshape_rows t p = Ok (mkTensor [p; c] (data t)).
Proof.
  intros Hp Hlen. unfold reshape_rows. rewrite Hlen.
  replace (p =? 0) with false by (symmetry; apply Nat.eqb_neq; lia).
  rewrite (Nat.mul_comm p c), Nat.Div0.mod_mul, Nat.div_mul by lia.
  reflexivity.
Qed.

Lemma ix_get_ok (t : Tensor R) (nr nc : nat) (rows cols : list nat) :
  shape t = [nr; nc] -> in_range nr rows = true -> in_range nc cols = true ->
  ix_get zero t rows cols
  = Ok (mkTensor [length rows; length cols]
          (flat_map (fun r => map (fun c => nth (r * nc + c) (data t) zero) cols)
                    rows)).
Proof.
  intros Hs Hr Hc. unfold ix_get. rewrite Hs, Hr, Hc. reflexivity.
Qed.

(** the elements of a selection [t[np.ix_(rows, cols)]] *)
Lemma get_ix (t : Tensor R) (nc : nat) (rows cols : list nat) (a b : nat) :
  a < length rows -> b < length cols ->
  get zero
      (mkTensor [length rows; length cols]
         (flat_map (fun r => map (fun c => nth (r * nc + c) (data t) zero) cols)
                   rows))
      [a; b]
  = nth (nth a rows 0 * nc + nth b cols 0) (data t) zero.
Proof.
  intros Ha Hb. unfold get. cbn [shape data ravel Np.prod fold_right].
  replace (a * (length cols * 1) + (b * 1 + 0)) with (a * length cols + b)
    by lia.
  rewrite (nth_flat_map_uniform
             (fun r => map (fun c => nth (r * nc + c) (data t) zero) cols)
             rows (m := length cols) 0).
  - set (f := fun c => nth (nth a rows 0 * nc + c) (data t) zero).
    rewrite (nth_indep _ zero (f 0)) by (rewrite length_map; assumption).
    rewrite map_nth. reflexivity.
  - intros x _. apply length_map.
  - assumption.
  - assumption.
Qed.

Lemma strip_ones_matrix (n m : nat) : strip_ones [n; m] = [n; m].
Proof. destruct n as [|[|n]]; reflexivity. Qed.

(** the matrix after [t[np.ix_(rows, cols)] = v] for a value of the shape
    of the selection *)
Lemma ix_put_ok (t v : Tensor R) (nr nc : nat) (rows cols : list nat) :
  shape t = [nr; nc] -> in_range nr rows = true -> in_range nc cols = true ->
  shape v = [length rows; length cols] ->
  ix_put zero t rows cols v
  = Ok (mkTensor [nr; nc]
          (map (fun p =>
                  match Py.index_of Nat.eqb (p / nc) rows,
                        Py.index_of Nat.eqb (p mod nc) cols with
                  | Some a, Some b => nth (a * length cols + b) (data v) zero
                  | _, _ => nth p (data t) zero
                  end)
               (seq 0 (length (data t))))).
Proof.
  intros Hs Hr Hc Hv. unfold ix_put. rewrite Hs, Hr, Hc. cbn [andb negb guard bind].
  unfold broadcast2. rewrite Hv, strip_ones_matrix, !Nat.eqb_refl.
  cbn [orb andb bind]. do 2 f_equal. apply map_ext. intros p.
  destruct (Py.index_of Nat.eqb (p / nc) rows) as [a|] eqn:Ea; [|reflexivity].
  destruct (Py.index_of Nat.eqb (p mod nc) cols) as [b|] eqn:Eb; [|reflexivity].
  apply index_of_lt in Ea, Eb. destruct Ea as [Ha _], Eb as [Hb _].
  destruct (Nat.eqb_spec (length rows) 1) as [E1|_];
    destruct (Nat.eqb_spec (length cols) 1) as [E2|_];
    f_equal; try rewrite E1 in *; try rewrite E2 in *; lia.
Qed.

(** reading back what was assigned *)
Lemma ix_get_put (t v : Tensor R) (nr nc : nat) (rows cols : list nat) :
  length (data t) = nr * nc ->
  in_range nr rows = true -> in_range nc cols = true ->
  NoDup rows -> NoDup cols ->
  length (data v) = length rows * length cols ->
  flat_map (fun r =>
              map (fun c =>
                     nth (r * nc + c)
                         (map (fun p =>
                                 match Py.index_of Nat.eqb (p / nc) rows,
                                       Py.index_of Nat.eqb (p mod nc) cols with
                                 | Some a, Some b =>
                                     nth (a * length cols + b) (data v) zero
                                 | _, _ => nth p (data t) zero
                                 end)
                              (seq 0 (length (data t)))) zero) cols) rows
  = data v.
Proof.
  intros Hd Hr Hc Hnr Hnc Hv.
  apply in_range_lt in Hr, Hc. rewrite Forall_forall in Hr, Hc.
  apply (nth_ext _ _ zero zero).
  - rewrite (length_flat_map_uniform _ _ (m := length cols)).
    + auto.
    + intros x _. apply length_map.
  - intros k Hk.
    rewrite (length_flat_map_uniform _ _ (m := length cols)) in Hk
      by (intros x _; apply length_map).
    assert (Hpos : 0 < length cols) by nia.
    assert (Ha : k / length cols < length rows)
      by (apply Nat.Div0.div_lt_upper_bound; lia).
    assert (Hb : k mod length cols < length cols)
      by (apply Nat.mod_upper_bound; lia).
    rewrite (Nat.div_mod_eq k (length cols)) at 1.
    rewrite (Nat.mul_comm (length cols)).
    rewrite (nth_flat_map_uniform _ rows (m := length cols) 0);
      [| intros x _; apply length_map | assumption | assumption].
    set (r := nth (k / length cols) rows 0).
    set (g := fun c => nth (r * nc + c) _ zero).
    rewrite (nth_indep _ zero (g 0)) by (rewrite length_map; assumption).
    rewrite map_nth. unfold g. clear g.
    set (c := nth (k mod length cols) cols 0).
    assert (Hrr : r < nr) by (apply Hr, nth_In; assumption).
    assert (Hcc : c < nc) by (apply Hc, nth_In; assumption).
    assert (Hp : r * nc + c < length (data t)) by nia.
    set (h := fun p => match Py.index_of Nat.eqb (p / nc) rows,
                             Py.index_of Nat.eqb (p mod nc) cols with
                       | Some a, Some b => nth (a * length cols + b) (data v) zero
                       | _, _ => nth p (data t) zero
                       end).
    rewrite (nth_indep _ zero (h 0)) by (rewrite length_map, length_seq; assumption).
    rewrite map_nth, seq_nth by assumption. cbn [Nat.add]. unfold h.
    destruct (div_mod_pos r Hcc) as [-> ->].
    unfold r, c. rewrite !index_of_nth by assumption.
    rewrite (Nat.div_mod_eq k (length cols)) at 3.
    f_equal. lia.
Qed.

(** an assignment leaves every row outside [rows] as it was *)
Lemma ix_put_frame (t v : Tensor R) (nr nc : nat) (rows cols rows' cols' : list nat) :
  length (data t) = nr * nc ->
  in_range nr rows' = true -> in_range nc cols' = true ->
  (forall r, In r rows' -> ~ In r rows) ->
  flat_map (fun r =>
              map (fun c =>
                     nth (r * nc + c)
                         (map (fun p =>
                                 match Py.index_of Nat.eqb (p / nc) rows,
                                       Py.index_of Nat.eqb (p mod nc) cols with
                                 | Some a, Some b =>
                                     nth (a * length cols + b) (data v) zero
                                 | _, _ => nth p (data t) zero
                                 end)
                              (seq 0 (length (data t)))) zero) cols') rows'
  = flat_map (fun r => map (fun c => nth (r * nc + c) (data t) zero) cols') rows'.
Proof.
  intros Hd Hr Hc Hdisj.
  apply in_range_lt in Hr, Hc. rewrite Forall_forall in Hr, Hc.
  apply flat_map_ext_in'. intros r Hin. apply map_ext_in. intros c Hcin.
  assert (Hrr : r < nr) by auto. assert (Hcc : c < nc) by auto.
  assert (Hp : r * nc + c < length (data t)) by nia.
  set (h := fun p => match Py.index_of Nat.eqb (p / nc) rows,
                           Py.index_of Nat.eqb (p mod nc) cols with
                     | Some a, Some b => nth (a * length cols + b) (data v) zero
                     | _, _ => nth p (data t) zero
                     end).
  rewrite (nth_indep _ zero (h 0)) by (rewrite length_map, length_seq; assumption).
  rewrite map_nth, seq_nth by assumption. cbn [Nat.add]. unfold h.
  destruct (div_mod_pos r Hcc) as [-> _].
  rewrite index_of_None by (apply Hdisj; assumption). reflexivity.
Qed.

End Matrices.

Section DenseBlocks.

Context {R : Type} (zero : R).

Lemma block_tensor_ok (out : Tensor R) (a b : nat) :
  shape out = [a; b] ->
  block_tensor zero out
  = Ok (mkUniTensor [Bond_new a; Bond_new b] 1 [1; 2]%Z false false (Dense out)
                    None None None).
Proof. intros Hs. unfold block_tensor. rewrite Hs. reflexivity. Qed.

Lemma ix_put_length (t v t3 : Tensor R) (rows cols : list nat) :
  ix_put zero t rows cols v = Ok t3 -> length (data t3) = length (data t).
Proof.
  unfold ix_put. destruct (shape t) as [|nr [|nc [|x s]]]; try discriminate.
  intros H. inv_bind H. inversion H; subst. cbn [data].
  rewrite length_map, length_seq. reflexivity.
Qed.

Lemma length_zero_nil {A} (l : list A) : (length l =? 0) = false <-> l <> [].
Proof.
  destruct l; simpl; split; intros H; congruence.
Qed.

(** *** The matrix view

    The combined in-bond [cin] indexes the rows and the combined out-bond
    [cout] the columns of the stored tensor [t] read as a matrix. *)

Section View.

Variables (n : nat) (T : UniTensor R) (t : Tensor R).
Variables (b0 cin cout : Bond) (qin qout : list (list Z)).

Hypothesis Hview : matrix_view n T t b0 cin cout qin qout.

Ltac open_view :=
  pose proof Hview as Hv;
  destruct Hv as (Hn & Hblock & Hdiag & Hs & Hd & HN & Hrank & Hidx & Hq0 &
                  Hns & Hcin & Hcout & Hqin & Hqout & Hsin & Hsout & Hlin &
                  Hlout).

Lemma view_size : length (data t) = length qin * length qout.
Proof.
  open_view.
  rewrite Hd, Hlin, Hlout, <- prod_app, firstn_skipn. reflexivity.
Qed.

Lemma view_rows_pos : 0 < length qin.
Proof.
  open_view.
  destruct Hsin as (Hpos & q & Eq & Hl & _). rewrite Hqin in Eq.
  inversion Eq; subst q. lia.
Qed.

Lemma view_reshape :
  reshape_rows t (Np.prod (Py.slice_to (shape t) (N_inbond T)))
  = Ok (mkTensor [length qin; length qout] (data t)).
Proof.
  open_view.
  unfold Py.slice_to. rewrite clip_in_range by (unfold len in HN; lia).
  rewrite <- Hlin. apply reshape_rows_ok; [apply view_rows_pos | apply view_size].
Qed.

Lemma view_guard :
  (N_inbond T =? 0)%Z || (N_inbond T =? len (bonds T))%Z = false.
Proof.
  open_view. apply orb_false_iff. split; apply Z.eqb_neq; lia.
Qed.

Lemma GetTotalQnums_view : GetTotalQnums T = Ok (cin, cout).
Proof.
  open_view.
  unfold GetTotalQnums, total_qnums. rewrite Hidx. cbn [bind].
  rewrite Hq0, view_guard. cbn [guard bind]. rewrite Hcout, Hcin. reflexivity.
Qed.

Lemma GetBlock_view_length (qnum : list Z) :
  length qnum <> n -> GetBlock zero T qnum = Err GetBlockQnumLen.
Proof.
  open_view.
  intros Hlen. unfold GetBlock. rewrite Hdiag, Hidx. cbn [guard bind].
  rewrite Hq0, Hns.
  replace (length qnum =? n) with false by (symmetry; apply Nat.eqb_neq; lia).
  reflexivity.
Qed.

Lemma GetBlock_view (qnum : list Z) :
  length qnum = n ->
  GetBlock zero T qnum
  = if length (Np.where_rows qin qnum) =? 0 then Err GetBlockNoSectorIn
    else if length (Np.where_rows qout qnum) =? 0 then Err GetBlockNoSectorOut
    else Ok (mkUniTensor
               [Bond_new (length (Np.where_rows qin qnum));
                Bond_new (length (Np.where_rows qout qnum))]
               1 [1; 2]%Z false false
               (Dense (mkTensor
                         [length (Np.where_rows qin qnum);
                          length (Np.where_rows qout qnum)]
                         (flat_map
                            (fun r =>
                               map (fun c => nth (r * length qout + c) (data t) zero)
                                   (Np.where_rows qout qnum))
                            (Np.where_rows qin qnum))))
               None None None).
Proof.
  open_view.
  intros Hlen. unfold GetBlock. rewrite Hdiag, Hidx. cbn [guard bind].
  rewrite Hq0, Hns, Hlen, Nat.eqb_refl. cbn [negb guard bind].
  rewrite Hblock, view_guard. cbn [guard bind].
  rewrite Hcin, (@sector_index_where n cin qin qnum Hn Hsin Hqin Hlen). cbn [bind].
  destruct (length (Np.where_rows qin qnum) =? 0); [reflexivity|].
  cbn [guard bind]. rewrite Hcout. cbn [bind].
  rewrite (@sector_index_where n cout qout qnum Hn Hsout Hqout Hlen). cbn [bind].
  destruct (length (Np.where_rows qout qnum) =? 0); [reflexivity|].
  cbn [guard bind]. rewrite Hs. cbn [storage_shape bind].
  rewrite view_reshape. cbn [bind].
  rewrite (@ix_get_ok R zero _ (length qin) (length qout));
    [| reflexivity | apply in_range_where | apply in_range_where].
  cbn [bind data]. apply block_tensor_ok. reflexivity.
Qed.

Lemma PutBlock_view_length (block : BlockArg R) (qnum : list Z) :
  length qnum <> n -> PutBlock zero block qnum T = (T, Err PutBlockQnumLen).
Proof.
  open_view.
  intros Hlen. unfold PutBlock, mbind, mget, mlift, mraise.
  rewrite Hidx, Hq0, Hns.
  replace (length qnum =? n) with false by (symmetry; apply Nat.eqb_neq; lia).
  reflexivity.
Qed.

Lemma PutBlock_view_missing (block : BlockArg R) (qnum : list Z) :
  length qnum = n ->
  (Np.where_rows qin qnum = [] ->
   PutBlock zero block qnum T = (T, Err PutBlockNoSectorIn)) /\
  (Np.where_rows qin qnum <> [] -> Np.where_rows qout qnum = [] ->
   PutBlock zero block qnum T = (T, Err PutBlockNoSectorOut)).
Proof.
  open_view.
  intros Hlen. unfold PutBlock, mbind, mget, mlift, mraise.
  rewrite Hidx, Hq0, Hns, Hlen, Nat.eqb_refl, Hdiag, Hblock, view_guard.
  cbn [negb guard].
  rewrite Hcin, (@sector_index_where n cin qin qnum Hn Hsin Hqin Hlen).
  rewrite Hcout, (@sector_index_where n cout qout qnum Hn Hsout Hqout Hlen).
  split.
  - intros ->. reflexivity.
  - intros Hr ->. apply length_zero_nil in Hr. rewrite Hr. reflexivity.
Qed.

Lemma PutBlock_view (block : BlockArg R) (qnum : list Z) :
  length qnum = n ->
  Np.where_rows qin qnum <> [] -> Np.where_rows qout qnum <> [] ->
  PutBlock zero block qnum T
  = match dense_block_value block with
    | Err e =>
        (set_Storage T (Dense (mkTensor [length qin; length qout] (data t))),
         Err e)
    | Ok v =>
        match ix_put zero (mkTensor [length qin; length qout] (data t))
                     (Np.where_rows qin qnum) (Np.where_rows qout qnum) v with
        | Err e =>
            (set_Storage T (Dense (mkTensor [length qin; length qout] (data t))),
             Err e)
        | Ok t3 =>
            (set_Storage T (Dense (mkTensor (shape t) (data t3))), Ok tt)
        end
    end.
Proof.
  open_view.
  intros Hlen Hr Hc. apply length_zero_nil in Hr, Hc.
  unfold PutBlock, mbind, mget, mlift, mraise, mput.
  rewrite Hidx, Hq0, Hns, Hlen, Nat.eqb_refl, Hdiag, Hblock, view_guard.
  cbn [negb guard].
  rewrite Hcin, (@sector_index_where n cin qin qnum Hn Hsin Hqin Hlen), Hr.
  rewrite Hcout, (@sector_index_where n cout qout qnum Hn Hsout Hqout Hlen), Hc.
  rewrite Hs, view_reshape.
  destruct (dense_block_value block) as [v|e]; [|reflexivity].
  destruct (ix_put zero _ _ _ v) as [t3|e] eqn:Hput; [|reflexivity].
  apply ix_put_length in Hput. cbn [data] in Hput.
  unfold reshape. rewrite Hput, <- Hd, Nat.eqb_refl. reflexivity.
Qed.

End View.

End DenseBlocks.

Section DenseBlockTheorems.

Context {R : Type} (zero : R).

Lemma matrix_view_exists (n : nat) (T : UniTensor R) (t : Tensor R) :
  symmetric_dense n T -> Storage T = Dense t ->
  exists b0 cin cout qin qout, matrix_view n T t b0 cin cout qin qout.
Proof.
  intros (Hwf & Hdiag & Hn & Hsym & HN) Hs.
  destruct Hwf as (Hb & Hl & _ & t0 & Hs0 & Hd & Hsh).
  rewrite Hs in Hs0. inversion Hs0; subst t0; clear Hs0. rewrite Hdiag in Hsh.
  destruct (combined_bonds Hsym HN)
    as (b0 & cin & cout & Hidx & Hq0 & Hns & Hcin & Hcout & Hsin & Hsout &
        Hdin & Hdout).
  pose proof Hsin as (_ & qin & Hqin & Hlin & _).
  pose proof Hsout as (_ & qout & Hqout & Hlout & _).
  exists b0, cin, cout, qin, qout. unfold matrix_view.
  split; [exact Hn|]. split; [exact Hb|]. split; [exact Hdiag|].
  split; [exact Hs|]. split; [exact Hd|]. split; [exact HN|].
  split; [rewrite Hsh; apply length_map|].
  split; [exact Hidx|]. split; [exact Hq0|]. split; [exact Hns|].
  split; [exact Hcin|]. split; [exact Hcout|].
  split; [exact Hqin|]. split; [exact Hqout|].
  split; [exact Hsin|]. split; [exact Hsout|].
  split; [rewrite Hlin, Hdin, Hsh | rewrite Hlout, Hdout, Hsh]; reflexivity.
Qed.

Lemma matrix_view_set (n : nat) (T : UniTensor R) (t : Tensor R)
    (b0 cin cout : Bond) (qin qout : list (list Z)) (dt : list R) :
  matrix_view n T t b0 cin cout qin qout -> length dt = length (data t) ->
  matrix_view n (set_Storage T (Dense (mkTensor (shape t) dt)))
              (mkTensor (shape t) dt) b0 cin cout qin qout.
Proof.
  intros (Hn & Hblock & Hdiag & Hs & Hd & HN & Hrank & Hidx & Hq0 & Hns &
          Hcin & Hcout & Hqin & Hqout & Hsin & Hsout & Hlin & Hlout) Hlen.
  unfold matrix_view.
  split; [exact Hn|]. split; [exact Hblock|]. split; [exact Hdiag|].
  split; [reflexivity|]. split; [cbn [data shape]; congruence|].
  split; [exact HN|]. split; [exact Hrank|].
  split; [exact Hidx|]. split; [exact Hq0|]. split; [exact Hns|].
  split; [exact Hcin|]. split; [exact Hcout|].
  split; [exact Hqin|]. split; [exact Hqout|].
  split; [exact Hsin|]. split; [exact Hsout|].
  split; [exact Hlin | exact Hlout].
Qed.

Lemma symmetric_dense_set (n : nat) (T : UniTensor R) (t : Tensor R)
    (dt : list R) :
  symmetric_dense n T -> Storage T = Dense t -> length dt = length (data t) ->
  symmetric_dense n (set_Storage T (Dense (mkTensor (shape t) dt))).
Proof.
  intros (Hwf & Hdiag & Hn & Hsym & HN) Hs Hlen.
  destruct Hwf as (Hb & Hl & HN' & t0 & Hs0 & Hd & Hsh).
  rewrite Hs in Hs0. inversion Hs0; subst t0; clear Hs0.
  unfold symmetric_dense, well_formed.
  cbn [set_Storage bonds N_inbond labels is_diag is_blockform Storage].
  split; [|split; [exact Hdiag | split; [exact Hn | split; assumption]]].
  split; [exact Hb|]. split; [exact Hl|]. split; [exact HN'|].
  eexists. split; [reflexivity|]. cbn [data shape].
  split; [congruence | exact Hsh].
Qed.

Lemma matrix_view_unique (n : nat) (T : UniTensor R) (t : Tensor R)
    (b0 cin cout cin' cout' : Bond) (qin qout qin' qout' : list (list Z)) :
  matrix_view n T t b0 cin cout qin qout ->
  GetTotalQnums T = Ok (cin', cout') ->
  qnums cin' = Some qin' -> qnums cout' = Some qout' ->
  cin' = cin /\ cout' = cout /\ qin' = qin /\ qout' = qout.
Proof.
  intros Hv Ht Hi Ho. rewrite (GetTotalQnums_view Hv) in Ht.
  inversion Ht; subst cin' cout'.
  destruct Hv as (_ & _ & _ & _ & _ & _ & _ & _ & _ & _ & _ & _ & Hqin &
                  Hqout & _).
  rewrite Hqin in Hi. rewrite Hqout in Ho.
  inversion Hi; inversion Ho; subst. auto.
Qed.


(** X14. [GetBlock] on a dense tensor with quantum numbers.  A [qnum] of the
    wrong length, a sector absent from the combined in-bond and one absent
    from the combined out-bond are refused, each with its own error.
    Otherwise the call returns a well-formed rank-2 tensor with fresh bonds
    and labels 1 and 2 whose element [(a, b)] is the stored element at the
    [a]-th row and the [b]-th column of the sector in the matrix view, that
    is, at the in-bond indices [i] and out-bond indices [j] that combine to
    that row and column. *)
Theorem GetBlock_dense_sector :
  forall (n : nat) (T : UniTensor R) (t : Tensor R) (qnum : list Z),
    symmetric_dense n T -> Storage T = Dense t ->
    exists cin cout qin qout,
      GetTotalQnums T = Ok (cin, cout) /\
      qnums cin = Some qin /\ qnums cout = Some qout /\
      (length qnum <> n -> GetBlock zero T qnum = Err GetBlockQnumLen) /\
      (length qnum = n -> Np.where_rows qin qnum = [] ->
       GetBlock zero T qnum = Err GetBlockNoSectorIn) /\
      (length qnum = n -> Np.where_rows qin qnum <> [] ->
       Np.where_rows qout qnum = [] ->
       GetBlock zero T qnum = Err GetBlockNoSectorOut) /\
      (length qnum = n -> Np.where_rows qin qnum <> [] ->
       Np.where_rows qout qnum <> [] ->
       exists B out,
         GetBlock zero T qnum = Ok B /\ Storage B = Dense out /\
         bonds B = [Bond_new (length (Np.where_rows qin qnum));
                    Bond_new (length (Np.where_rows qout qnum))] /\
         N_inbond B = 1%Z /\ labels B = [1; 2]%Z /\ well_formed B /\
         (forall a b,
             a < length (Np.where_rows qin qnum) ->
             b < length (Np.where_rows qout qnum) ->
             get zero out [a; b]
             = nth (nth a (Np.where_rows qin qnum) 0 * length qout
                    + nth b (Np.where_rows qout qnum) 0) (data t) zero) /\
         (forall a b i j,
             a < length (Np.where_rows qin qnum) ->
             b < length (Np.where_rows qout qnum) ->
             length i = Z.to_nat (N_inbond T) ->
             ravel (firstn (Z.to_nat (N_inbond T)) (shape t)) i
             = nth a (Np.where_rows qin qnum) 0 ->
             ravel (skipn (Z.to_nat (N_inbond T)) (shape t)) j
             = nth b (Np.where_rows qout qnum) 0 ->
             get zero out [a; b] = get zero t (i ++ j))).
Proof.
  intros n T t qnum Hsd Hs.
  destruct (matrix_view_exists Hsd Hs) as (c0 & cin & cout & qin & qout & Hv).
  exists cin, cout, qin, qout.
  split; [exact (GetTotalQnums_view Hv)|].
  pose proof Hv as (_ & _ & _ & _ & _ & HN & Hrank & _ & _ & _ & _ & _ & Hqin &
                    Hqout & _ & _ & _ & Hlout).
  split; [exact Hqin|]. split; [exact Hqout|].
  split; [apply (GetBlock_view_length zero Hv)|].
  split.
  { intros Hlen Hr. rewrite (GetBlock_view zero Hv qnum Hlen), Hr. reflexivity. }
  split.
  { intros Hlen Hr Hc. apply length_zero_nil in Hr.
    rewrite (GetBlock_view zero Hv qnum Hlen), Hr, Hc. reflexivity. }
  intros Hlen Hr Hc. apply length_zero_nil in Hr, Hc.
  rewrite (GetBlock_view zero Hv qnum Hlen), Hr, Hc.
  eexists. eexists. split; [reflexivity|].
  cbn [Storage bonds N_inbond labels].
  split; [reflexivity|]. split; [reflexivity|].
  split; [reflexivity|]. split; [reflexivity|].
  split.
  { unfold well_formed.
    cbn [Storage bonds N_inbond labels is_diag is_blockform].
    split; [reflexivity|]. split; [reflexivity|].
    split; [unfold len; simpl; lia|].
    eexists. split; [reflexivity|]. cbn [data shape]. split; [|reflexivity].
    rewrite (length_flat_map_uniform _ _ (m := length (Np.where_rows qout qnum))).
    - simpl. lia.
    - intros x _. apply length_map. }
  assert (Hget : forall a b,
             a < length (Np.where_rows qin qnum) ->
             b < length (Np.where_rows qout qnum) ->
             get zero
                 (mkTensor [length (Np.where_rows qin qnum);
                            length (Np.where_rows qout qnum)]
                    (flat_map
                       (fun r => map (fun c => nth (r * length qout + c)
                                                   (data t) zero)
                                     (Np.where_rows qout qnum))
                       (Np.where_rows qin qnum))) [a; b]
             = nth (nth a (Np.where_rows qin qnum) 0 * length qout
                    + nth b (Np.where_rows qout qnum) 0) (data t) zero).
  { intros a b Ha Hb. apply get_ix; assumption. }
  split; [exact Hget|].
  intros a b i j Ha Hb Hi Hri Hrj. rewrite (Hget a b Ha Hb).
  unfold get. f_equal.
  rewrite <- Hri, <- Hrj, Hlout.
  replace (ravel (shape t) (i ++ j))
    with (ravel (firstn (Z.to_nat (N_inbond T)) (shape t)
                 ++ skipn (Z.to_nat (N_inbond T)) (shape t)) (i ++ j))
    by (rewrite firstn_skipn; reflexivity).
  rewrite ravel_app; [reflexivity|].
  rewrite length_firstn. unfold len in HN. lia.
Qed.

(** X15. [PutBlock] followed by [GetBlock] on a dense tensor with quantum
    numbers: a block of the shape of the sector, given as an array, a torch
    tensor or a dense UniTensor, is stored; the tensor keeps its bonds,
    labels, [N_inbond] and shape and stays well formed, and [GetBlock] of the
    same sector returns exactly the elements that were put. *)
Theorem PutBlock_GetBlock_dense :
  forall (n : nat) (T : UniTensor R) (t : Tensor R) (qnum : list Z)
         (block : BlockArg R) (v : Tensor R)
         (cin cout : Bond) (qin qout : list (list Z)),
    symmetric_dense n T -> Storage T = Dense t -> length qnum = n ->
    GetTotalQnums T = Ok (cin, cout) ->
    qnums cin = Some qin -> qnums cout = Some qout ->
    Np.where_rows qin qnum <> [] -> Np.where_rows qout qnum <> [] ->
    dense_block_value block = Ok v ->
    shape v = [length (Np.where_rows qin qnum);
               length (Np.where_rows qout qnum)] ->
    length (data v) = Np.prod (shape v) ->
    exists T' t' B,
      PutBlock zero block qnum T = (T', Ok tt) /\
      T' = set_Storage T (Dense t') /\ shape t' = shape t /\
      symmetric_dense n T' /\
      GetBlock zero T' qnum = Ok B /\ Storage B = Dense v /\
      bonds B = [Bond_new (length (Np.where_rows qin qnum));
                 Bond_new (length (Np.where_rows qout qnum))].
Proof.
  intros n T t qnum block v cin cout qin qout Hsd Hs Hlen Ht Hi Ho Hr Hc Hblk
         Hshape Hdv.
  destruct (matrix_view_exists Hsd Hs) as (c0 & cin0 & cout0 & qin0 & qout0 & Hv).
  destruct (matrix_view_unique Hv Ht Hi Ho) as (E1 & E2 & E3 & E4).
  subst cin0 cout0 qin0 qout0.
  rewrite (PutBlock_view zero Hv block qnum Hlen Hr Hc), Hblk.
  rewrite (@ix_put_ok R zero _ v (length qin) (length qout));
    [| reflexivity | apply in_range_where | apply in_range_where | exact Hshape].
  cbn [data].
  set (dt := map _ (seq 0 (length (data t)))).
  assert (Hdt : length dt = length (data t))
    by (unfold dt; rewrite length_map, length_seq; reflexivity).
  exists (set_Storage T (Dense (mkTensor (shape t) dt))), (mkTensor (shape t) dt).
  pose proof (matrix_view_set dt Hv Hdt) as Hv'.
  rewrite (GetBlock_view zero Hv' qnum Hlen).
  pose proof Hr as Hr0. pose proof Hc as Hc0.
  apply length_zero_nil in Hr0, Hc0. rewrite Hr0, Hc0.
  eexists. split; [reflexivity|]. split; [reflexivity|]. split; [reflexivity|].
  split; [apply symmetric_dense_set; assumption|].
  split; [reflexivity|]. cbn [Storage bonds data]. split; [|reflexivity].
  unfold dt. rewrite (@ix_get_put R zero t v (length qin) (length qout)).
  - destruct v as [sv dv]. cbn [shape data] in *. rewrite Hshape. reflexivity.
  - apply (view_size Hv).
  - apply in_range_where.
  - apply in_range_where.
  - apply where_rows_NoDup.
  - apply where_rows_NoDup.
  - rewrite Hdv, Hshape. simpl. lia.
Qed.

(** X16. [PutBlock] on a dense tensor with quantum numbers touches one
    sector only: after a block was put for [qnum], [GetBlock] of any other
    sector answers as it did before. *)
Theorem PutBlock_other_sector :
  forall (n : nat) (T : UniTensor R) (t : Tensor R) (qnum q' : list Z)
         (block : BlockArg R) (v : Tensor R)
         (cin cout : Bond) (qin qout : list (list Z)),
    symmetric_dense n T -> Storage T = Dense t -> length qnum = n ->
    GetTotalQnums T = Ok (cin, cout) ->
    qnums cin = Some qin -> qnums cout = Some qout ->
    Np.where_rows qin qnum <> [] -> Np.where_rows qout qnum <> [] ->
    dense_block_value block = Ok v ->
    shape v = [length (Np.where_rows qin qnum);
               length (Np.where_rows qout qnum)] ->
    q' <> qnum ->
    snd (PutBlock zero block qnum T) = Ok tt /\
    GetBlock zero (fst (PutBlock zero block qnum T)) q' = GetBlock zero T q'.
Proof.
  intros n T t qnum q' block v cin cout qin qout Hsd Hs Hlen Ht Hi Ho Hr Hc
         Hblk Hshape Hne.
  destruct (matrix_view_exists Hsd Hs) as (c0 & cin0 & cout0 & qin0 & qout0 & Hv).
  destruct (matrix_view_unique Hv Ht Hi Ho) as (E1 & E2 & E3 & E4).
  subst cin0 cout0 qin0 qout0.
  rewrite (PutBlock_view zero Hv block qnum Hlen Hr Hc), Hblk.
  rewrite (@ix_put_ok R zero _ v (length qin) (length qout));
    [| reflexivity | apply in_range_where | apply in_range_where | exact Hshape].
  cbn [data fst snd]. split; [reflexivity|].
  set (dt := map _ (seq 0 (length (data t)))).
  assert (Hdt : length dt = length (data t))
    by (unfold dt; rewrite length_map, length_seq; reflexivity).
  pose proof (matrix_view_set dt Hv Hdt) as Hv'.
  destruct (Nat.eq_dec (length q') n) as [Hlen'|Hlen'].
  - rewrite (GetBlock_view zero Hv' q' Hlen'), (GetBlock_view zero Hv q' Hlen').
    cbn [data]. unfold dt.
    rewrite (@ix_put_frame R zero t v (length qin) (length qout));
      [reflexivity | | | |].
    + apply (view_size Hv).
    + apply in_range_where.
    + apply in_range_where.
    + intros r H1 H2. apply where_rows_In in H1, H2. congruence.
  - rewrite (GetBlock_view_length zero Hv' q' Hlen'),
            (GetBlock_view_length zero Hv q' Hlen'). reflexivity.
Qed.

End DenseBlockTheorems.

(** ** The metadata of a block-form tensor *)

(** what the normalisation of the bonds leaves: each bond keeps its dimension
    and its quantum-number vectors, now in descending order *)
Lemma sort_qnums_all (bonds0 sorted : list Bond) :
  Forall table_bond bonds0 ->
  mapM sort_qnums bonds0 = Ok sorted ->
  Forall2 (fun b s => dim s = dim b /\
                      exists q q', qnums b = Some q /\ qnums s = Some q' /\
                                   Permutation q q' /\ descending q')
          bonds0 sorted.
Proof.
  intros Htab Hm. apply mapM_Forall2 in Hm.
  induction Hm as [|b s bs ss Hb _ IH]; [constructor|].
  inversion Htab as [|? ? Hrow Htab']; subst.
  constructor; [|apply IH; assumption].
  assert (Hq : exists q, qnums b = Some q /\ rectangular q).
  { unfold sort_qnums in Hb. inv_bind Hb.
    exists x. split; [assumption|].
    assert (Hc : 0 < Np.ncols x).
    { unfold Np.lexsort, Np.transpose in Hb0.
      destruct (Np.ncols x); [discriminate | lia]. }
    split; [|split; [assumption | apply Hrow; assumption]].
    intros ->. simpl in Hc. lia. }
  destruct Hq as (q & Hq & Hne & Hcols & Hrect).
  rewrite (sort_qnums_rows b Hq Hcols) in Hb. inversion Hb; subst s. simpl.
  destruct (descending_order_sorted Hrect) as [Hperm Hsorted].
  split; [reflexivity|]. eexists q, _. auto.
Qed.

Section BlockFormMetadata.

Context {R : Type} (zero : R).

(** C1. A tensor built by the block-form constructor (no storage supplied,
    bonds with tables of quantum numbers, [1 <= N_inbond <= rank - 1], which
    the checked constructor enforces) keeps the bonds, each with its
    quantum-number vectors rearranged into descending lexicographic order.
    With [cb_in] the combination of all the in-bonds and [cb_out] that of all
    the out-bonds of these sorted bonds, [_BlockQnums] is exactly
    [CommonRows(unique(cb_in), unique(cb_out))]: no vector twice, and a vector
    is listed iff it occurs in both combined bonds.  For block [i],
    [_BlockMapper_in[i]] holds exactly the rows of [cb_in] whose vector is
    [_BlockQnums[i]], [_BlockMapper_out[i]] exactly the columns of [cb_out],
    and the block is the zero matrix of that many rows and columns. *)
Theorem init_blockform_metadata :
  forall bonds0 Nin labels0 check isdiag BlockInfo (T : UniTensor R),
    __init__ zero bonds0 Nin labels0 None check isdiag true BlockInfo = Ok T ->
    check = true \/ (isdiag = false /\ (1 <= Nin <= len bonds0 - 1)%Z) ->
    Forall table_bond bonds0 ->
    exists sorted b_in r_in b_out r_out qin qout m_in m_out blocks,
      bonds T = sorted /\ N_inbond T = Nin /\
      (1 <= Nin <= len sorted - 1)%Z /\
      Forall2 (fun b s => dim s = dim b /\
                          exists q q', qnums b = Some q /\ qnums s = Some q' /\
                                       Permutation q q' /\ descending q')
              bonds0 sorted /\
      firstn (Z.to_nat Nin) sorted = b_in :: r_in /\
      skipn (Z.to_nat Nin) sorted = b_out :: r_out /\
      let cb_in := Bond_combine b_in r_in in
      let cb_out := Bond_combine b_out r_out in
      GetTotalQnums T = Ok (cb_in, cb_out) /\
      qnums cb_in = Some qin /\ qnums cb_out = Some qout /\
      let C := _fx_GetCommRows (GetUniqueQnums cb_in) (GetUniqueQnums cb_out) in
      _BlockQnums T = Some C /\ C <> [] /\ NoDup C /\
      (forall q, In q C <-> In q qin /\ In q qout) /\
      _BlockMapper_in T = Some m_in /\ _BlockMapper_out T = Some m_out /\
      Storage T = BlockList blocks /\
      length m_in = length C /\ length m_out = length C /\
      length blocks = length C /\
      forall i q, nth_error C i = Some q ->
        exists rows cols blk,
          nth_error m_in i = Some rows /\ nth_error m_out i = Some cols /\
          nth_error blocks i = Some blk /\
          sector_ok zero qin qout q rows cols blk.
Proof.
  intros bonds0 Nin labels0 check isdiag BlockInfo T H Hflags Htab.
  assert (Hflags' : check = true \/ isdiag = false)
    by (destruct Hflags as [Hc|[Hc _]]; [left | right]; assumption).
  destruct (@init_blockform_inv R zero _ _ _ _ _ _ _ H Hflags') as
      (sorted & cb_in & cb_out & qin & qout & Hd & HN & Hm & Htq & Hqi & Hqo
       & HC & HT).
  assert (Hlen : len sorted = len bonds0)
    by (unfold len; rewrite (mapM_length _ _ Hm); reflexivity).
  assert (Hrange : (1 <= Nin <= len sorted - 1)%Z).
  { rewrite Hlen. destruct Hflags as [Hc|[_ Hr]]; [apply HN, Hc | exact Hr]. }
  (* the combined bonds *)
  destruct sorted as [|b0 r]; [unfold len in Hrange; simpl in Hrange; lia|].
  assert (Hnat : 1 <= Z.to_nat Nin <= length r).
  { unfold len in Hrange. cbn [length] in Hrange. lia. }
  destruct (skipn (Z.to_nat Nin) (b0 :: r)) as [|b1 r1] eqn:Hskip.
  { apply (f_equal (@length _)) in Hskip. rewrite length_skipn in Hskip.
    cbn [length] in Hskip. lia. }
  assert (Hfirst : firstn (Z.to_nat Nin) (b0 :: r)
                   = b0 :: firstn (Z.to_nat Nin - 1) r).
  { destruct (Z.to_nat Nin) as [|k] eqn:E; [lia|].
    simpl. rewrite Nat.sub_0_r. reflexivity. }
  assert (Hcin : cb_in = Bond_combine b0 (firstn (Z.to_nat Nin - 1) r)
                 /\ cb_out = Bond_combine b1 r1).
  { unfold total_qnums in Htq. rewrite Py_index_0_cons in Htq.
    cbn [bind] in Htq. inv_bind Htq.
    rewrite combined_in_eq in Htq by (unfold len; cbn [length]; lia).
    rewrite (@combined_out_eq (b0 :: r) Nin b1 r1) in Hb
      by (try exact Hskip; unfold len; cbn [length]; lia).
    inversion Hb; subst x. inversion Htq. split; reflexivity. }
  destruct Hcin as [Ein Eout]. subst cb_in cb_out.
  subst T. cbn [bonds N_inbond Storage _BlockMapper_in _BlockMapper_out
                _BlockQnums].
  exists (b0 :: r), b0, (firstn (Z.to_nat Nin - 1) r), b1, r1, qin, qout.
  eexists _, _, _.
  split; [reflexivity|]. split; [reflexivity|]. split; [exact Hrange|].
  split; [apply sort_qnums_all; assumption|].
  split; [exact Hfirst|]. split; [exact Hskip|].
  cbv zeta.
  split; [unfold GetTotalQnums; exact Htq|].
  split; [exact Hqi|]. split; [exact Hqo|].
  split; [reflexivity|]. split; [exact HC|].
  split; [apply CommRows_NoDup|].
  split.
  { intros q. rewrite CommRows_In.
    rewrite (GetUniqueQnums_In _ _ Hqi), (GetUniqueQnums_In _ _ Hqo). tauto. }
  split; [reflexivity|]. split; [reflexivity|]. split; [reflexivity|].
  split; [apply length_map|]. split; [apply length_map|].
  split; [apply length_map|].
  intros i q Hq.
  exists (Np.where_rows qin q), (Np.where_rows qout q),
         (zeros zero [length (Np.where_rows qin q);
                      length (Np.where_rows qout q)]).
  repeat split.
  + apply nth_error_map_Some; eauto.
  + apply nth_error_map_Some; eauto.
  + apply nth_error_map_Some; eauto.
  + apply where_rows_NoDup.
  + apply where_rows_NoDup.
  + apply where_rows_In.
  + apply where_rows_In.
  + apply where_rows_In.
  + apply where_rows_In.
Qed.

End BlockFormMetadata.

(** ** Block access on a block-form tensor with one channel *)

Lemma find_block_single (q : Z) (bq : list (list Z)) (n s : nat) :
  Forall (fun row => length row = 1) bq -> s + n <= length bq ->
  exists o, find_block [q] bq s n = Ok o /\
            match o with
            | Some k => s <= k < s + n /\ nth_error bq k = Some [q]
            | None => forall k, s <= k < s + n -> nth_error bq k <> Some [q]
            end.
Proof.
  intros Hrows. revert s. induction n as [|n IH]; intros s Hlen.
  - exists None. split; [reflexivity|]. intros k Hk. lia.
  - cbn [find_block].
    destruct (nth_error bq s) as [row|] eqn:E.
    2: { apply nth_error_None in E. lia. }
    cbn [opt_err bind].
    assert (Hrow : length row = 1).
    { rewrite Forall_forall in Hrows. apply Hrows.
      apply (nth_error_In _ _ E). }
    destruct row as [|x [|y row]]; try discriminate.
    cbn [Np.array_eq length Nat.eqb combine map fst snd Np.truth bind].
    destruct (Z.eqb_spec q x) as [->|Hne].
    + exists (Some s). split; [reflexivity|]. split; [lia | assumption].
    + destruct (IH (S s) ltac:(lia)) as (o & Ho & Hspec).
      exists o. split; [exact Ho|].
      destruct o as [k|].
      * destruct Hspec as [Hk Hnth]. split; [lia | assumption].
      * intros k Hk. destruct (Nat.eq_dec k s) as [->|Hks].
        -- rewrite E. congruence.
        -- apply Hspec. lia.
Qed.

Section BlockFormSingle.

Context {R : Type} (zero : R).

Lemma PutBlock_blockform_eq (T : UniTensor R) (blocks : list (Tensor R))
    (bq : list (list Z)) (q : Z) (block : BlockArg R) :
  blockform_single T blocks bq ->
  PutBlock zero block [q] T
  = match find_block [q] bq 0 (length blocks) with
    | Ok (Some s) =>
        match put_block_at blocks s block with
        | Ok blocks' => (set_Storage T (BlockList blocks'), Ok tt)
        | Err e => (T, Err e)
        end
    | Ok None => (T, Err PutBlockNoBlock)
    | Err e => (T, Err e)
    end.
Proof.
  intros (Hdiag & Hblock & (b0 & r & q0 & Hbonds & Hq0 & Hn) & Hs & Hbq & _).
  unfold PutBlock, mbind, mget, mlift, mraise, mput.
  rewrite Hbonds, Py_index_0_cons, Hq0. cbn [is_none].
  unfold nsym. rewrite Hq0, Hn. cbn [length Nat.eqb negb guard].
  rewrite Hdiag, Hblock. cbn [guard]. rewrite Hs, Hbq. cbn [opt_err].
  destruct (find_block [q] bq 0 (length blocks)) as [[s|]|e]; reflexivity.
Qed.

Lemma GetBlock_blockform_eq (T : UniTensor R) (blocks : list (Tensor R))
    (bq : list (list Z)) (q : Z) :
  blockform_single T blocks bq ->
  GetBlock zero T [q]
  = match find_block [q] bq 0 (length blocks) with
    | Ok (Some s) =>
        blk <- opt_err (nth_error blocks s) IndexError ;; block_tensor zero blk
    | Ok None => Err GetBlockNoBlock
    | Err e => Err e
    end.
Proof.
  intros (Hdiag & Hblock & (b0 & r & q0 & Hbonds & Hq0 & Hn) & Hs & Hbq & _).
  unfold GetBlock. rewrite Hdiag, Hbonds, Py_index_0_cons. cbn [guard bind].
  rewrite Hq0. cbn [is_none]. unfold nsym. rewrite Hq0, Hn.
  cbn [length Nat.eqb negb guard bind].
  rewrite Hblock, Hs, Hbq. cbn [opt_err bind].
  destruct (find_block [q] bq 0 (length blocks)) as [[s|]|e]; reflexivity.
Qed.

Lemma find_block_present (bq : list (list Z)) (q : Z) (n : nat) :
  Forall (fun row => length row = 1) bq -> length bq = n -> In [q] bq ->
  exists s, find_block [q] bq 0 n = Ok (Some s) /\ s < n /\
            nth_error bq s = Some [q].
Proof.
  intros Hrows Hlen Hin.
  destruct (@find_block_single q bq n 0 Hrows ltac:(lia)) as ([s|] & Hf & Hspec).
  - exists s. destruct Hspec as [Hs Hnth]. split; [exact Hf|]. split; [lia | exact Hnth].
  - exfalso. apply In_nth_error in Hin. destruct Hin as (k & Hk).
    apply (Hspec k); [|exact Hk].
    assert (k < length bq) by (apply nth_error_Some; congruence). lia.
Qed.

Lemma find_block_absent (bq : list (list Z)) (q : Z) (n : nat) :
  Forall (fun row => length row = 1) bq -> length bq = n -> ~ In [q] bq ->
  find_block [q] bq 0 n = Ok None.
Proof.
  intros Hrows Hlen Hnin.
  destruct (@find_block_single q bq n 0 Hrows ltac:(lia)) as ([s|] & Hf & Hspec).
  - exfalso. apply Hnin. destruct Hspec as [_ Hnth].
    apply (nth_error_In _ _ Hnth).
  - exact Hf.
Qed.

(** X17. Block access on a block-form tensor with a single channel of
    quantum numbers.  A quantum number without a block is refused by
    [PutBlock] and [GetBlock], a torch tensor is refused as a block, and so
    is an array of another shape than the block; the tensor is then left as
    it was.  An array of the shape of the block of [q] replaces that block
    and no other: [GetBlock] of [q] then returns the array as a rank-2
    tensor, and [GetBlock] of any other quantum number answers as before. *)
Theorem PutBlock_GetBlock_blockform_single :
  forall (T : UniTensor R) (blocks : list (Tensor R)) (bq : list (list Z))
         (q : Z) (b : Tensor R),
    blockform_single T blocks bq ->
    (~ In [q] bq ->
     (forall block, PutBlock zero block [q] T = (T, Err PutBlockNoBlock)) /\
     GetBlock zero T [q] = Err GetBlockNoBlock) /\
    (In [q] bq ->
     exists s old,
       nth_error bq s = Some [q] /\ nth_error blocks s = Some old /\
       PutBlock zero (TorchTensor b) [q] T = (T, Err PutBlockBadType) /\
       (shape b <> shape old ->
        PutBlock zero (Ndarray b) [q] T = (T, Err PutBlockSizeMismatch)) /\
       (shape b = shape old ->
        exists T' B,
          PutBlock zero (Ndarray b) [q] T = (T', Ok tt) /\
          T' = set_Storage T (BlockList (list_set blocks s b)) /\
          blockform_single T' (list_set blocks s b) bq /\
          GetBlock zero T' [q] = Ok B /\ Storage B = Dense b /\
          (forall q', q' <> q ->
                      GetBlock zero T' [q'] = GetBlock zero T [q']))).
Proof.
  intros T blocks bq q b Hbf.
  pose proof Hbf as (Hdiag & Hblock & Hb0 & Hs & Hbq & Hlen & Hrows & Hshapes).
  split.
  - intros Hnin. split.
    + intros block. rewrite (PutBlock_blockform_eq q block Hbf).
      rewrite (@find_block_absent bq q (length blocks) Hrows Hlen Hnin). reflexivity.
    + rewrite (GetBlock_blockform_eq q Hbf).
      rewrite (@find_block_absent bq q (length blocks) Hrows Hlen Hnin). reflexivity.
  - intros Hin.
    destruct (@find_block_present bq q (length blocks) Hrows Hlen Hin) as (s & Hf & Hlt & Hnth).
    destruct (nth_error blocks s) as [old|] eqn:Hold.
    2: { apply nth_error_None in Hold. lia. }
    exists s, old. split; [exact Hnth|]. split; [exact Hold|].
    split.
    { rewrite (PutBlock_blockform_eq q (TorchTensor b) Hbf), Hf.
      unfold put_block_at. rewrite Hold. reflexivity. }
    split.
    { intros Hne. rewrite (PutBlock_blockform_eq q (Ndarray b) Hbf), Hf.
      unfold put_block_at. rewrite Hold. cbn [opt_err bind].
      unfold shape_eqb.
      destruct (list_eq_dec Nat.eq_dec (shape b) (shape old)); [contradiction|].
      reflexivity. }
    intros Hsh.
    assert (Hbf' : blockform_single
                     (set_Storage T (BlockList (list_set blocks s b)))
                     (list_set blocks s b) bq).
    { unfold blockform_single.
      cbn [set_Storage is_diag is_blockform bonds Storage _BlockQnums].
      split; [exact Hdiag|]. split; [exact Hblock|]. split; [exact Hb0|].
      split; [reflexivity|]. split; [exact Hbq|].
      split; [rewrite list_set_length; exact Hlen|]. split; [exact Hrows|].
      apply Forall_forall. intros x Hx. apply list_set_In in Hx.
      rewrite Forall_forall in Hshapes. destruct Hx as [->|Hx].
      - rewrite Hsh. apply Hshapes. apply (nth_error_In _ _ Hold).
      - apply Hshapes. exact Hx. }
    assert (Hb2 : exists m k, shape b = [m; k]).
    { rewrite Forall_forall in Hshapes.
      pose proof (Hshapes old (nth_error_In _ _ Hold)) as H2. rewrite <- Hsh in H2.
      destruct (shape b) as [|m [|k [|x l]]]; try discriminate. eauto. }
    destruct Hb2 as (m & k & Hmk).
    eexists. eexists.
    split.
    { rewrite (PutBlock_blockform_eq q (Ndarray b) Hbf), Hf.
      unfold put_block_at. rewrite Hold. cbn [opt_err bind].
      rewrite Hsh, shape_eqb_refl. reflexivity. }
    split; [reflexivity|]. split; [exact Hbf'|].
    split.
    { rewrite (GetBlock_blockform_eq q Hbf'), list_set_length, Hf.
      rewrite list_set_nth_error by lia. cbn [opt_err bind].
      apply (block_tensor_ok zero b Hmk). }
    split; [reflexivity|].
    intros q' Hne.
    rewrite (GetBlock_blockform_eq q' Hbf'), (GetBlock_blockform_eq q' Hbf).
    rewrite list_set_length.
    destruct (@find_block_single q' bq (length blocks) 0 Hrows ltac:(lia))
      as ([s'|] & Hf' & Hspec); rewrite Hf'; [|reflexivity].
    destruct Hspec as [_ Hnth'].
    rewrite list_set_nth_error_other; [reflexivity|].
    intros ->. rewrite Hnth in Hnth'. inversion Hnth'. congruence.
Qed.

End BlockFormSingle.

(** ** Combining bonds *)

Lemma first_index_In (x : Z) (l : list Z) :
  In x l ->
  Py.first_index x l < length l /\ nth (Py.first_index x l) l 0%Z = x.
Proof.
  induction l as [|y l IH]; simpl; [tauto|].
  intros Hin. destruct (Z.eqb_spec x y) as [->|Hne].
  - split; [lia | reflexivity].
  - destruct Hin as [->|Hin]; [congruence|].
    destruct (IH Hin). split; [lia | assumption].
Qed.

Lemma first_index_nth (l : list Z) (i : nat) :
  NoDup l -> i < length l -> Py.first_index (nth i l 0%Z) l = i.
Proof.
  revert i. induction l as [|y l IH]; intros i Hnd Hi; simpl in *; [lia|].
  inversion Hnd as [|? ? Hy Hnd']; subst.
  destruct i as [|i].
  - rewrite Z.eqb_refl. reflexivity.
  - destruct (Z.eqb_spec (nth i l 0%Z) y) as [E|_].
    + exfalso. apply Hy. rewrite <- E. apply nth_In. lia.
    + rewrite IH by (auto; lia). reflexivity.
Qed.

Lemma filter_sorted {A} (Rel : A -> A -> Prop) (f : A -> bool) (l : list A) :
  StronglySorted Rel l -> StronglySorted Rel (filter f l).
Proof.
  induction 1 as [|x l Hs IH Hall]; simpl; [constructor|].
  destruct (f x); [|assumption].
  constructor; [assumption|].
  apply Forall_forall. intros y Hy. apply filter_In in Hy.
  rewrite Forall_forall in Hall. apply Hall, Hy.
Qed.

(** the positions [np.intersect1d] reports for labels that are all present *)
Lemma intersect1d_positions (ls lbls : list Z) :
  NoDup ls -> NoDup lbls -> incl lbls ls ->
  exists same xs,
    Np.intersect1d ls lbls
    = (same, xs, map (fun x => Py.first_index x lbls) same) /\
    Permutation same lbls /\ StronglySorted Z.lt same /\
    NoDup xs /\ Forall (fun i => i < length ls) xs /\
    map (fun i => nth i ls 0%Z) xs = same /\
    (forall i, i < length ls -> Py.memN i xs = Py.memZ (nth i ls 0%Z) lbls).
Proof.
  intros Hls Hlb Hincl.
  set (same := filter (fun x => Py.memZ x lbls) (Np.unique ls)).
  exists same, (map (fun x => Py.first_index x ls) same).
  assert (Hin : forall x, In x same <-> In x lbls).
  { intros x. unfold same. rewrite filter_In, unique_In_iff, memZ_In.
    split; [tauto|]. intros H. split; [apply Hincl|]; assumption. }
  assert (Hsorted : StronglySorted Z.lt same).
  { apply filter_sorted, unique_sorted. }
  assert (Hsub : forall x, In x same -> In x ls).
  { intros x Hx. apply Hincl, Hin, Hx. }
  split; [reflexivity|].
  split; [apply NoDup_Permutation; [apply sorted_lt_NoDup|..]; assumption|].
  split; [assumption|].
  split.
  { apply NoDup_map_NoDup_ForallPairs; [|apply sorted_lt_NoDup; assumption].
    intros x y Hx Hy E.
    destruct (first_index_In _ _ (Hsub x Hx)) as [_ <-].
    destruct (first_index_In _ _ (Hsub y Hy)) as [_ <-].
    rewrite E. reflexivity. }
  split.
  { apply Forall_forall. intros i Hi. apply in_map_iff in Hi.
    destruct Hi as (x & <- & Hx). apply first_index_In, Hsub, Hx. }
  split.
  { rewrite map_map. rewrite <- (map_id same) at 2.
    apply map_ext_in. intros x Hx. apply first_index_In, Hsub, Hx. }
  intros i Hi.
  destruct (Py.memZ (nth i ls 0%Z) lbls) eqn:E.
  - apply memN_In, in_map_iff. exists (nth i ls 0%Z).
    split; [apply first_index_nth; assumption|].
    apply Hin, memZ_In, E.
  - apply not_true_is_false. intros H. apply memN_In, in_map_iff in H.
    destruct H as (x & Hx & Hxs).
    destruct (first_index_In _ _ (Hsub x Hxs)) as [_ Hnth].
    rewrite Hx in Hnth. rewrite Hnth in E.
    apply Hin, memZ_In in Hxs. congruence.
Qed.

Lemma filter_map_comm {A B} (f : B -> bool) (h : A -> B) (l : list A) :
  filter f (map h l) = map h (filter (fun x => f (h x)) l).
Proof.
  induction l as [|x l IH]; simpl; [reflexivity|].
  destruct (f (h x)); simpl; rewrite IH; reflexivity.
Qed.

Lemma map_nth_filter_seq {A B} (g : A -> bool) (da : A) (db : B)
    (ls : list A) (bs : list B) (m : nat) :
  length bs = length ls -> m <= length ls ->
  map (fun i => nth i bs db) (filter (fun i => g (nth i ls da)) (seq 0 m))
  = map snd (filter (fun p => g (fst p)) (firstn m (combine ls bs))).
Proof.
  revert bs m. induction ls as [|a ls IH]; intros [|b bs] m Hlen Hm;
    simpl in *; try discriminate.
  - replace m with 0 by lia. reflexivity.
  - destruct m as [|m]; [reflexivity|].
    cbn [seq filter firstn nth]. rewrite <- seq_shift, filter_map_comm.
    cbn [fst]. destruct (g a); cbn [map snd nth];
      rewrite ?map_map; cbn [nth]; rewrite IH by lia; reflexivity.
Qed.

Lemma map_nth_filter_seq1 {A} (g : A -> bool) (da : A) (ls : list A) (m : nat) :
  m <= length ls ->
  map (fun i => nth i ls da) (filter (fun i => g (nth i ls da)) (seq 0 m))
  = filter g (firstn m ls).
Proof.
  revert m. induction ls as [|a ls IH]; intros m Hm; simpl in *.
  - replace m with 0 by lia. reflexivity.
  - destruct m as [|m]; [reflexivity|].
    cbn [seq filter firstn nth]. rewrite <- seq_shift, filter_map_comm.
    destruct (g a); cbn [map nth];
      rewrite ?map_map; cbn [nth]; rewrite IH by lia; reflexivity.
Qed.

Lemma prod_Permutation (l l' : list nat) :
  Permutation l l' -> Np.prod l = Np.prod l'.
Proof.
  induction 1; simpl; lia.
Qed.

Lemma filter_length_Permutation {A} (f : A -> bool) (l l' : list A) :
  Permutation l l' -> length (filter f l) = length (filter f l').
Proof.
  induction 1 as [|x l l' _ IH|x y l|l l' l'' _ IH1 _ IH2]; simpl;
    try reflexivity.
  - destruct (f x); simpl; rewrite IH; reflexivity.
  - destruct (f x), (f y); reflexivity.
  - congruence.
Qed.

Lemma fold_count_in (N : Z) (l : list nat) (n0 : Z) :
  fold_left (fun n x => (n - int_of_bool (Z.of_nat x <? N)%Z)%Z) l n0
  = (n0 - Z.of_nat (length (filter (fun x => (Z.of_nat x <? N)%Z) l)))%Z.
Proof.
  revert n0. induction l as [|x l IH]; intros n0; simpl; [lia|].
  rewrite IH. destruct (Z.of_nat x <? N)%Z; simpl; lia.
Qed.

Lemma filter_below_seq (N : Z) (n : nat) :
  (0 <= N <= Z.of_nat n)%Z ->
  filter (fun x => (Z.of_nat x <? N)%Z) (seq 0 n) = seq 0 (Z.to_nat N).
Proof.
  intros HN. rewrite (@filter_seq_below _ n 0 (Z.to_nat N)).
  - f_equal. lia.
  - lia.
  - intros i Hi. destruct (Z.ltb_spec (Z.of_nat i) N);
      destruct (Nat.ltb_spec i (Z.to_nat N)); try reflexivity; lia.
Qed.

(** the positions a combination keeps, by label *)
Lemma setdiff_by_label (ls lbls : list Z) (xs : list nat) :
  (forall i, i < length ls -> Py.memN i xs = Py.memZ (nth i ls 0%Z) lbls) ->
  Np.setdiff1d_arange (length ls) xs
  = filter (fun i => negb (Py.memZ (nth i ls 0%Z) lbls)) (seq 0 (length ls)).
Proof.
  intros H. unfold Np.setdiff1d_arange. apply filter_ext_in.
  intros i Hi. apply in_seq in Hi. rewrite H by lia. reflexivity.
Qed.

Section Combine.

Context {R : Type} (zero : R).

Lemma length_data_permute (t : Tensor R) (m : list nat) :
  length (data (permute zero t m))
  = Np.prod (map (fun i => nth i (shape t) 0) m).
Proof.
  unfold permute. cbn [data]. rewrite length_map. apply length_all_indices.
Qed.

(** positions with different names hold different objects *)
Lemma same_object_distinct (objs : list nat) (i j : nat) :
  NoDup objs -> same_object objs i j = (i =? j).
Proof.
  intros Hnd. unfold same_object.
  destruct (Nat.eqb_spec i j) as [E|N]; [reflexivity|]. simpl.
  destruct (nth_error objs i) as [p|] eqn:Ei; [|reflexivity].
  destruct (nth_error objs j) as [q|] eqn:Ej; [|reflexivity].
  destruct (Nat.eqb_spec p q) as [E|_]; [|reflexivity].
  exfalso. apply N. subst q.
  apply (proj1 (NoDup_nth_error objs) Hnd).
  - apply nth_error_Some. congruence.
  - congruence.
Qed.

Lemma store_above (bs : list Bond) (s k : nat) (v : Bond) :
  k < s ->
  map (fun p => if fst p =? k then v else snd p)
      (combine (seq s (length bs)) bs)
  = bs.
Proof.
  revert s. induction bs as [|b bs IH]; intros s Hk; simpl; [reflexivity|].
  replace (s =? k) with false by (symmetry; apply Nat.eqb_neq; lia).
  f_equal. apply IH. lia.
Qed.

Lemma store_at_offset (bs : list Bond) (s x : nat) (v : Bond) :
  map (fun p => if fst p =? s + x then v else snd p)
      (combine (seq s (length bs)) bs)
  = list_set bs x v.
Proof.
  revert s x. induction bs as [|b bs IH]; intros s x; simpl.
  - destruct x; reflexivity.
  - destruct x as [|x]; simpl.
    + rewrite Nat.add_0_r, Nat.eqb_refl. f_equal.
      apply store_above. lia.
    + replace (s =? s + S x) with false
        by (symmetry; apply Nat.eqb_neq; lia).
      f_equal. replace (s + S x) with (S s + x) by lia. apply IH.
Qed.

(** on separate objects an update in place is an update of one position *)
Lemma store_object_distinct (objs : list nat) (bs : list Bond) (x : nat)
    (v : Bond) :
  NoDup objs -> store_object objs bs x v = list_set bs x v.
Proof.
  intros Hnd. unfold store_object.
  rewrite <- (store_at_offset bs 0 x v). apply map_ext.
  intros [i y]. simpl. rewrite same_object_distinct by assumption.
  reflexivity.
Qed.

Lemma list_set_twice {A} (l : list A) (k : nat) (x y : A) :
  list_set (list_set l k x) k y = list_set l k y.
Proof.
  revert k. induction l as [|h l IH]; intros [|k]; simpl; try reflexivity.
  rewrite IH. reflexivity.
Qed.

Lemma list_set_nth_other {A} (l : list A) (k j : nat) (x d : A) :
  j <> k -> nth j (list_set l k x) d = nth j l d.
Proof.
  revert k j. induction l as [|h l IH]; intros [|k] [|j] H; simpl; auto;
    try congruence.
Qed.

Lemma list_set_nth_same {A} (l : list A) (k : nat) (x d : A) :
  k < length l -> nth k (list_set l k x) d = x.
Proof.
  revert k. induction l as [|h l IH]; intros [|k] H; simpl in *; try lia.
  - reflexivity.
  - apply IH. lia.
Qed.

(** the bond at [x0] absorbs the bonds at [xs], one after the other *)
Lemma combine_fold_distinct (objs : list nat) (xs : list nat) (bs : list Bond)
    (x0 : nat) :
  NoDup objs -> x0 < length bs ->
  Forall (fun i => i < length bs) xs -> ~ In x0 xs ->
  fold_left (fun acc x => bs <- acc ;; combine_at objs bs x0 x) xs (Ok bs)
  = Ok (list_set bs x0
          (Bond_combine (nth x0 bs (Bond_new 0))
                        (map (fun i => nth i bs (Bond_new 0)) xs))).
Proof.
  intros Hnd. revert bs. unfold Bond_combine.
  induction xs as [|x xs IH]; intros bs Hx0 Hxs Hnin; simpl.
  - f_equal. symmetry. clear -Hx0. revert x0 Hx0.
    induction bs as [|b bs IH]; intros [|x0] H; simpl in *; try lia.
    + reflexivity.
    + f_equal. apply IH. lia.
  - inversion Hxs as [|? ? Hx Hxs']; subst.
    unfold combine_at at 2.
    rewrite (nth_error_nth' bs (Bond_new 0) Hx0).
    rewrite (nth_error_nth' bs (Bond_new 0) Hx). simpl.
    rewrite store_object_distinct by assumption.
    rewrite IH.
    + rewrite list_set_twice, list_set_nth_same by assumption.
      f_equal. f_equal. f_equal. apply map_ext_in. intros i Hi.
      apply list_set_nth_other. intros ->. apply Hnin. right. assumption.
    + rewrite list_set_length. assumption.
    + revert Hxs'. apply Forall_impl. intros i. rewrite list_set_length. auto.
    + intros H. apply Hnin. right. assumption.
Qed.

Lemma take_list_set_other {A} (l : list A) (d : A) (k : nat) (x : A)
    (idx : list nat) :
  Forall (fun i => i < length l) idx -> ~ In k idx ->
  Py.take (list_set l k x) idx = Ok (map (fun i => nth i l d) idx).
Proof.
  intros Hr Hk.
  rewrite (take_in_range (list_set l k x) d)
    by (revert Hr; apply Forall_impl; intros i; rewrite list_set_length; auto).
  f_equal. apply map_ext_in. intros i Hi. apply list_set_nth_other.
  intros ->. contradiction.
Qed.

(** what [CombineBonds] leaves on separate bond objects, by position:
    [x0 :: xs'] are the positions of the combined bonds as [np.intersect1d]
    lists them *)
Lemma CombineBonds_run (objs : list nat) (T : UniTensor R) (lbls : list Z)
    (ii : option bool) (nl : option Z) (t : Tensor R) (same : list Z)
    (x0 : nat) (xs' : list nat) :
  NoDup objs -> NoDup (x0 :: xs') ->
  is_blockform T = false -> is_diag T = false -> Storage T = Dense t ->
  length (labels T) = length (bonds T) ->
  length (shape t) = length (bonds T) ->
  2 <= length lbls -> length lbls <= length (labels T) ->
  Np.intersect1d (labels T) lbls
  = (same, x0 :: xs', map (fun x => Py.first_index x lbls) same) ->
  length same = length lbls ->
  Forall (fun i => i < length (labels T)) (x0 :: xs') ->
  length (x0 :: xs')
  + length (Np.setdiff1d_arange (length (labels T)) (x0 :: xs'))
  = length (labels T) ->
  (forall l, nl = Some l -> ~ In l (labels T) /\ Np.fits_int64 l = true) ->
  let no := Np.setdiff1d_arange (length (labels T)) (x0 :: xs') in
  let kb := map (fun i => nth i (bonds T) (Bond_new 0)) no in
  let kl := map (fun i => nth i (labels T) 0%Z) no in
  let merged := Bond_combine (nth x0 (bonds T) (Bond_new 0))
                             (map (fun i => nth i (bonds T) (Bond_new 0)) xs') in
  let lx := match nl with Some l => l | None => nth x0 (labels T) 0%Z end in
  let cdim := Np.prod (map (fun i => nth i (shape t) 0) (x0 :: xs')) in
  let nd := map (fun i => nth i (shape t) 0) no in
  let nN := (N_inbond T
             - Z.of_nat (length (filter (fun x => (Z.of_nat x <? N_inbond T)%Z)
                                        xs')))%Z in
  CombineBonds zero objs lbls ii nl T
  = (if (if (N_inbond T <=? Z.of_nat x0)%Z
         then match ii with Some true => true | _ => false end
         else match ii with Some false => false | _ => true end)
     then mkUniTensor (merged :: kb)
                      (if (N_inbond T <=? Z.of_nat x0)%Z then nN + 1 else nN)
                      (lx :: kl) false false
                      (Dense (mkTensor (cdim :: nd)
                                (data (permute zero t ((x0 :: xs') ++ no)))))
                      (_BlockMapper_in T) (_BlockMapper_out T) (_BlockQnums T)
     else mkUniTensor (kb ++ [merged])
                      (if (N_inbond T <=? Z.of_nat x0)%Z then nN else nN - 1)
                      (kl ++ [lx]) false false
                      (Dense (mkTensor (nd ++ [cdim])
                                (data (permute zero t (no ++ x0 :: xs')))))
                      (_BlockMapper_in T) (_BlockMapper_out T) (_BlockQnums T),
     Ok tt).
Proof.
  intros Hobjs Hxnd Hb Hdiag Hs Hl Hrank Hk Hle Hi Hsame Hxr Hcount Hfresh
         no kb kl merged lx cdim nd nN.
  assert (Hnr : Forall (fun i => i < length (labels T)) no).
  { apply Forall_forall. intros i Hin. unfold no, Np.setdiff1d_arange in Hin.
    apply filter_In in Hin. destruct Hin as [Hin _]. apply in_seq in Hin. lia. }
  assert (Hx0no : ~ In x0 no).
  { unfold no, Np.setdiff1d_arange. rewrite filter_In. intros [_ H].
    simpl in H. rewrite Nat.eqb_refl in H. discriminate. }
  inversion Hxnd as [|? ? Hx0xs Hxnd']; subst.
  unfold CombineBonds, _CombineBonds, mbind, mget, mlift, mret, mput.
  rewrite Hb, Hdiag.
  replace (length lbls <? 2) with false by (symmetry; apply Nat.ltb_ge; lia).
  replace (length (labels T) <? length lbls) with false
    by (symmetry; apply Nat.ltb_ge; lia).
  cbn [guard]. rewrite Hi. cbv beta iota zeta.
  rewrite Hsame, Nat.eqb_refl. cbn [negb guard].
  rewrite Hs. cbn [storage_shape].
  fold no.
  rewrite (take_in_range (shape t) 0) by (rewrite Hrank, <- Hl; exact Hxr).
  rewrite (take_in_range (shape t) 0) by (rewrite Hrank, <- Hl; exact Hnr).
  rewrite (take_in_range (labels T) 0%Z) by exact Hnr.
  inversion Hxr as [|? ? Hx0 Hxr']; subst.
  assert (Hmapper : length (shape t) = length ((x0 :: xs') ++ no)
                    /\ length (shape t) = length (no ++ x0 :: xs')).
  { rewrite !length_app. fold no in Hcount. lia. }
  assert (Hfront : Np.prod (cdim :: nd)
                   = length (data (permute zero t ((x0 :: xs') ++ no)))).
  { rewrite length_data_permute, map_app, prod_app. unfold cdim, nd.
    simpl. lia. }
  assert (Hback : Np.prod (nd ++ [cdim])
                  = length (data (permute zero t (no ++ x0 :: xs')))).
  { rewrite length_data_permute, map_app, !prod_app. unfold cdim, nd.
    simpl. lia. }
  assert (Hfold : forall bs0, bs0 = bonds T ->
            fold_left (fun acc x => bs <- acc ;; combine_at objs bs x0 x)
                      xs' (Ok bs0)
            = Ok (list_set (bonds T) x0 merged)).
  { intros bs0 ->. apply combine_fold_distinct; try assumption.
    - rewrite <- Hl. exact Hx0.
    - rewrite <- Hl. exact Hxr'. }
  destruct nl as [newlbl|].
  - cbn [tl].
    rewrite (take_in_range (labels T) 0%Z) by exact Hxr'.
    assert (Hnew : forall idx, Forall (fun i => i < length (labels T)) idx ->
                     Py.memZ newlbl (map (fun m => nth m (labels T) 0%Z) idx)
                     = false).
    { intros idx Hidx. apply not_true_is_false. intros H.
      apply memZ_In, in_map_iff in H. destruct H as (i & E & Hin).
      rewrite Forall_forall in Hidx.
      apply (proj1 (Hfresh newlbl eq_refl)). rewrite <- E.
      apply nth_In, Hidx, Hin. }
    rewrite !Hnew by assumption.
    cbn [orb guard nth_error opt_err].
    rewrite (proj2 (Hfresh newlbl eq_refl)). cbn [negb guard].
    unfold set_labels, set_bonds.
    cbn [bonds labels N_inbond is_diag is_blockform Storage
         _BlockMapper_in _BlockMapper_out _BlockQnums].
    rewrite (Hfold _ eq_refl).
    rewrite list_set_nth_error by (rewrite <- Hl; exact Hx0).
    cbn [opt_err].
    rewrite (take_list_set_other (bonds T) (Bond_new 0))
      by (try (rewrite <- Hl; exact Hnr); exact Hx0no).
    rewrite list_set_nth_error by lia. cbn [opt_err].
    rewrite Hs, fold_count_in. fold nN merged kb kl.
    unfold permute_checked, reshape.
    destruct Hmapper as [Hm1 Hm2].
    rewrite <- Hm1, <- Hm2, Nat.eqb_refl. cbn [negb guard bind].
    fold cdim nd. rewrite Hfront, Hback, !Nat.eqb_refl, Hdiag, Hb.
    destruct (N_inbond T <=? Z.of_nat x0)%Z; destruct ii as [[|]|];
      reflexivity.
  - cbn [nth_error opt_err tl].
    unfold set_bonds.
    cbn [bonds labels N_inbond is_diag is_blockform Storage
         _BlockMapper_in _BlockMapper_out _BlockQnums].
    rewrite (Hfold _ eq_refl).
    rewrite list_set_nth_error by (rewrite <- Hl; exact Hx0).
    cbn [opt_err].
    rewrite (take_list_set_other (bonds T) (Bond_new 0))
      by (try (rewrite <- Hl; exact Hnr); exact Hx0no).
    rewrite (nth_error_nth' (labels T) 0%Z) by lia. cbn [opt_err].
    rewrite Hs, fold_count_in. fold nN merged kb kl.
    unfold permute_checked, reshape.
    destruct Hmapper as [Hm1 Hm2].
    rewrite <- Hm1, <- Hm2, Nat.eqb_refl. cbn [negb guard bind].
    fold cdim nd. rewrite Hfront, Hback, !Nat.eqb_refl, Hdiag, Hb.
    destruct (N_inbond T <=? Z.of_nat x0)%Z; destruct ii as [[|]|];
      reflexivity.
Qed.

Lemma map_dim_nth (bs : list Bond) (idx : list nat) :
  map (fun i => nth i (map dim bs) 0) idx
  = map dim (map (fun i => nth i bs (Bond_new 0)) idx).
Proof.
  rewrite map_map. apply map_ext. intros i.
  change 0 with (dim (Bond_new 0)) at 1. apply map_nth.
Qed.

(** X18. [CombineBonds] on a well-formed dense tensor with distinct labels
    whose bonds are separate objects, given at least two distinct labels of
    the tensor (and, if any, a new label that the tensor does not have and
    that fits in 64 bits): the bonds with these labels are merged
    into one bond whose dimension is the product of theirs, the other bonds
    and labels keep their order, and the rank drops by the number of labels
    less one.  The merged bond stands first, as one more in-bond, or last, as
    an out-bond - on the side [is_inbond] names when it is given; it carries
    the new label or else the smallest of the combined labels.  The result is
    well formed with distinct labels and as many elements as before. *)
Theorem CombineBonds_shape :
  forall (objs : list nat) (T : UniTensor R) (lbls : list Z)
         (ii : option bool) (nl : option Z) (t : Tensor R),
    NoDup objs ->
    well_formed T -> is_diag T = false -> Storage T = Dense t ->
    NoDup (labels T) -> NoDup lbls -> incl lbls (labels T) ->
    2 <= length lbls ->
    (forall l, nl = Some l -> ~ In l (labels T) /\ Np.fits_int64 l = true) ->
    exists T' t' merged lx,
      CombineBonds zero objs lbls ii nl T = (T', Ok tt) /\
      Storage T' = Dense t' /\ length (data t') = length (data t) /\
      well_formed T' /\ is_diag T' = false /\ NoDup (labels T') /\
      length (bonds T') + length lbls = length (bonds T) + 1 /\
      dim merged = Np.prod (map dim (merged_bonds_of lbls T)) /\
      (match nl with
       | Some l => lx = l
       | None => In lx lbls /\ forall l, In l lbls -> (lx <= l)%Z
       end) /\
      ((bonds T' = merged :: kept_bonds_of lbls T /\
        labels T' = lx :: kept_labels_of lbls T /\
        N_inbond T' = (kept_inbonds_of lbls T + 1)%Z) \/
       (bonds T' = kept_bonds_of lbls T ++ [merged] /\
        labels T' = kept_labels_of lbls T ++ [lx] /\
        N_inbond T' = kept_inbonds_of lbls T)) /\
      (ii = Some true -> bonds T' = merged :: kept_bonds_of lbls T) /\
      (ii = Some false -> bonds T' = kept_bonds_of lbls T ++ [merged]).
Proof.
  intros objs T lbls ii nl t Hobjs (Hb & Hl & HN & t0 & Hs0 & Hd & Hsh)
         Hdiag Hs Hnd Hndl Hincl Hk Hfresh.
  rewrite Hs in Hs0. inversion Hs0; subst t0; clear Hs0. rewrite Hdiag in Hsh.
  assert (Hrank : length (shape t) = length (bonds T))
    by (rewrite Hsh; apply length_map).
  destruct (intersect1d_positions Hnd Hndl Hincl)
    as (same & xs & Hi & Hperm & Hsorted & Hxnd & Hxr & Hxl & Hmem).
  assert (Hsame : length same = length lbls) by (apply Permutation_length, Hperm).
  assert (Hlenx : length xs = length lbls).
  { rewrite <- Hsame, <- Hxl. symmetry. apply length_map. }
  assert (Hle : length lbls <= length (labels T))
    by (apply NoDup_incl_length; assumption).
  set (n := length (labels T)) in *.
  set (no := Np.setdiff1d_arange n xs).
  assert (Hno : no = filter (fun i => negb (Py.memZ (nth i (labels T) 0%Z) lbls))
                            (seq 0 n))
    by (apply setdiff_by_label; exact Hmem).
  assert (HP : Permutation (xs ++ no) (seq 0 n)).
  { apply NoDup_Permutation.
    - apply NoDup_app; [assumption | apply NoDup_filter, seq_NoDup |].
      intros a Ha Hna. apply filter_In in Hna. destruct Hna as [_ Hna].
      apply memN_In in Ha. rewrite Ha in Hna. discriminate.
    - apply seq_NoDup.
    - intros x. rewrite in_app_iff, in_seq. split.
      + intros [Hx|Hx].
        * rewrite Forall_forall in Hxr. specialize (Hxr x Hx). lia.
        * apply filter_In in Hx. destruct Hx as [Hx _]. apply in_seq in Hx. lia.
      + intros Hx. destruct (Py.memN x xs) eqn:E.
        * left. apply memN_In. assumption.
        * right. apply filter_In. split; [apply in_seq; lia|].
          rewrite E. reflexivity. }
  assert (Hcount : length xs + length no = n).
  { rewrite <- length_app, (Permutation_length HP). apply length_seq. }
  destruct xs as [|x0 xs']; [simpl in Hlenx; lia|].
  pose proof (@CombineBonds_run objs T lbls ii nl t same x0 xs' Hobjs Hxnd
                Hb Hdiag Hs Hl Hrank Hk Hle Hi Hsame Hxr Hcount Hfresh) as Hrun.
  cbv zeta in Hrun. fold n in Hrun. fold no in Hrun.
  (* the description by label *)
  assert (Hkb : map (fun i => nth i (bonds T) (Bond_new 0)) no
                = kept_bonds_of lbls T).
  { unfold kept_bonds_of. rewrite Hno.
    rewrite (map_nth_filter_seq (fun l => negb (Py.memZ l lbls)) 0%Z
               (Bond_new 0) (labels T) (bonds T) (m := n))
      by (unfold n; lia).
    rewrite firstn_all2; [reflexivity|].
    rewrite length_combine. unfold n. lia. }
  assert (Hkl : map (fun i => nth i (labels T) 0%Z) no = kept_labels_of lbls T).
  { unfold kept_labels_of. rewrite Hno.
    rewrite (map_nth_filter_seq1 (fun l => negb (Py.memZ l lbls)) 0%Z
               (labels T) (m := n)) by (unfold n; lia).
    unfold n. rewrite firstn_all. reflexivity. }
  assert (Hmb : Permutation (map (fun i => nth i (bonds T) (Bond_new 0))
                                 (x0 :: xs'))
                            (merged_bonds_of lbls T)).
  { unfold merged_bonds_of.
    rewrite <- (@firstn_all2 _ n (combine (labels T) (bonds T)))
      by (rewrite length_combine; unfold n; lia).
    rewrite <- (map_nth_filter_seq (fun l => Py.memZ l lbls) 0%Z
                  (Bond_new 0) (labels T) (bonds T) (m := n))
      by (unfold n; lia).
    apply Permutation_map. apply NoDup_Permutation.
    - assumption.
    - apply NoDup_filter, seq_NoDup.
    - intros i. rewrite filter_In, in_seq. split.
      + intros Hin. rewrite Forall_forall in Hxr. specialize (Hxr i Hin).
        split; [lia|]. rewrite <- Hmem by assumption. apply memN_In, Hin.
      + intros [Hi' Hm]. apply memN_In. rewrite Hmem by lia. assumption. }
  set (merged := Bond_combine (nth x0 (bonds T) (Bond_new 0))
                   (map (fun i => nth i (bonds T) (Bond_new 0)) xs')) in *.
  assert (Hdimm : dim merged
                  = Np.prod (map dim (map (fun i => nth i (bonds T) (Bond_new 0))
                                          (x0 :: xs')))).
  { unfold merged. rewrite Bond_combine_dim. reflexivity. }
  set (lx := match nl with Some l => l | None => nth x0 (labels T) 0%Z end) in *.
  assert (Hlx : match nl with
                | Some l => lx = l
                | None => In lx lbls /\ forall l, In l lbls -> (lx <= l)%Z
                end).
  { unfold lx. destruct nl as [l|]; [reflexivity|].
    simpl in Hxl. destruct same as [|s0 same']; [discriminate|].
    inversion Hxl as [[Hs0 Hrest]]. rewrite Hs0.
    split.
    - apply (Permutation_in s0 Hperm). left. reflexivity.
    - intros l Hlin. apply (Permutation_in l (Permutation_sym Hperm)) in Hlin.
      inversion Hsorted as [|? ? _ Hall]; subst.
      destruct Hlin as [<-|Hlin]; [lia|].
      rewrite Forall_forall in Hall. specialize (Hall l Hlin). lia. }
  (* the count of in-bonds *)
  assert (Hkin : Z.of_nat (length (filter (fun x => (Z.of_nat x <? N_inbond T)%Z)
                                          no))
                 = kept_inbonds_of lbls T).
  { unfold kept_inbonds_of. f_equal. rewrite Hno, filter_filter.
    rewrite (filter_ext (fun x => negb (Py.memZ (nth x (labels T) 0%Z) lbls)
                                  && (Z.of_nat x <? N_inbond T)%Z)
                        (fun x => (Z.of_nat x <? N_inbond T)%Z
                                  && negb (Py.memZ (nth x (labels T) 0%Z) lbls)))
      by (intros; apply andb_comm).
    rewrite <- filter_filter.
    rewrite filter_below_seq by (unfold n, len in *; lia).
    rewrite <- (map_nth_filter_seq1 (fun l => negb (Py.memZ l lbls)) 0%Z
                  (labels T)) by (unfold len in *; lia).
    rewrite length_map. reflexivity. }
  assert (Hcnt : (Z.of_nat (length (filter (fun x => (Z.of_nat x <? N_inbond T)%Z)
                                           (x0 :: xs')))
                  + kept_inbonds_of lbls T = N_inbond T)%Z).
  { rewrite <- Hkin, <- Nat2Z.inj_add, <- length_app, <- filter_app.
    rewrite (filter_length_Permutation _ HP).
    rewrite filter_below_seq by (unfold n, len in *; lia).
    rewrite length_seq. unfold len in *. lia. }
  assert (Hkle : (0 <= kept_inbonds_of lbls T <= Z.of_nat (length no))%Z).
  { rewrite <- Hkin. split; [lia|]. apply Nat2Z.inj_le, filter_length_le. }
  cbn [filter length] in Hcnt.
  set (nN := (N_inbond T
              - Z.of_nat (length (filter (fun x => (Z.of_nat x <? N_inbond T)%Z)
                                         xs')))%Z) in *.
  assert (HnN : (if (N_inbond T <=? Z.of_nat x0)%Z
                 then nN = kept_inbonds_of lbls T
                 else nN = kept_inbonds_of lbls T + 1)%Z).
  { unfold nN.
    destruct (Z.leb_spec (N_inbond T) (Z.of_nat x0)) as [H|H].
    - replace (Z.of_nat x0 <? N_inbond T)%Z with false in Hcnt
        by (symmetry; apply Z.ltb_ge; lia). lia.
    - replace (Z.of_nat x0 <? N_inbond T)%Z with true in Hcnt
        by (symmetry; apply Z.ltb_lt; lia).
      cbn [length] in Hcnt. lia. }
  (* shapes *)
  assert (Hcd : Np.prod (map (fun i => nth i (shape t) 0) (x0 :: xs'))
                = dim merged).
  { rewrite Hdimm, Hsh, map_dim_nth. reflexivity. }
  assert (Hndm : map (fun i => nth i (shape t) 0) no
                 = map dim (kept_bonds_of lbls T)).
  { rewrite <- Hkb, Hsh, map_dim_nth. reflexivity. }
  assert (Hsize : forall m, Permutation m (seq 0 n) ->
                    length (data (permute zero t m)) = length (data t)).
  { intros m Hm. rewrite length_data_permute, Hd.
    apply prod_Permutation.
    apply (perm_trans (l' := map (fun i => nth i (shape t) 0)
                                 (seq 0 (length (shape t)))));
      [|rewrite map_nth_seq; apply Permutation_refl].
    rewrite Hrank, <- Hl. apply Permutation_map. exact Hm. }
  assert (Hndk : NoDup (kept_labels_of lbls T))
    by (apply NoDup_filter; assumption).
  assert (Hlxk : ~ In lx (kept_labels_of lbls T)).
  { unfold kept_labels_of. rewrite filter_In. intros [Hin Hm].
    destruct nl as [l|].
    - subst lx. apply (proj1 (Hfresh l eq_refl)). exact Hin.
    - destruct Hlx as [Hlxin _]. apply memZ_In in Hlxin.
      rewrite Hlxin in Hm. discriminate. }
  assert (Hlenk : length (kept_bonds_of lbls T) = length no
                  /\ length (kept_labels_of lbls T) = length no).
  { rewrite <- Hkb, <- Hkl, !length_map. auto. }
  destruct Hlenk as [Hlkb Hlkl].
  rewrite Hkb, Hkl, Hcd, Hndm in Hrun.
  rewrite Hrun. clear Hrun.
  destruct (if (N_inbond T <=? Z.of_nat x0)%Z
            then match ii with Some true => true | _ => false end
            else match ii with Some false => false | _ => true end) eqn:Hfront.
  - (* the merged bond first *)
    eexists. eexists. exists merged, lx.
    split; [reflexivity|]. cbn [Storage bonds labels N_inbond is_diag data].
    split; [reflexivity|].
    split; [apply Hsize, HP|].
    assert (HN' : (if (N_inbond T <=? Z.of_nat x0)%Z then nN + 1 else nN)%Z
                  = (kept_inbonds_of lbls T + 1)%Z).
    { destruct (N_inbond T <=? Z.of_nat x0)%Z; lia. }
    rewrite HN'.
    split.
    { unfold well_formed.
      cbn [Storage bonds labels N_inbond is_diag is_blockform].
      split; [reflexivity|]. split; [simpl; lia|].
      split; [unfold len; simpl; lia|].
      eexists. split; [reflexivity|]. cbn [data shape]. split; [|reflexivity].
      rewrite length_data_permute, map_app, prod_app.
      rewrite Hcd, Hndm. simpl. lia. }
    split; [reflexivity|].
    split; [constructor; assumption|].
    split; [unfold n in *; simpl length in *; lia|].
    split; [rewrite Hdimm; apply prod_Permutation, Permutation_map, Hmb|].
    split; [exact Hlx|].
    split; [left; auto|].
    split; [reflexivity|].
    intros ->. destruct (N_inbond T <=? Z.of_nat x0)%Z; discriminate.
  - (* the merged bond last *)
    eexists. eexists. exists merged, lx.
    split; [reflexivity|]. cbn [Storage bonds labels N_inbond is_diag data].
    split; [reflexivity|].
    split.
    { apply Hsize. apply (perm_trans (Permutation_app_comm _ _)). exact HP. }
    assert (HN' : (if (N_inbond T <=? Z.of_nat x0)%Z then nN else nN - 1)%Z
                  = kept_inbonds_of lbls T).
    { destruct (N_inbond T <=? Z.of_nat x0)%Z; lia. }
    rewrite HN'.
    split.
    { unfold well_formed.
      cbn [Storage bonds labels N_inbond is_diag is_blockform].
      split; [reflexivity|]. split; [rewrite !length_app; simpl; lia|].
      split; [unfold len; rewrite length_app; simpl; lia|].
      eexists. split; [reflexivity|]. cbn [data shape]. split.
      - rewrite length_data_permute, map_app, !prod_app.
        rewrite Hcd, Hndm. simpl. lia.
      - rewrite map_app. reflexivity. }
    split; [reflexivity|].
    split.
    { apply (Permutation_NoDup (Permutation_cons_append _ _)).
      constructor; assumption. }
    split.
    { rewrite length_app. unfold n in *. simpl length in *. lia. }
    split; [rewrite Hdimm; apply prod_Permutation, Permutation_map, Hmb|].
    split; [exact Hlx|].
    split; [right; auto|].
    split; [|reflexivity].
    intros ->. destruct (N_inbond T <=? Z.of_nat x0)%Z; discriminate.
Qed.


End Combine.

(** ** Views and strides *)











Section Reshaping.

Context {R : Type} (zero : R).


End Reshaping.

(** ** The index sort puts the keys in order *)

Lemma nth_list_set {A} (l : list A) (k p : nat) (x d : A) :
  k < length l ->
  nth p (list_set l k x) d = if p =? k then x else nth p l d.
Proof.
  revert k p. induction l as [|y l IH]; intros k p Hk; simpl in Hk; [lia|].
  destruct k as [|k], p as [|p]; simpl; try reflexivity.
  apply IH. lia.
Qed.

Lemma nth_swap (a : list nat) (i j p : nat) :
  i < length a -> j < length a ->
  nth p (Np.swap a i j) 0
  = if p =? j then nth i a 0 else if p =? i then nth j a 0 else nth p a 0.
Proof.
  intros Hi Hj. unfold Np.swap.
  destruct (nth_error a i) as [x|] eqn:Ei;
    [|apply nth_error_None in Ei; lia].
  destruct (nth_error a j) as [y|] eqn:Ej;
    [|apply nth_error_None in Ej; lia].
  rewrite nth_list_set by (rewrite list_set_length; exact Hj).
  rewrite nth_list_set by exact Hi.
  rewrite (nth_error_nth _ _ 0 Ei), (nth_error_nth _ _ 0 Ej). reflexivity.
Qed.

Lemma positions_sorted {A} (Rel : A -> A -> Prop) (d : A) (a : list A) :
  (forall p q, p < q < length a -> Rel (nth p a d) (nth q a d)) ->
  StronglySorted Rel a.
Proof.
  induction a as [|x a IH]; intros H; constructor.
  - apply IH. intros p q Hpq. apply (H (S p) (S q)). simpl. lia.
  - apply Forall_forall. intros y Hy.
    destruct (In_nth _ _ d Hy) as (q & Hq & <-).
    apply (H 0 (S q)). simpl. lia.
Qed.

Lemma StronglySorted_app {A} (Rel : A -> A -> Prop) (l1 l2 : list A) :
  StronglySorted Rel l1 -> StronglySorted Rel l2 ->
  (forall x y, In x l1 -> In y l2 -> Rel x y) ->
  StronglySorted Rel (l1 ++ l2).
Proof.
  intros H1 H2 H. induction H1 as [|x l1 Hs IH HF]; simpl; [assumption|].
  constructor.
  - apply IH. intros a b Ha Hb. apply H; [right|]; assumption.
  - apply Forall_app. split; [assumption|].
    apply Forall_forall. intros y Hy. apply H; [left; reflexivity | assumption].
Qed.

(** case analysis on the position tests left by [key_at_swap] *)
Ltac eqb_cases :=
  repeat match goal with
         | |- context [?x =? ?y] =>
             destruct (Nat.eqb_spec x y); try lia
         end.

Section IntrosortSorted.

Context {K : Type} (ltb : K -> K -> bool) (key : nat -> K).

Hypothesis ltb_asym : forall x y, ltb x y = true -> ltb y x = false.
Hypothesis leb_trans :
  forall x y z, ltb y x = false -> ltb z y = false -> ltb z x = false.

Local Abbreviation kat := (Np.key_at key).

Lemma ltb_irrefl (x : K) : ltb x x = false.
Proof.
  destruct (ltb x x) eqn:E; [|reflexivity].
  rewrite (ltb_asym E) in E. discriminate.
Qed.

Lemma key_at_swap (a : list nat) (i j p : nat) :
  i < length a -> j < length a ->
  kat (Np.swap a i j) p
  = if p =? j then kat a i else if p =? i then kat a j else kat a p.
Proof.
  intros Hi Hj. unfold Np.key_at. rewrite nth_swap by assumption.
  destruct (p =? j); [reflexivity|]. destruct (p =? i); reflexivity.
Qed.

(** *** Insertion sort *)

Lemma insert_back_sorted (x : nat) (r : list nat) :
  StronglySorted (fun i j => ltb (key i) (key j) = false) r ->
  StronglySorted (fun i j => ltb (key i) (key j) = false)
                 (Np.insert_back ltb key x r).
Proof.
  induction 1 as [|y r Hs IH HF]; simpl.
  - repeat constructor.
  - destruct (ltb (key x) (key y)) eqn:E.
    + constructor; [exact IH|].
      apply Forall_forall. intros z Hz.
      apply (Permutation_in _ (insert_back_perm ltb key x r)) in Hz.
      destruct Hz as [<-|Hz].
      * apply ltb_asym. exact E.
      * rewrite Forall_forall in HF. apply HF. exact Hz.
    + constructor; [constructor; assumption|].
      constructor; [exact E|].
      apply Forall_forall. intros z Hz. rewrite Forall_forall in HF.
      apply (leb_trans (HF z Hz) E).
Qed.

Lemma insertion_sort_sorted (seg : list nat) :
  key_sorted ltb key (Np.insertion_sort ltb key seg).
Proof.
  unfold Np.insertion_sort, key_sorted.
  apply (StronglySorted_rev (Rel := fun i j => ltb (key i) (key j) = false)).
  assert (H : forall r,
             StronglySorted (fun i j => ltb (key i) (key j) = false) r ->
             StronglySorted (fun i j => ltb (key i) (key j) = false)
               (fold_left (fun r x => Np.insert_back ltb key x r) seg r)).
  { induction seg as [|x seg IH]; intros r Hr; simpl; [exact Hr|].
    apply IH. apply insert_back_sorted. exact Hr. }
  apply H. constructor.
Qed.

(** *** The partition *)

Lemma scan_up_spec (a : list nat) (vp : K) (fuel pi q : nat) :
  pi < q -> q <= pi + fuel -> ltb (kat a q) vp = false ->
  pi < Np.scan_up ltb key fuel a vp pi <= q /\
  ltb (kat a (Np.scan_up ltb key fuel a vp pi)) vp = false /\
  forall p, pi < p < Np.scan_up ltb key fuel a vp pi ->
            ltb (kat a p) vp = true.
Proof.
  revert pi. induction fuel as [|f IH]; intros pi Hlt Hq Hstop; [lia|].
  cbn [Np.scan_up].
  destruct (ltb (kat a (S pi)) vp) eqn:E.
  - assert (S pi <> q) by (intros Heq; rewrite Heq in E; congruence).
    destruct (IH (S pi)) as (H1 & H2 & H3); try lia; try assumption.
    split; [lia|]. split; [assumption|].
    intros p Hp. destruct (Nat.eq_dec p (S pi)) as [->|Hne]; [exact E|].
    apply H3. lia.
  - split; [lia|]. split; [exact E|]. intros p Hp. lia.
Qed.

Lemma scan_down_spec (a : list nat) (vp : K) (fuel pj q : nat) :
  q < pj -> pj <= q + fuel -> ltb vp (kat a q) = false ->
  q <= Np.scan_down ltb key fuel a vp pj < pj /\
  ltb vp (kat a (Np.scan_down ltb key fuel a vp pj)) = false /\
  forall p, Np.scan_down ltb key fuel a vp pj < p < pj ->
            ltb vp (kat a p) = true.
Proof.
  revert pj. induction fuel as [|f IH]; intros pj Hlt Hq Hstop; [lia|].
  cbn [Np.scan_down].
  destruct (ltb vp (kat a (pj - 1))) eqn:E.
  - assert (pj - 1 <> q) by (intros Heq; rewrite Heq in E; congruence).
    destruct (IH (pj - 1)) as (H1 & H2 & H3); try lia; try assumption.
    split; [lia|]. split; [assumption|].
    intros p Hp. destruct (Nat.eq_dec p (pj - 1)) as [->|Hne]; [exact E|].
    apply H3. lia.
  - split; [lia|]. split; [exact E|]. intros p Hp. lia.
Qed.

Lemma exchange_spec (vp : K) (top : nat) (fuel : nat) (a : list nat)
    (pi pj : nat) :
  pi < pj <= top -> top < length a -> pj - pi <= fuel ->
  (forall p, p <= pi -> ltb vp (kat a p) = false) ->
  (forall p, pj <= p < length a -> ltb (kat a p) vp = false) ->
  ltb vp (kat a top) = false ->
  let r := Np.exchange ltb key fuel a vp pi pj in
  length (fst r) = length a /\ snd r <= top /\
  split_around ltb key vp (snd r) (fst r) /\
  ltb vp (kat (fst r) top) = false.
Proof.
  revert a pi pj.
  induction fuel as [|f IH]; intros a pi pj Hpp Htop Hfuel Hlo Hhi Hpiv;
    [lia|].
  cbn [Np.exchange].
  destruct (@scan_up_spec a vp (length a) pi pj) as (U1 & U2 & U3);
    [lia | lia | apply Hhi; lia |].
  destruct (@scan_down_spec a vp (length a) pj pi) as (D1 & D2 & D3);
    [lia | lia | apply Hlo; lia |].
  set (pi' := Np.scan_up ltb key (length a) a vp pi) in *.
  set (pj' := Np.scan_down ltb key (length a) a vp pj) in *.
  assert (Hlo' : forall p, p < pi' -> ltb vp (kat a p) = false).
  { intros p Hp. destruct (Nat.le_gt_cases p pi) as [Hle|Hgt].
    - apply Hlo. exact Hle.
    - apply ltb_asym. apply U3. lia. }
  assert (Hhi' : forall p, pj' < p < length a -> ltb (kat a p) vp = false).
  { intros p Hp. destruct (Nat.le_gt_cases pj p) as [Hle|Hgt].
    - apply Hhi. lia.
    - apply ltb_asym. apply D3. lia. }
  destruct (Nat.leb_spec pj' pi') as [Hmeet|Hgo]; cbn [fst snd].
  - split; [reflexivity|]. split; [lia|]. split; [|exact Hpiv].
    split; [exact Hlo'|].
    intros p Hp. destruct (Nat.eq_dec p pi') as [->|Hne]; [exact U2|].
    apply Hhi'. lia.
  - assert (Hi : pi' < length a) by lia.
    assert (Hj : pj' < length a) by lia.
    destruct (IH (Np.swap a pi' pj') pi' pj') as (R1 & R2 & R3 & R4).
    + lia.
    + rewrite swap_length. exact Htop.
    + lia.
    + intros p Hp. rewrite key_at_swap by assumption.
      destruct (Nat.eqb_spec p pj'); [lia|].
      destruct (Nat.eqb_spec p pi'); [exact D2|].
      apply Hlo'. lia.
    + rewrite swap_length. intros p Hp. rewrite key_at_swap by assumption.
      destruct (Nat.eqb_spec p pj'); [exact U2|].
      destruct (Nat.eqb_spec p pi'); [lia|].
      apply Hhi'. lia.
    + rewrite key_at_swap by assumption.
      destruct (Nat.eqb_spec top pj'); [lia|].
      destruct (Nat.eqb_spec top pi'); [lia|]. exact Hpiv.
    + rewrite swap_length in R1. auto.
Qed.


Lemma partition_spec (a : list nat) :
  3 <= length a ->
  let r := Np.partition ltb key a in
  exists vp,
    length (fst r) = length a /\ snd r < length a /\
    split_around ltb key vp (snd r) (fst r) /\
    ltb vp (kat (fst r) (snd r)) = false.
Proof.
  intros Hlen. unfold Np.partition.
  set (pr := length a - 1). set (pm := Nat.div2 pr).
  assert (Hpm : 1 <= pm < pr).
  { unfold pm. rewrite Nat.div2_div.
    pose proof (Nat.div_mod_eq pr 2) as Hd.
    pose proof (Nat.mod_upper_bound pr 2). lia. }
  set (a1 := if ltb (kat a pm) (kat a 0) then Np.swap a pm 0 else a).
  assert (L1 : length a1 = length a)
    by (unfold a1; destruct (ltb (kat a pm) (kat a 0));
        [apply swap_length | reflexivity]).
  assert (K1 : ltb (kat a1 pm) (kat a1 0) = false).
  { unfold a1. destruct (ltb (kat a pm) (kat a 0)) eqn:E; [|exact E].
    rewrite !key_at_swap by lia. eqb_cases.
    apply ltb_asym. exact E. }
  set (a2 := if ltb (kat a1 pr) (kat a1 pm) then Np.swap a1 pr pm else a1).
  assert (L2 : length a2 = length a)
    by (unfold a2; destruct (ltb (kat a1 pr) (kat a1 pm));
        [rewrite swap_length|]; exact L1).
  assert (K2 : ltb (kat a2 pr) (kat a2 pm) = false /\
               ltb (kat a2 pr) (kat a2 0) = false).
  { unfold a2. destruct (ltb (kat a1 pr) (kat a1 pm)) eqn:E.
    - rewrite !key_at_swap by lia. eqb_cases.
      split; [apply ltb_asym; exact E | exact K1].
    - split; [exact E|]. apply (leb_trans K1 E). }
  destruct K2 as [K2 K2'].
  set (a3 := if ltb (kat a2 pm) (kat a2 0) then Np.swap a2 pm 0 else a2).
  assert (L3 : length a3 = length a)
    by (unfold a3; destruct (ltb (kat a2 pm) (kat a2 0));
        [rewrite swap_length|]; exact L2).
  assert (K3 : ltb (kat a3 pm) (kat a3 0) = false /\
               ltb (kat a3 pr) (kat a3 pm) = false).
  { unfold a3. destruct (ltb (kat a2 pm) (kat a2 0)) eqn:E.
    - rewrite !key_at_swap by lia. eqb_cases.
      split; [apply ltb_asym; exact E | exact K2'].
    - split; [exact E | exact K2]. }
  destruct K3 as [K3 K3'].
  set (vp := kat a3 pm).
  set (a4 := Np.swap a3 pm (pr - 1)).
  assert (L4 : length a4 = length a)
    by (unfold a4; rewrite swap_length; exact L3).
  destruct (@exchange_spec vp (pr - 1) (length a4) a4 0 (pr - 1))
    as (R1 & R2 & [R3 R3'] & R4).
  - lia.
  - lia.
  - lia.
  - intros p Hp. assert (p = 0) by lia. subst p.
    unfold a4. rewrite key_at_swap by lia.
    destruct (Nat.eqb_spec 0 (pr - 1)); [lia|].
    destruct (Nat.eqb_spec 0 pm); [lia|]. exact K3.
  - intros p Hp. unfold a4. rewrite key_at_swap by lia.
    destruct (Nat.eqb_spec p (pr - 1)); [apply ltb_irrefl|].
    destruct (Nat.eqb_spec p pm); [lia|].
    assert (p = pr) by lia. subst p. exact K3'.
  - unfold a4. rewrite key_at_swap by lia. rewrite Nat.eqb_refl.
    apply ltb_irrefl.
  - destruct (Np.exchange ltb key (length a4) a4 vp 0 (pr - 1)) as [a5 pi].
    cbn [fst snd] in *.
    exists vp. rewrite swap_length.
    split; [lia|]. split; [lia|].
    assert (R5 : ltb (kat a5 (pr - 1)) vp = false) by (apply R3'; lia).
    split; [split|].
    + intros p Hp. rewrite key_at_swap by lia.
      destruct (Nat.eqb_spec p (pr - 1)); [lia|].
      destruct (Nat.eqb_spec p pi); [lia|]. apply R3. exact Hp.
    + rewrite swap_length. intros p Hp. rewrite key_at_swap by lia.
      destruct (Nat.eqb_spec p (pr - 1)); [apply R3'; lia|].
      destruct (Nat.eqb_spec p pi); [exact R5|]. apply R3'. lia.
    + rewrite key_at_swap by lia.
      destruct (Nat.eqb_spec pi (pr - 1)) as [E|E].
      * rewrite E. exact R4.
      * rewrite Nat.eqb_refl. exact R4.
Qed.


(** *** Heapsort *)

Lemma sift_keys (fuel : nat) (a : list nat) (i n : nat) :
  1 <= i <= n -> n <= length a ->
  (forall p, n <= p -> kat (Np.sift ltb key fuel a i n) p = kat a p) /\
  (forall p, p < n ->
     exists p', p' < n /\ kat (Np.sift ltb key fuel a i n) p = kat a p').
Proof.
  revert a i. induction fuel as [|f IH]; intros a i Hi Hn.
  - simpl. split; [reflexivity|]. intros p Hp. exists p. auto.
  - cbn [Np.sift].
    destruct (Nat.ltb_spec n (2 * i)) as [Hc|Hc].
    { split; [reflexivity|]. intros p Hp. exists p. auto. }
    set (j := if (2 * i <? n) && ltb (kat a (2 * i - 1)) (kat a (2 * i))
              then S (2 * i) else 2 * i).
    assert (Hj : 2 * i <= j <= n).
    { unfold j. destruct (Nat.ltb_spec (2 * i) n); cbn [andb]; [|lia].
      destruct (ltb (kat a (2 * i - 1)) (kat a (2 * i))); lia. }
    destruct (ltb (kat a (i - 1)) (kat a (j - 1))).
    2: { split; [reflexivity|]. intros p Hp. exists p. auto. }
    destruct (IH (Np.swap a (i - 1) (j - 1)) j) as [H1 H2];
      [lia | rewrite swap_length; exact Hn |].
    split.
    + intros p Hp. rewrite H1 by exact Hp. rewrite key_at_swap by lia.
      eqb_cases. reflexivity.
    + intros p Hp. destruct (H2 p Hp) as (p' & Hp' & E). rewrite E.
      rewrite key_at_swap by lia.
      destruct (Nat.eqb_spec p' (j - 1)); [exists (i - 1); split; [lia|reflexivity]|].
      destruct (Nat.eqb_spec p' (i - 1)); [exists (j - 1); split; [lia|reflexivity]|].
      exists p'. auto.
Qed.

Lemma sift_heap (l n : nat) (fuel : nat) (a : list nat) (i : nat) :
  1 <= l <= i -> i <= n -> n <= length a -> n < i + fuel ->
  heap_except ltb key l n i a ->
  heap_from ltb key l n (Np.sift ltb key fuel a i n).
Proof.
  revert a i. induction fuel as [|f IH]; intros a i Hl Hi Hn Hf [He Hg];
    [lia|].
  cbn [Np.sift].
  destruct (Nat.ltb_spec n (2 * i)) as [Hc|Hc].
  { intros p j Hp Hch Hj. apply He; try assumption.
    intros ->. destruct Hch; lia. }
  set (j := if (2 * i <? n) && ltb (kat a (2 * i - 1)) (kat a (2 * i))
            then S (2 * i) else 2 * i).
  assert (Hj : heap_child i j /\ j <= n /\
               forall j', heap_child i j' -> j' <= n ->
                          ltb (kat a (j - 1)) (kat a (j' - 1)) = false).
  { unfold j, heap_child.
    destruct (Nat.ltb_spec (2 * i) n) as [Hlt|Hge]; cbn [andb].
    - destruct (ltb (kat a (2 * i - 1)) (kat a (2 * i))) eqn:E.
      + split; [lia|]. split; [lia|].
        intros j' [->| ->] _.
        * replace (S (2 * i) - 1) with (2 * i) by lia.
          apply ltb_asym. exact E.
        * replace (2 * i + 1 - 1) with (S (2 * i) - 1) by lia.
          apply ltb_irrefl.
      + split; [lia|]. split; [lia|].
        intros j' [->| ->] _; [apply ltb_irrefl|].
        replace (2 * i + 1 - 1) with (2 * i) by lia. exact E.
    - split; [lia|]. split; [lia|].
      intros j' [->| ->] Hj'; [apply ltb_irrefl | lia]. }
  destruct Hj as (Hch & Hjn & Hmax).
  assert (Hji : i < j) by (destruct Hch; lia).
  destruct (ltb (kat a (i - 1)) (kat a (j - 1))) eqn:E.
  - apply IH; try lia; [rewrite swap_length; exact Hn|].
    split.
    + intros p c Hp Hne Hpc Hc'.
      rewrite !key_at_swap by lia.
      destruct (Nat.eq_dec p i) as [->|Hpi].
      * (* the entry that was sifted: its key is now the larger child's *)
        destruct (Nat.eqb_spec (i - 1) (j - 1)); [lia|].
        rewrite Nat.eqb_refl.
        destruct (Nat.eqb_spec (c - 1) (j - 1)) as [Ec|Ec].
        { apply ltb_asym. exact E. }
        destruct (Nat.eqb_spec (c - 1) (i - 1)) as [Ec'|Ec'];
          [destruct Hpc; lia|].
        apply Hmax; assumption.
      * assert (p - 1 <> j - 1) by lia.
        assert (p - 1 <> i - 1) by lia.
        destruct (Nat.eqb_spec (p - 1) (j - 1)); [lia|].
        destruct (Nat.eqb_spec (p - 1) (i - 1)); [lia|].
        destruct (Nat.eqb_spec (c - 1) (j - 1)) as [Ec|Ec].
        { assert (c = j) by (destruct Hpc; lia). subst c.
          exfalso. destruct Hpc, Hch; lia. }
        destruct (Nat.eqb_spec (c - 1) (i - 1)) as [Ec'|Ec'].
        { assert (c = i) by (destruct Hpc; lia). subst c.
          apply Hg; assumption. }
        apply He; assumption.
    + intros p c Hp Hpj Hjc Hc'.
      assert (p = i) by (destruct Hpj, Hch; lia). subst p.
      rewrite !key_at_swap by lia.
      destruct (Nat.eqb_spec (i - 1) (j - 1)); [lia|].
      rewrite Nat.eqb_refl.
      destruct (Nat.eqb_spec (c - 1) (j - 1)); [destruct Hjc; lia|].
      destruct (Nat.eqb_spec (c - 1) (i - 1)); [destruct Hjc; lia|].
      apply He; try assumption; lia.
  - intros p c Hp Hpc Hc'.
    destruct (Nat.eq_dec p i) as [->|Hpi]; [|apply He; assumption].
    apply (leb_trans (Hmax c Hpc Hc') E).
Qed.


Lemma sift_length (fuel : nat) (a : list nat) (i n : nat) :
  length (Np.sift ltb key fuel a i n) = length a.
Proof. apply Permutation_length, sift_perm. Qed.

Lemma heapify_heap (n l : nat) (a : list nat) :
  l <= n -> n <= length a ->
  heap_from ltb key (S l) n a ->
  heap_from ltb key 1 n (Np.heapify ltb key l a n).
Proof.
  revert a. induction l as [|l IH]; intros a Hl Hn Hh; cbn [Np.heapify];
    [exact Hh|].
  apply IH; [lia | rewrite sift_length; exact Hn |].
  apply sift_heap; try lia.
  split.
  - intros p j Hp Hne. apply Hh. lia.
  - intros p j Hp Hch. destruct Hch; lia.
Qed.

(** the first entry of a heap has the largest key *)
Lemma heap_root (n : nat) (a : list nat) :
  heap_from ltb key 1 n a ->
  forall j, 1 <= j <= n -> ltb (kat a 0) (kat a (j - 1)) = false.
Proof.
  intros Hh j. induction j as [j IH] using lt_wf_ind. intros Hj.
  destruct (Nat.eq_dec j 1) as [->|Hne]; [apply ltb_irrefl|].
  assert (Hp : exists p, 1 <= p < j /\ heap_child p j).
  { exists (Nat.div2 j). unfold heap_child. rewrite Nat.div2_div.
    pose proof (Nat.div_mod_eq j 2) as Hd.
    pose proof (Nat.mod_upper_bound j 2). lia. }
  destruct Hp as (p & Hp & Hch).
  assert (H1 : ltb (kat a 0) (kat a (p - 1)) = false) by (apply IH; lia).
  assert (H2 : ltb (kat a (p - 1)) (kat a (j - 1)) = false)
    by (apply Hh; [lia | exact Hch | lia]).
  apply (leb_trans H2 H1).
Qed.

Lemma extract_sorted (n : nat) (a : list nat) :
  n <= length a -> heap_from ltb key 1 n a ->
  (forall p q, p < q -> n <= q < length a ->
               ltb (kat a q) (kat a p) = false) ->
  forall p q, p < q < length (Np.extract ltb key n a) ->
    ltb (kat (Np.extract ltb key n a) q) (kat (Np.extract ltb key n a) p)
    = false.
Proof.
  revert a. induction n as [|n IH]; intros a Hn Hh Hs; cbn [Np.extract].
  - intros p q Hpq. apply Hs; lia.
  - destruct (Nat.eqb_spec n 0) as [->|Hn0].
    + intros p q Hpq. apply Hs; lia.
    + set (a1 := Np.swap a 0 n).
      assert (L1 : length a1 = length a) by apply swap_length.
      assert (K1 : forall p, kat a1 p
                             = if p =? n then kat a 0
                               else if p =? 0 then kat a n else kat a p)
        by (intros p; unfold a1; apply key_at_swap; lia).
      destruct (@sift_keys n a1 1 n) as [S1 S2]; [lia | lia |].
      apply IH.
      * rewrite sift_length. lia.
      * apply sift_heap; try lia.
        split.
        -- intros p j Hp Hne Hch Hj. rewrite !K1.
           destruct Hch; eqb_cases; apply Hh; unfold heap_child; lia.
        -- intros p j Hp Hch. destruct Hch; lia.
      * rewrite sift_length, L1. intros p q Hpq Hq.
        rewrite S1 by lia.
        assert (Hroot : forall p', p' <= n ->
                                   ltb (kat a 0) (kat a p') = false).
        { intros p' Hp'.
          replace p' with (S p' - 1) by lia. apply (heap_root Hh). lia. }
        assert (Hlow : exists p',
                   kat (Np.sift ltb key n a1 1 n) p = kat a p' /\
                   (p' <= n \/ p' = p /\ n < p)).
        { destruct (Nat.lt_ge_cases p n) as [Hlt|Hge].
          - destruct (S2 p Hlt) as (p' & Hp' & E).
            rewrite E, K1. eqb_cases.
            + exists n. split; [reflexivity | lia].
            + exists p'. split; [reflexivity | lia].
          - rewrite S1, K1 by lia. eqb_cases.
            + exists 0. split; [reflexivity | lia].
            + exists p. split; [reflexivity | lia]. }
        destruct Hlow as (p' & E & Hp'). rewrite E, K1. eqb_cases.
        -- apply Hroot. lia.
        -- apply Hs; lia.
Qed.

Lemma heapsort_sorted (seg : list nat) :
  key_sorted ltb key (Np.heapsort ltb key seg).
Proof.
  unfold key_sorted, Np.heapsort.
  apply positions_sorted with (d := 0).
  apply extract_sorted.
  - rewrite (Permutation_length (heapify_perm ltb key _ _ _)). lia.
  - apply heapify_heap.
    + rewrite Nat.div2_div. apply Nat.Div0.div_le_upper_bound. lia.
    + lia.
    + intros p j Hp Hch Hj. exfalso.
      rewrite Nat.div2_div in Hp.
      pose proof (Nat.div_mod_eq (length seg) 2) as Hd.
      pose proof (Nat.mod_upper_bound (length seg) 2).
      destruct Hch; lia.
  - intros p q Hpq Hq.
    rewrite (Permutation_length (heapify_perm ltb key _ _ _)) in Hq. lia.
Qed.

(** *** The whole sort *)

Lemma introsort_sorted (fuel : nat) (popped : bool) (cdepth : Z)
    (seg : list nat) :
  length seg < fuel ->
  key_sorted ltb key (Np.introsort ltb key fuel popped cdepth seg).
Proof.
  revert popped cdepth seg.
  induction fuel as [|f IH]; intros popped cdepth seg Hf; [lia|].
  cbn [Np.introsort].
  destruct (popped && (cdepth <? 0)%Z); [apply heapsort_sorted|].
  destruct (Nat.ltb_spec 15 (length seg - 1)) as [Hbig|Hsmall];
    [|apply insertion_sort_sorted].
  destruct (@partition_spec seg) as (vp & HL & Hpi & [Hlo Hhi] & Hpiv);
    [lia|].
  destruct (Np.partition ltb key seg) as [a pi]. cbn [fst snd] in *.
  assert (Hleft : forall x, In x (firstn pi a) -> ltb vp (key x) = false).
  { intros x Hx. destruct (In_nth _ _ 0 Hx) as (p & Hp & <-).
    rewrite length_firstn in Hp.
    rewrite nth_firstn. destruct (Nat.ltb_spec p pi); [|lia].
    apply Hlo. lia. }
  assert (Hright : forall x, In x (skipn pi a) -> ltb (key x) vp = false).
  { intros x Hx. destruct (In_nth _ _ 0 Hx) as (p & Hp & <-).
    rewrite length_skipn in Hp. rewrite nth_skipn.
    apply Hhi. lia. }
  assert (Hpivot : firstn 1 (skipn pi a) = [nth pi a 0]).
  { destruct (skipn pi a) as [|x r] eqn:E.
    - apply (f_equal (@length nat)) in E. rewrite length_skipn in E.
      simpl in E. lia.
    - replace (nth pi a 0) with (nth 0 (skipn pi a) 0)
        by (rewrite nth_skipn; f_equal; lia).
      rewrite E. reflexivity. }
  assert (Hskip : forall x, In x (skipn (S pi) a) -> In x (skipn pi a)).
  { intros x Hx.
    replace (skipn (S pi) a) with (skipn 1 (skipn pi a)) in Hx
      by (rewrite skipn_skipn; reflexivity).
    destruct (skipn pi a); [exact Hx | right; exact Hx]. }
  assert (Hall : forall L R,
             Permutation L (firstn pi a) ->
             Permutation R (skipn (S pi) a) ->
             key_sorted ltb key L -> key_sorted ltb key R ->
             key_sorted ltb key (L ++ firstn 1 (skipn pi a) ++ R)).
  { intros L R HpL HpR HsL HsR. rewrite Hpivot.
    apply StronglySorted_app; [exact HsL | |].
    - constructor; [exact HsR|].
      apply Forall_forall. intros y Hy.
      apply (Permutation_in _ HpR), Hskip, Hright in Hy.
      apply (leb_trans Hpiv Hy).
    - intros x y Hx Hy.
      apply (Permutation_in _ HpL), Hleft in Hx.
      assert (Hy' : In y (skipn pi a)).
      { destruct Hy as [<-|Hy].
        - replace (nth pi a 0) with (nth 0 (skipn pi a) 0)
            by (rewrite nth_skipn; f_equal; lia).
          apply nth_In. rewrite length_skipn. lia.
        - apply Hskip. apply (Permutation_in _ HpR). exact Hy. }
      apply Hright in Hy'.
      apply (leb_trans Hx Hy'). }
  assert (HlenL : length (firstn pi a) < f)
    by (rewrite length_firstn; lia).
  assert (HlenR : length (skipn (S pi) a) < f)
    by (rewrite length_skipn; lia).
  destruct (_ <? _); apply Hall;
    try apply introsort_perm; apply IH; assumption.
Qed.

End IntrosortSorted.

(** *** Boolean keys *)

Lemma bool_lt_asym (x y : bool) :
  Np.bool_lt x y = true -> Np.bool_lt y x = false.
Proof. destruct x, y; cbv; congruence. Qed.

Lemma bool_le_trans (x y z : bool) :
  Np.bool_lt y x = false -> Np.bool_lt z y = false -> Np.bool_lt z x = false.
Proof. destruct x, y, z; cbv; congruence. Qed.

Lemma argsort_sorted (keys : list bool) :
  key_sorted Np.bool_lt (fun i => nth i keys false) (Np.argsort keys).
Proof.
  apply introsort_sorted.
  - exact bool_lt_asym.
  - exact bool_le_trans.
  - rewrite length_seq. lia.
Qed.

(** a list in the order of boolean keys holds the indices whose key is false
    before those whose key is true *)
Lemma key_sorted_bool (key : nat -> bool) (l : list nat) :
  key_sorted Np.bool_lt key l ->
  l = filter (fun i => negb (key i)) l ++ filter key l.
Proof.
  induction 1 as [|x l Hs IH HF]; simpl; [reflexivity|].
  destruct (key x) eqn:Ex; simpl.
  - assert (Hall : Forall (fun j => key j = true) l).
    { eapply Forall_impl; [|exact HF]. intros j Hj. cbv beta in Hj.
      destruct (key j); [reflexivity | discriminate]. }
    clear - Hall.
    assert (E : filter (fun i => negb (key i)) l = [] /\ filter key l = l).
    { induction Hall as [|y l Hy _ [IH1 IH2]]; simpl; [split; reflexivity|].
      rewrite Hy. simpl. rewrite IH2. split; [exact IH1 | reflexivity]. }
    destruct E as [E1 E2].
    rewrite E1, E2. reflexivity.
  - f_equal. exact IH.
Qed.

Lemma filter_perm {A} (f : A -> bool) (l l' : list A) :
  Permutation l l' -> Permutation (filter f l) (filter f l').
Proof.
  induction 1 as [|x l l' _ IH|x y l|l l' l'' _ IH1 _ IH2]; simpl.
  - constructor.
  - destruct (f x); [constructor|]; exact IH.
  - destruct (f x), (f y); try reflexivity. apply perm_swap.
  - etransitivity; eassumption.
Qed.

(** whatever their number, the indices that [np.argsort] returns for
    boolean flags are those of the false flags, in some order, followed by
    those of the true flags, in some order *)
Lemma argsort_false_first (keys : list bool) :
  exists ins outs,
    Np.argsort keys = ins ++ outs /\
    Permutation ins (filter (fun i => negb (nth i keys false))
                            (seq 0 (length keys))) /\
    Permutation outs (filter (fun i => nth i keys false)
                             (seq 0 (length keys))).
Proof.
  exists (filter (fun i => negb (nth i keys false)) (Np.argsort keys)),
         (filter (fun i => nth i keys false) (Np.argsort keys)).
  split; [|split].
  - apply (key_sorted_bool (argsort_sorted keys)).
  - apply filter_perm, argsort_perm.
  - apply filter_perm, argsort_perm.
Qed.

(** for any number of bonds, the axis order chosen by the outer product
    lists the in-bonds of [a] and of [b] before the out-bonds of [a] and of
    [b] *)
Lemma argsort_in_first (Na Nb : Z) (ra rb : nat) :
  (0 <= Na <= Z.of_nat ra)%Z -> (0 <= Nb <= Z.of_nat rb)%Z ->
  exists ins outs,
    Np.argsort (out_side Na (seq 0 ra) ++ out_side Nb (seq 0 rb))
    = ins ++ outs /\
    Permutation ins (seq 0 (Z.to_nat Na) ++ seq ra (Z.to_nat Nb)) /\
    Permutation outs (seq (Z.to_nat Na) (ra - Z.to_nat Na)
                      ++ seq (ra + Z.to_nat Nb) (rb - Z.to_nat Nb)).
Proof.
  intros Ha Hb.
  destruct (argsort_false_first
              (out_side Na (seq 0 ra) ++ out_side Nb (seq 0 rb)))
    as (ins & outs & E & Hi & Ho).
  rewrite length_app, !length_out_side, !length_seq in Hi, Ho.
  destruct (filter_in_out ra rb Ha Hb) as [E1 E2].
  rewrite E1 in Hi. rewrite E2 in Ho.
  exists ins, outs. auto.
Qed.

(** ** Contraction without a common label, for any number of bonds *)

Section ContractOuter.

Context {R : Type} (zero : R) (add mul : R -> R -> R).

(** the unchecked constructor on labels that fit *)
Lemma init_unchecked (bs : list Bond) (N : Z) (l : list Z) (st : Storage_t R) :
  Forall (fun x => Np.fits_int64 x = true) l ->
  __init__ zero bs N (Some l) (Some st) false false false None
  = Ok (mkUniTensor bs N l false false st None None None).
Proof.
  intros H. unfold __init__.
  rewrite (@labels_array_ok (Some l) (length bs)).
  - reflexivity.
  - intros l' E. inversion E; subst. exact H.
Qed.

Lemma Forall_take {A} (P : A -> Prop) (l : list A) (idx : list nat)
    (r : list A) :
  Forall P l -> Py.take l idx = Ok r -> Forall P r.
Proof.
  intros Hl. revert r. induction idx as [|i idx IH]; simpl; intros r H.
  - inversion H. constructor.
  - inv_bind H. inversion H; subst. constructor; [|eauto].
    rewrite Forall_forall in Hl. apply Hl.
    apply nth_error_In with i. assumption.
Qed.

(** C3, as the code has it.  For two well-formed tensors that are not in
    block form and share no label, [Contract] returns a tensor with one bond
    per bond of [a] and of [b] and [N_inbond = a.N_inbond + b.N_inbond]; its
    bonds, labels and axes are those of [a] followed by those of [b],
    rearranged by one permutation [mapper] of the axes, and its element at
    the rearranged index of [(i, j)] is [a[i] * b[j]] (of the dense forms of
    [a] and [b]).  Whatever the number of bonds, [mapper] lists the in-bonds
    of [a] and of [b], in some order, before the out-bonds of [a] and of
    [b], in some order.  When [a] and [b] have at most 16 bonds together,
    [mapper] is the stable rearrangement: the in-bonds of [a], then the
    in-bonds of [b], come before the out-bonds of [a], then the out-bonds of
    [b]. *)
Theorem Contract_outer_product :
  forall (a b : UniTensor R),
    well_formed a -> well_formed b ->
    int64_labels a -> int64_labels b ->
    (forall x, In x (labels a) -> ~ In x (labels b)) ->
    exists ta tb c tc mapper,
      as_dense zero a = Ok ta /\ as_dense zero b = Ok tb /\
      Contract zero add mul a b = Ok c /\
      length (bonds c) = length (bonds a) + length (bonds b) /\
      N_inbond c = (N_inbond a + N_inbond b)%Z /\
      is_diag c = false /\ is_blockform c = false /\
      Storage c = Dense tc /\
      Permutation mapper (seq 0 (length (bonds a) + length (bonds b))) /\
      (exists ins outs,
          mapper = ins ++ outs /\
          Permutation ins (seq 0 (Z.to_nat (N_inbond a))
                           ++ seq (length (bonds a)) (Z.to_nat (N_inbond b))) /\
          Permutation outs
            (seq (Z.to_nat (N_inbond a))
                 (length (bonds a) - Z.to_nat (N_inbond a))
             ++ seq (length (bonds a) + Z.to_nat (N_inbond b))
                    (length (bonds b) - Z.to_nat (N_inbond b)))) /\
      Py.take (bonds a ++ bonds b) mapper = Ok (bonds c) /\
      Py.take (labels a ++ labels b) mapper = Ok (labels c) /\
      Py.take (shape ta ++ shape tb) mapper = Ok (shape tc) /\
      (forall i j,
          Forall2 lt i (shape ta) -> Forall2 lt j (shape tb) ->
          get zero tc (map (fun m => nth m (i ++ j) 0) mapper)
          = mul (get zero ta i) (get zero tb j)) /\
      (length (bonds a) + length (bonds b) <= 16 ->
       bonds c = in_out_merge (Z.to_nat (N_inbond a)) (Z.to_nat (N_inbond b))
                              (bonds a) (bonds b) /\
       labels c = in_out_merge (Z.to_nat (N_inbond a)) (Z.to_nat (N_inbond b))
                               (labels a) (labels b) /\
       shape tc = in_out_merge (Z.to_nat (N_inbond a)) (Z.to_nat (N_inbond b))
                               (shape ta) (shape tb) /\
       forall i j,
         Forall2 lt i (shape ta) -> Forall2 lt j (shape tb) ->
         get zero tc (in_out_merge (Z.to_nat (N_inbond a))
                                   (Z.to_nat (N_inbond b)) i j)
         = mul (get zero ta i) (get zero tb j)).
Proof.
  intros a b Hwa Hwb Hia Hib Hdis.
  destruct (as_dense_wf zero Hwa) as (ta & Hta & Hsa & Hda).
  destruct (as_dense_wf zero Hwb) as (tb & Htb & Hsb & Hdb).
  destruct Hwa as (Hba & Hla & HNa & _).
  destruct Hwb as (Hbb & Hlb & HNb & _).
  unfold len in HNa, HNb.
  set (na := Z.to_nat (N_inbond a)). set (nb := Z.to_nat (N_inbond b)).
  set (ra := length (bonds a)). set (rb := length (bonds b)).
  set (new_io := out_side (N_inbond a) (seq 0 ra)
                 ++ out_side (N_inbond b) (seq 0 rb)).
  set (mapper := if 0 <? ra + rb then Np.argsort new_io else []).
  assert (Hna : na <= ra) by (unfold na, ra; lia).
  assert (Hnb : nb <= rb) by (unfold nb, rb; lia).
  assert (Hio : length new_io = ra + rb)
    by (unfold new_io; rewrite length_app, !length_out_side, !length_seq;
        reflexivity).
  assert (Hperm : Permutation mapper (seq 0 (ra + rb))).
  { unfold mapper. destruct (Nat.ltb_spec 0 (ra + rb)) as [Hp|Hp].
    - rewrite <- Hio. apply argsort_perm.
    - replace (ra + rb) with 0 by lia. reflexivity. }
  destruct (@perm_seq_inv _ _ Hperm) as (Hmlen & _ & Hmlt).
  assert (Hfirst : exists ins outs,
             mapper = ins ++ outs /\
             Permutation ins (seq 0 na ++ seq ra nb) /\
             Permutation outs (seq na (ra - na) ++ seq (ra + nb) (rb - nb))).
  { unfold mapper. destruct (Nat.ltb_spec 0 (ra + rb)) as [Hp|Hp].
    - apply argsort_in_first; lia.
    - exists [], [].
      replace ra with 0 by lia. replace rb with 0 by lia.
      replace na with 0 by lia. replace nb with 0 by lia.
      repeat split; constructor. }
  assert (Hra : length (shape ta) = ra) by (rewrite Hsa; apply length_map).
  assert (Hrb : length (shape tb) = rb) by (rewrite Hsb; apply length_map).
  assert (Htake : forall (A : Type) (d : A) (la lb : list A),
             length la = ra -> length lb = rb ->
             Py.take (la ++ lb) mapper
             = Ok (map (fun m => nth m (la ++ lb) d) mapper)).
  { intros A d la lb Ea Eb. apply take_in_range.
    rewrite length_app, Ea, Eb. exact Hmlt. }
  assert (Hshort : ra + rb <= 16 ->
            mapper = seq 0 na ++ seq ra nb ++ seq na (ra - na)
                     ++ seq (ra + nb) (rb - nb)).
  { intros Hs. unfold mapper. destruct (Nat.ltb_spec 0 (ra + rb)) as [Hp|Hp].
    - apply argsort_in_out; assumption.
    - assert (ra = 0) by lia. assert (rb = 0) by lia.
      assert (na = 0) by lia. assert (nb = 0) by lia.
      subst ra rb na nb. rewrite H, H0, H1, H2. reflexivity. }
  assert (Hmerge : forall (A : Type) (d : A) (la lb : list A),
             ra + rb <= 16 -> length la = ra -> length lb = rb ->
             map (fun m => nth m (la ++ lb) d) mapper
             = in_out_merge na nb la lb).
  { intros A d la lb Hs Ea Eb.
    pose proof (Htake A d la lb Ea Eb) as H1.
    rewrite (Hshort Hs) in H1 at 1. rewrite <- Ea, <- Eb in H1.
    rewrite take_in_out in H1 by lia.
    inversion H1. reflexivity. }
  set (d0 := Bond_new 0).
  set (tc := if 0 <? ra + rb then permute zero (outer mul ta tb) mapper
             else outer mul ta tb).
  assert (Hfit : Forall (fun x => Np.fits_int64 x = true)
                        (map (fun m => nth m (labels a ++ labels b) 0%Z) mapper)).
  { apply (@Forall_take _ _ (labels a ++ labels b) mapper).
    - apply Forall_app. split; assumption.
    - apply Htake; assumption. }
  assert (Htc : tc = permute zero (outer mul ta tb) mapper).
  { unfold tc. destruct (Nat.ltb_spec 0 (ra + rb)) as [Hp|Hp]; [reflexivity|].
    assert (Em : mapper = []).
    { apply length_zero_iff_nil. lia. }
    assert (Esa : shape ta = []) by (apply length_zero_iff_nil; lia).
    assert (Esb : shape tb = []) by (apply length_zero_iff_nil; lia).
    rewrite Em. clear - Esa Esb Hda Hdb.
    destruct ta as [sa da], tb as [sb db]. simpl in *. subst sa sb.
    simpl in Hda, Hdb.
    destruct da as [|x [|? ?]]; try discriminate.
    destruct db as [|y [|? ?]]; try discriminate.
    reflexivity. }
  exists ta, tb,
    (mkUniTensor (map (fun m => nth m (bonds a ++ bonds b) d0) mapper)
                 (N_inbond a + N_inbond b)
                 (map (fun m => nth m (labels a ++ labels b) 0%Z) mapper)
                 false false (Dense tc) None None None),
    tc, mapper.
  split; [exact Hta|]. split; [exact Htb|].
  split.
  { unfold Contract. rewrite (intersect1d_disjoint _ _ Hdis).
    rewrite Hba, Hbb. simpl.
    rewrite Hta, Htb. simpl.
    rewrite length_app. fold ra rb.
    destruct (Nat.ltb_spec 0 (ra + rb)) as [Hp|Hp].
    - fold new_io.
      assert (Em : mapper = Np.argsort new_io).
      { unfold mapper. destruct (Nat.ltb_spec 0 (ra + rb)); [reflexivity|lia]. }
      rewrite <- Em.
      rewrite (Htake _ d0 (bonds a) (bonds b) eq_refl eq_refl). simpl.
      rewrite (Htake _ 0%Z (labels a) (labels b) Hla Hlb). simpl.
      unfold permute_checked. simpl.
      rewrite length_app, Hra, Hrb, Hmlen, Nat.eqb_refl. simpl.
      rewrite Htc. apply init_unchecked. exact Hfit.
    - assert (Em : mapper = []) by (apply length_zero_iff_nil; lia).
      assert (Ea : bonds a = []) by (apply length_zero_iff_nil; fold ra; lia).
      assert (Eb : bonds b = []) by (apply length_zero_iff_nil; fold rb; lia).
      assert (Ela : labels a = []) by (apply length_zero_iff_nil; lia).
      assert (Elb : labels b = []) by (apply length_zero_iff_nil; lia).
      rewrite Em, Ea, Eb, Ela, Elb. simpl.
      unfold tc. destruct (Nat.ltb_spec 0 (ra + rb)); [lia|].
      apply init_unchecked. constructor. }
  cbn [bonds N_inbond labels is_diag is_blockform Storage].
  split; [rewrite length_map; exact Hmlen|].
  split; [reflexivity|]. split; [reflexivity|]. split; [reflexivity|].
  split; [reflexivity|]. split; [exact Hperm|].
  split; [exact Hfirst|].
  split; [apply Htake; reflexivity|].
  split; [apply Htake; assumption|].
  assert (Hshape : shape tc
                   = map (fun m => nth m (shape ta ++ shape tb) 0) mapper)
    by (rewrite Htc; reflexivity).
  split; [rewrite Hshape; apply Htake; assumption|].
  assert (Hget : forall i j,
             Forall2 lt i (shape ta) -> Forall2 lt j (shape tb) ->
             get zero tc (map (fun m => nth m (i ++ j) 0) mapper)
             = mul (get zero ta i) (get zero tb j)).
  { intros i j Hi Hj. rewrite Htc, get_permute.
    - apply get_outer; assumption.
    - simpl. rewrite length_app, Hra, Hrb. exact Hperm.
    - simpl. apply Forall2_app; assumption. }
  split; [exact Hget|].
  intros Hs.
  split; [apply Hmerge; auto|].
  split; [apply Hmerge; auto|].
  split; [rewrite Hshape; apply Hmerge; auto|].
  intros i j Hi Hj.
  rewrite <- (Hmerge _ 0 i j Hs).
  - apply Hget; assumption.
  - rewrite (Forall2_length Hi). exact Hra.
  - rewrite (Forall2_length Hj). exact Hrb.
Qed.

End ContractOuter.

(** ** The further properties at concrete tensors *)

Module MoreRuns.

Import Examples Samples.
Open Scope Z_scope.

Lemma plain_23_well_formed : well_formed plain_23.
Proof.
  unfold well_formed, len. simpl. repeat split; try lia.
  eexists. repeat split.
Defined.

Lemma plain_345_well_formed : well_formed plain_345.
Proof.
  unfold well_formed, len. simpl. repeat split; try lia.
  eexists. repeat split.
Defined.

Lemma plain_diag_well_formed : well_formed plain_diag.
Proof.
  unfold well_formed, len. simpl.
  split; [reflexivity|]. split; [reflexivity|]. split; [lia|].
  eexists. split; [reflexivity|]. split; [reflexivity|].
  exists 2%nat. split; reflexivity.
Defined.

Lemma bd_one_sym : sym_bond 1 bd_one.
Proof.
  unfold sym_bond. simpl. split; [lia|].
  eexists. split; [reflexivity|]. split; [reflexivity|]. repeat constructor.
Defined.

Lemma sym_count_symmetric : symmetric_dense 1 sym_count.
Proof.
  unfold symmetric_dense. split.
  - unfold well_formed, len. simpl. repeat split; try lia.
    eexists. repeat split.
  - split; [reflexivity|]. split; [lia|]. split.
    + repeat constructor; apply bd_one_sym.
    + unfold len. simpl. lia.
Defined.

(** the block-form theorem at a tensor with two in-bonds whose quantum
    numbers are given in ascending order *)
Lemma init_blockform_metadata_witness :
  Forall table_bond [bd_up; bd_up; bd_up] /\
  __init__ 0 [bd_up; bd_up; bd_up] 2 None None true false true None
  = Ok three_leg /\
  exists b_in r_in b_out r_out,
    firstn 2 (bonds three_leg) = b_in :: r_in /\
    skipn 2 (bonds three_leg) = b_out :: r_out /\
    GetTotalQnums three_leg
    = Ok (Bond_combine b_in r_in, Bond_combine b_out r_out) /\
    _BlockQnums three_leg
    = Some (_fx_GetCommRows (GetUniqueQnums (Bond_combine b_in r_in))
                            (GetUniqueQnums (Bond_combine b_out r_out))).
Proof.
  assert (Htab : Forall table_bond [bd_up; bd_up; bd_up]).
  { repeat constructor; intros q Hq; inversion Hq; subst q;
      repeat constructor. }
  split; [exact Htab|]. split; [reflexivity|].
  destruct (@init_blockform_metadata Z 0 [bd_up; bd_up; bd_up] 2 None true false
              None three_leg eq_refl (or_introl eq_refl) Htab)
    as (sorted & b_in & r_in & b_out & r_out & qin & qout & m_in & m_out
        & blocks & Hb & _ & _ & _ & Hfirst & Hskip & Htq & _ & _ & HC & _).
  subst sorted. exists b_in, r_in, b_out, r_out.
  split; [exact Hfirst|]. split; [exact Hskip|]. split; [exact Htq | exact HC].
Defined.

Lemma vec_u_well_formed : well_formed vec_u.
Proof.
  unfold well_formed, len. simpl. repeat split; try lia.
  eexists. repeat split.
Defined.

Lemma vec_v_well_formed : well_formed vec_v.
Proof.
  unfold well_formed, len. simpl. repeat split; try lia.
  eexists. repeat split.
Defined.

Lemma vec_w_well_formed : well_formed vec_w.
Proof.
  unfold well_formed, len. simpl. repeat split; try lia.
  eexists. repeat split.
Defined.

Lemma wide_16_well_formed : well_formed wide_16.
Proof.
  unfold well_formed, len. simpl. repeat split; try lia.
  eexists. repeat split.
Defined.

(** the outer product of the vectors [u] (in) and [v] (out) *)
Lemma Contract_outer_product_witness :
  well_formed vec_u /\ well_formed vec_v /\
  int64_labels vec_u /\ int64_labels vec_v /\
  exists c, Contract 0 Z.add Z.mul vec_u vec_v = Ok c /\
            N_inbond c = 1 /\ labels c = [7; 8].
Proof.
  assert (Hu : int64_labels vec_u) by (repeat constructor).
  assert (Hv : int64_labels vec_v) by (repeat constructor).
  split; [exact vec_u_well_formed|]. split; [exact vec_v_well_formed|].
  split; [exact Hu|]. split; [exact Hv|].
  destruct (@Contract_outer_product Z 0 Z.add Z.mul vec_u vec_v
              vec_u_well_formed vec_v_well_formed Hu Hv)
    as (ta & tb & c & tc & mapper & _ & _ & Hc & _ & HN & _ & _ & _ & _ & _
        & _ & _ & _ & _ & Hshort).
  - intros x [Hx|[]] [Hy|[]]. rewrite <- Hx in Hy. discriminate.
  - exists c. split; [exact Hc|]. split; [exact HN|].
    destruct Hshort as (_ & Hl & _); [simpl; lia | exact Hl].
Defined.

(** C3 fails as stated: with 17 bonds in all, the in-bonds still come first,
    but the out-bonds of [a] do not keep their order.  [np.argsort] splits the
    17 flags around a pivot and exchanges equal flags on the way. *)
Lemma Contract_order_beyond_16 :
  ~ (forall a b : UT,
        well_formed a -> well_formed b ->
        (forall x, In x (labels a) -> ~ In x (labels b)) ->
        exists c, Contract 0 Z.add Z.mul a b = Ok c /\
                  labels c
                  = in_out_merge (Z.to_nat (N_inbond a)) (Z.to_nat (N_inbond b))
                                 (labels a) (labels b)).
Proof.
  intros H.
  destruct (H wide_16 vec_w wide_16_well_formed vec_w_well_formed)
    as (c & Hc & Hl).
  - intros x Hin [Hx|[]]. subst x. vm_compute in Hin.
    repeat (destruct Hin as [Hin|Hin]; [discriminate Hin|]). exact Hin.
  - vm_compute in Hc. inversion Hc; subst c; clear Hc.
    vm_compute in Hl. discriminate Hl.
Qed.

(** the labels of that contraction, as the code orders them *)
Lemma Contract_wide_labels :
  exists c, Contract 0 Z.add Z.mul wide_16 vec_w = Ok c /\
            N_inbond c = 8 /\
            labels c = [0; 1; 2; 3; 4; 5; 6; 7; 14; 13; 12; 8; 10; 9; 15; 11;
                        100].
Proof. eexists. split; [vm_compute; reflexivity|]. split; reflexivity. Qed.

(** the three bonds of [cube_222] as one shared object: combining the bonds
    labelled 0 and 1 changes the bond that is kept as well, and the bonds no
    longer describe the storage *)
Lemma CombineBonds_shared_object :
  CombineBonds 0 [0; 0; 0]%nat [0; 1] None None cube_222
  = (mkUniTensor [Bond_new 4; Bond_new 4] 1 [0; 2] false false
       (Dense (mkTensor [4%nat; 2%nat] [1; 2; 3; 4; 5; 6; 7; 8]))
       None None None,
     Ok tt) /\
  CombineBonds 0 [0; 1; 2]%nat [0; 1] None None cube_222
  = (mkUniTensor [Bond_new 4; Bond_new 2] 1 [0; 2] false false
       (Dense (mkTensor [4%nat; 2%nat] [1; 2; 3; 4; 5; 6; 7; 8]))
       None None None,
     Ok tt).
Proof. split; reflexivity. Qed.

Lemma sort_qnums_descending_witness :
  rectangular [[-1]; [2]; [0]; [2]] /\
  exists q', sort_qnums bd_sym_2 = Ok (mkBond 4 (Some q')) /\
             Permutation [[-1]; [2]; [0]; [2]] q'.
Proof.
  assert (H : rectangular [[-1]; [2]; [0]; [2]]).
  { unfold rectangular. simpl. split; [discriminate|]. split; [lia|].
    repeat constructor. }
  split; [exact H|].
  destruct (@sort_qnums_descending bd_sym_2 _ eq_refl H) as (q' & Hs & Hp & _).
  exists q'. split; assumption.
Defined.

Lemma plain_23_int64 : int64_labels plain_23.
Proof. repeat constructor. Defined.

Lemma SetLabel_spec_witness :
  NoDup (labels plain_23) /\ int64_labels plain_23 /\
  (exists T', SetLabel 30 (-1) plain_23 = (T', Done tt) /\
              nth_error (labels T') 1 = Some 30) /\
  exists e, SetLabel (2 ^ 63) 0 plain_23 = (plain_23, Failed e).
Proof.
  assert (H : NoDup (labels plain_23)).
  { simpl. repeat constructor; simpl; intuition discriminate. }
  split; [exact H|]. split; [exact plain_23_int64|]. split.
  - destruct (@SetLabel_spec Z plain_23 30 (-1) H plain_23_int64)
      as [(k & Hw & _ & _ & Hset & _ & _ & Hnth & _) | ([Hw|[Hin|Hfit]] & _)].
    + inversion Hw; subst k. eexists. split; [exact Hset | exact Hnth].
    + discriminate Hw.
    + simpl in Hin. exfalso. intuition discriminate.
    + discriminate Hfit.
  - destruct (@SetLabel_spec Z plain_23 (2 ^ 63) 0 H plain_23_int64)
      as [(k & _ & _ & Hfit & _) | (_ & He)].
    + discriminate Hfit.
    + exact He.
Defined.


Lemma init_checked_invariants_witness :
  exists T, __init__ 0 [Bond_new 2; Bond_new 3] 1 (Some [10; 20]) None true false
                     false None = Ok T /\
            length (labels T) = length (bonds T) /\ NoDup (labels T).
Proof.
  eexists. split; [reflexivity|].
  destruct (@init_checked_invariants Z 0 [Bond_new 2; Bond_new 3] 1
              (Some [10; 20]) None false false None _ eq_refl)
    as (_ & _ & Hl & Hnd & _).
  split; assumption.
Defined.

Lemma init_dense_zero_witness :
  exists T, __init__ 0 [Bond_new 2; Bond_new 3] 1 (Some [10; 20]) None true false
                     false None = Ok T /\
            well_formed T /\ UniTensor_shape T = Ok [2%nat; 3%nat].
Proof.
  eexists. split; [reflexivity|].
  destruct (@init_dense_zero Z 0 [Bond_new 2; Bond_new 3] 1 (Some [10; 20])
              false None _ eq_refl) as (Hwf & _ & Hsh & _).
  split; assumption.
Defined.

Lemma Todense_spec_witness :
  well_formed plain_diag /\
  exists T', Todense 0 plain_diag = (T', Done tt) /\ is_diag T' = false /\
             well_formed T'.
Proof.
  split; [exact plain_diag_well_formed|].
  destruct (@Todense_spec Z 0 plain_diag plain_diag_well_formed)
    as (T' & Hd & Hwf & Hdiag & _).
  exists T'. split; [exact Hd|]. split; assumption.
Defined.

Lemma SetElem_spec_witness :
  well_formed plain_23 /\
  SetElem [6; 5; 4; 3; 2; 1] plain_23
  = (set_Storage plain_23 (Dense (mkTensor [2%nat; 3%nat] [6; 5; 4; 3; 2; 1])),
     Done tt) /\
  SetElem [1; 2] plain_23 = (plain_23, Failed SetElemCount).
Proof.
  split; [exact plain_23_well_formed|].
  destruct (@SetElem_spec Z plain_23 [6; 5; 4; 3; 2; 1] _ _ _
              plain_23_well_formed eq_refl eq_refl) as (_ & _ & Hok).
  destruct (@SetElem_spec Z plain_23 [1; 2] _ _ _
              plain_23_well_formed eq_refl eq_refl) as (Hbad & _).
  split.
  - apply (Hok eq_refl eq_refl).
  - apply Hbad. simpl. lia.
Defined.


(** after [Permute] the storage is read through permuted strides, and
    [Reshape] raises: the six elements are no longer laid out in the order of
    one axis *)
Lemma Reshape_after_Permute_raises :
  exists T', Permute 0 [1; 0] 1 false plain_23 = (T', Done tt) /\
             permuted_strides (contiguous_strides [2; 3]%nat) [1; 0]%nat
             = [1; 3]%nat /\
             Reshape [6%nat] 1 None T' [1; 3]%nat
             = ((T', [1; 3]%nat), Failed (Raised TorchRuntimeError)).
Proof. eexists. split; [reflexivity|]. split; reflexivity. Qed.


Lemma perm_102 : Permutation [1; 0]%nat (seq 0 2).
Proof. simpl. apply perm_swap. Defined.

Lemma Permute_by_index_witness :
  well_formed plain_23 /\
  exists T', Permute 0 [1; 0] 1 false plain_23 = (T', Done tt) /\
             labels T' = [20; 10] /\ UniTensor_shape T' = Ok [3%nat; 2%nat] /\
             well_formed T'.
Proof.
  split; [exact plain_23_well_formed|].
  destruct (@Permute_by_index Z 0 plain_23 [1; 0]%nat 1 _ plain_23_well_formed
              eq_refl) as (_ & _ & Hok).
  - repeat constructor.
  - destruct (Hok eq_refl perm_102)
      as (T' & Hp & _ & Hb & Hl & _ & Hsh & _ & Hwf).
    exists T'. split; [exact Hp|]. split; [exact Hl|].
    split; [rewrite Hsh, Hb; reflexivity|].
    apply Hwf. unfold len. simpl. lia.
Defined.

Lemma perm_120 : Permutation [1; 2; 0]%nat (seq 0 3).
Proof.
  simpl. apply perm_trans with [1; 0; 2]%nat;
    [apply perm_skip, perm_swap | apply perm_swap].
Defined.

Lemma perm_201 : Permutation [2; 0; 1]%nat (seq 0 3).
Proof.
  simpl. apply perm_trans with [0; 2; 1]%nat;
    [apply perm_swap | apply perm_skip, perm_swap].
Defined.

Lemma Permute_inverse_roundtrip_witness :
  well_formed plain_345 /\
  exists T', Permute 0 [1; 2; 0] 2 false plain_345 = (T', Done tt) /\
             Permute 0 [2; 0; 1] 1 false T' = (plain_345, Done tt).
Proof.
  split; [exact plain_345_well_formed|].
  apply (@Permute_inverse_roundtrip Z 0 plain_345 [1; 2; 0]%nat [2; 0; 1]%nat 2
           plain_345_well_formed eq_refl perm_120 perm_201).
  intros p Hp. simpl in Hp.
  destruct p as [|[|[|p]]]; try reflexivity. lia.
Defined.

Lemma Permute_by_label_as_index_witness :
  NoDup (labels plain_23) /\
  Permute 0 [20; 10] 1 true plain_23 = Permute 0 [1; 0] 1 false plain_23 /\
  Permute 0 [20; 11] 1 true plain_23 = (plain_23, Failed PermuteBadLabel).
Proof.
  assert (H : NoDup (labels plain_23)).
  { simpl. repeat constructor; simpl; intuition discriminate. }
  split; [exact H|].
  destruct (@Permute_by_label_as_index Z 0 plain_23 [1; 0]%nat [20; 11] 1 H)
    as (Hsame & Hbad).
  split.
  - apply Hsame. repeat constructor.
  - apply Hbad; try reflexivity.
    exists 11. split; simpl; intuition discriminate.
Defined.


Lemma GetBlock_dense_sector_witness :
  symmetric_dense 1 sym_count /\
  GetBlock 0 sym_count [1; 1] = Err GetBlockQnumLen /\
  GetBlock 0 sym_count [5] = Err GetBlockNoSectorIn /\
  GetBlock 0 sym_count [2] = Err GetBlockNoSectorOut.
Proof.
  split; [exact sym_count_symmetric|].
  destruct (@GetBlock_dense_sector Z 0 1%nat sym_count _ [1; 1]
              sym_count_symmetric eq_refl)
    as (cin & cout & qin & qout & Ht & Hi & Ho & Hlen & _).
  split; [apply Hlen; discriminate|].
  destruct (@GetBlock_dense_sector Z 0 1%nat sym_count _ [5]
              sym_count_symmetric eq_refl)
    as (cin5 & cout5 & qin5 & qout5 & Ht5 & Hi5 & Ho5 & _ & Hin & _).
  inversion Ht5; subst cin5 cout5. inversion Hi5; subst qin5.
  split; [apply Hin; reflexivity|].
  destruct (@GetBlock_dense_sector Z 0 1%nat sym_count _ [2]
              sym_count_symmetric eq_refl)
    as (cin2 & cout2 & qin2 & qout2 & Ht2 & Hi2 & Ho2 & _ & _ & Hout & _).
  inversion Ht2; subst cin2 cout2. inversion Hi2; subst qin2.
  inversion Ho2; subst qout2.
  apply Hout; [reflexivity | discriminate | reflexivity].
Defined.

Lemma PutBlock_GetBlock_dense_witness :
  symmetric_dense 1 sym_count /\
  GetTotalQnums sym_count = Ok (cb_in_22, cb_out_2) /\
  exists T' B,
    PutBlock 0 (TorchTensor X21) [1] sym_count = (T', Ok tt) /\
    GetBlock 0 T' [1] = Ok B /\ Storage B = Dense X21.
Proof.
  split; [exact sym_count_symmetric|]. split; [reflexivity|].
  destruct (@PutBlock_GetBlock_dense Z 0 1%nat sym_count _ [1] (TorchTensor X21)
              X21 cb_in_22 cb_out_2 _ _ sym_count_symmetric eq_refl eq_refl
              eq_refl eq_refl eq_refl)
    as (T' & t' & B & Hput & _ & _ & _ & Hget & Hs & _);
    try reflexivity; try discriminate.
  exists T', B. repeat split; assumption.
Defined.

Lemma PutBlock_other_sector_witness :
  symmetric_dense 1 sym_count /\
  GetBlock 0 (fst (PutBlock 0 (TorchTensor X21) [1] sym_count)) [0]
  = GetBlock 0 sym_count [0].
Proof.
  split; [exact sym_count_symmetric|].
  apply (@PutBlock_other_sector Z 0 1%nat sym_count _ [1] [0] (TorchTensor X21)
           X21 cb_in_22 cb_out_2 _ _ sym_count_symmetric eq_refl eq_refl
           eq_refl eq_refl eq_refl);
    try reflexivity; discriminate.
Defined.

Lemma one_channel_single :
  blockform_single one_channel
    [mkTensor [1%nat; 1%nat] [0]; mkTensor [1%nat; 1%nat] [0]] [[1]; [0]].
Proof.
  unfold blockform_single. simpl.
  split; [reflexivity|]. split; [reflexivity|].
  split; [exists bd_one, [bd_one], [[1]; [0]]; repeat split|].
  split; [reflexivity|]. split; [reflexivity|]. split; [reflexivity|].
  split; repeat constructor.
Defined.

Lemma PutBlock_GetBlock_blockform_single_witness :
  blockform_single one_channel
    [mkTensor [1%nat; 1%nat] [0]; mkTensor [1%nat; 1%nat] [0]] [[1]; [0]] /\
  exists T' B,
    PutBlock 0 (Ndarray X11) [1] one_channel = (T', Ok tt) /\
    GetBlock 0 T' [1] = Ok B /\ Storage B = Dense X11.
Proof.
  split; [exact one_channel_single|].
  destruct (@PutBlock_GetBlock_blockform_single Z 0 one_channel _ _ 1 X11
              one_channel_single) as (_ & Hin).
  destruct (Hin (or_introl eq_refl))
    as (s & old & _ & Hold & _ & _ & Hok).
  assert (Hsh : shape X11 = shape old).
  { destruct s as [|[|s]]; simpl in Hold; inversion Hold; subst; try reflexivity.
    destruct s; discriminate. }
  destruct (Hok Hsh) as (T' & B & Hput & _ & _ & Hget & Hs & _).
  exists T', B. repeat split; assumption.
Defined.

Lemma CombineBonds_shape_witness :
  well_formed plain_345 /\ NoDup (labels plain_345) /\
  incl [4; 5] (labels plain_345) /\
  exists T', CombineBonds 0 [0; 1; 2]%nat [4; 5] None None plain_345
             = (T', Ok tt) /\
             well_formed T' /\ length (bonds T') = 2%nat.
Proof.
  assert (Hnd : NoDup (labels plain_345)).
  { simpl. repeat constructor; simpl; intuition discriminate. }
  assert (Hnd2 : NoDup [4; 5]).
  { repeat constructor; simpl; intuition discriminate. }
  assert (Hincl : incl [4; 5] (labels plain_345)).
  { intros x Hx. simpl in *. intuition. }
  split; [exact plain_345_well_formed|]. split; [exact Hnd|].
  split; [exact Hincl|].
  assert (Hobjs : NoDup [0; 1; 2]%nat).
  { repeat constructor; simpl; intuition discriminate. }
  destruct (@CombineBonds_shape Z 0 [0; 1; 2]%nat plain_345 [4; 5] None None _
              Hobjs plain_345_well_formed eq_refl eq_refl Hnd Hnd2 Hincl
              (le_n 2) ltac:(intros l H; discriminate H))
    as (T' & t' & merged & lx & Hc & _ & _ & Hwf & _ & _ & Hrank & _).
  exists T'. split; [exact Hc|]. split; [exact Hwf|].
  simpl in Hrank. lia.
Defined.


End MoreRuns.
